(** * Resume parser (src/utils/resume-parser.js): shallow embedding

    The parser is a pure function of the extracted text, written as a
    cascade of regular-expression strategies.  The development follows it
    in layers:

    - [Js]: JavaScript strings as sequences of UTF-16 code units, with the
      string primitives the parser calls ([trim], [split], [indexOf], ...);
    - [Re]: a backtracking matcher that follows the ECMAScript matching
      algorithm (continuation passing, greedy and lazy quantifiers, capture
      groups, [^ $ \b], lookahead, the [i], [m] and [g] flags);
      [ReRead]: a reader for the source text of patterns, so that the
      patterns below are the literals of the program; [ReStr]: the string
      methods that take a pattern, and the [exec] loops;
    - the parser's functions, translated one by one;
    - [ReSpec]: a declarative matching relation, for which the matcher is
      proved sound ([ReFacts]), and what follows from it for the matches
      of a pattern (least length, groups that are always set, ...);
    - the properties of the parser.

    Where the program can loop ([while ((m = re.exec(s)) !== null)]), the
    translation takes fuel and answers [None] while the loop is running. *)

From Stdlib Require Import String Ascii NArith ZArith Bool Arith List Lia.
From Stdlib Require Import SpecFloat.
Import ListNotations.

Set Implicit Arguments.

(** ** JavaScript strings *)

Module Js.

(** A string is its sequence of UTF-16 code units. *)
Definition jstring := list N.

Definition eqb (a b : jstring) : bool :=
  if list_eq_dec N.eq_dec a b then true else false.

(** Literals are written as Rocq strings and read as UTF-8. *)
Fixpoint bytes (s : string) : list N :=
  match s with
  | EmptyString => []
  | String a s' => N_of_ascii a :: bytes s'
  end.

Fixpoint utf16 (bs : list N) : jstring :=
  match bs with
  | [] => []
  | b :: r =>
      if (b <? 128)%N then b :: utf16 r
      else if (b <? 224)%N then
        match r with
        | b2 :: r' => ((b - 192) * 64 + (b2 - 128))%N :: utf16 r'
        | _ => [b]
        end
      else if (b <? 240)%N then
        match r with
        | b2 :: b3 :: r' =>
            ((b - 224) * 4096 + (b2 - 128) * 64 + (b3 - 128))%N :: utf16 r'
        | _ => [b]
        end
      else
        match r with
        | b2 :: b3 :: b4 :: r' =>
            let cp := ((b - 240) * 262144 + (b2 - 128) * 4096
                       + (b3 - 128) * 64 + (b4 - 128) - 65536)%N in
            (55296 + cp / 1024)%N :: (56320 + cp mod 1024)%N :: utf16 r'
        | _ => [b]
        end
  end.

Definition str (s : string) : jstring := utf16 (bytes s).

(** Character classes of the language: WhiteSpace and LineTerminator
    (what [trim] strips and [\s] matches), word characters, digits. *)
Definition is_line_term (c : N) : bool :=
  ((c =? 10) || (c =? 13) || (c =? 8232) || (c =? 8233))%N.

Definition is_space (c : N) : bool :=
  ((c =? 9) || (c =? 10) || (c =? 11) || (c =? 12) || (c =? 13) || (c =? 32)
   || (c =? 160) || (c =? 5760) || ((8192 <=? c) && (c <=? 8202))
   || (c =? 8232) || (c =? 8233) || (c =? 8239) || (c =? 8287)
   || (c =? 12288) || (c =? 65279))%N.

Definition is_digit (c : N) : bool := ((48 <=? c) && (c <=? 57))%N.
Definition is_upper (c : N) : bool := ((65 <=? c) && (c <=? 90))%N.
Definition is_lower (c : N) : bool := ((97 <=? c) && (c <=? 122))%N.
Definition is_word (c : N) : bool :=
  is_digit c || is_upper c || is_lower c || (c =? 95)%N.

Definition upper1 (c : N) : N := if is_lower c then (c - 32)%N else c.
Definition lower1 (c : N) : N := if is_upper c then (c + 32)%N else c.

(** [toLowerCase].  ASCII letters are folded; of the other code units only
    U+212A (Kelvin sign) and U+0130 lower to text that contains an ASCII
    letter, and they are mapped as the language does.  The remaining
    non-ASCII letters are left as they are: the parser only compares
    lowered text with ASCII words, which this cannot change. *)
Definition lower_unit (c : N) : jstring :=
  if (c =? 8490)%N then [107%N]
  else if (c =? 304)%N then [105%N; 775%N]
  else [lower1 c].

Definition toLowerCase (s : jstring) : jstring := flat_map lower_unit s.

(** [toUpperCase], for the ASCII header words it is applied to. *)
Definition toUpperCase (s : jstring) : jstring := map upper1 s.

Fixpoint trimStart (s : jstring) : jstring :=
  match s with
  | c :: r => if is_space c then trimStart r else s
  | [] => []
  end.

Definition trimEnd (s : jstring) : jstring := rev (trimStart (rev s)).
Definition trim (s : jstring) : jstring := trimEnd (trimStart s).

Fixpoint startsWith (s p : jstring) : bool :=
  match p, s with
  | [], _ => true
  | a :: p', b :: s' => (a =? b)%N && startsWith s' p'
  | _ :: _, [] => false
  end.

Definition endsWith (s p : jstring) : bool := startsWith (rev s) (rev p).

(** [indexOfFrom s p i]: first index [>= i] at which [p] occurs in [s]. *)
Fixpoint find_from (s p : jstring) (i : nat) : option nat :=
  if startsWith s p then Some i
  else match s with
       | [] => None
       | _ :: s' => find_from s' p (S i)
       end.

Definition indexOfFrom (s p : jstring) (i : nat) : option nat :=
  if length s <? i then (if startsWith [] p then Some (length s) else None)
  else find_from (skipn i s) p i.

Definition indexOf (s p : jstring) : option nat := find_from s p 0.

Definition includes (s p : jstring) : bool :=
  match indexOf s p with Some _ => true | None => false end.

(** [substring a b], both indices clamped, swapped when [a > b]. *)
Definition substring (s : jstring) (a b : nat) : jstring :=
  let a' := Nat.min a (length s) in
  let b' := Nat.min b (length s) in
  let lo := Nat.min a' b' in
  let hi := Nat.max a' b' in
  firstn (hi - lo) (skipn lo s).

Definition substringFrom (s : jstring) (a : nat) : jstring := skipn a s.

(** [split(sep)] for a non-empty string separator. *)
Fixpoint split_go (fuel : nat) (s sep cur : jstring) : list jstring :=
  match fuel with
  | O => [rev cur ++ s]
  | S f =>
      match s with
      | [] => [rev cur]
      | c :: s' =>
          if startsWith s sep
          then rev cur :: split_go f (skipn (length sep) s) sep []
          else split_go f s' sep (c :: cur)
      end
  end.

Definition split (s sep : jstring) : list jstring :=
  split_go (S (length s)) s sep [].

Fixpoint join (sep : jstring) (l : list jstring) : jstring :=
  match l with
  | [] => []
  | [a] => a
  | a :: l' => a ++ sep ++ join sep l'
  end.

(** [replace(p, r)] with a string pattern: first occurrence only. *)
Definition replace_str (s p r : jstring) : jstring :=
  match indexOf s p with
  | Some i => firstn i s ++ r ++ skipn (i + length p) s
  | None => s
  end.

Definition mem (x : jstring) (l : list jstring) : bool :=
  existsb (eqb x) l.

(** Insertion-ordered de-duplication: [[...new Set(l)]]. *)
Fixpoint dedup_acc (seen l : list jstring) : list jstring :=
  match l with
  | [] => []
  | x :: l' =>
      if mem x seen then dedup_acc seen l'
      else x :: dedup_acc (x :: seen) l'
  end.

Definition dedup (l : list jstring) : list jstring := dedup_acc [] l.

(** A string is truthy when it is not empty. *)
Definition truthy (s : jstring) : bool :=
  match s with [] => false | _ => true end.

(** Numbers.  The numbers the parser computes with are whole, infinite or
    NaN: [Num z] is the number whose value is the integer [z], [NegZero]
    is -0.  A number of the language is a double: [to_double z] is the
    double nearest to the integer [z], ties going to the even significand,
    and an infinity from 2^1024 - 2^970 on.  Below 2^53 every integer is a
    double. *)
Inductive num : Type :=
| Num (z : Z)
| NegZero
| NaN
| Infinity (negative : bool).

Definition to_double (z : Z) : num :=
  let a := Z.abs z in
  if (a <? 2 ^ 53)%Z then Num z
  else
    (* keep the 53 leading bits [q]; [r] is what is cut off *)
    let k := (Z.log2 a - 52)%Z in
    let q := Z.shiftr a k in
    let r := (a - Z.shiftl q k)%Z in
    let half := (2 ^ (k - 1))%Z in
    let q' :=
      if (half <? r)%Z || ((r =? half)%Z && Z.odd q) then (q + 1)%Z else q in
    let v := Z.shiftl q' k in
    if (2 ^ 1024 <=? v)%Z then Infinity (z <? 0)%Z else Num (Z.sgn z * v).

Definition num_of (o : option Z) : num :=
  match o with Some z => to_double z | None => NaN end.

(** [parseInt(s, 10)]: optional white space, optional sign, then the
    longest run of digits, read as an integer and made a number; NaN when
    there is no digit.  (For more than 20 significant digits the language
    lets an implementation read the further digits as zeros; here, as in
    the engines the program runs on, the integer written is rounded.) *)
Fixpoint digits_val (s : jstring) (acc : Z) : Z :=
  match s with
  | c :: r => if is_digit c then digits_val r (acc * 10 + Z.of_N (c - 48))
              else acc
  | [] => acc
  end.

Definition parse_digits (s : jstring) : option Z :=
  match s with
  | c :: _ => if is_digit c then Some (digits_val s 0) else None
  | [] => None
  end.

Definition parseInt (s : jstring) : num :=
  match trimStart s with
  | c :: r =>
      if (c =? 45)%N then
        match parse_digits r with
        | Some z => if (z =? 0)%Z then NegZero else to_double (- z)
        | None => NaN
        end
      else if (c =? 43)%N then num_of (parse_digits r)
      else num_of (parse_digits (c :: r))
  | [] => NaN
  end.

End Js.

Import Js.


(** ** Regular expressions *)

Module Re.

(** *** Syntax *)

Inductive citem : Type :=
| CChar (c : N)
| CRange (lo hi : N)
| CDigit | CWord | CSpace
| CNotDigit | CNotWord | CNotSpace.

Inductive regex : Type :=
| Empty
| Chr (c : N)
| Any
| Class (neg : bool) (items : list citem)
| Seq (a b : regex)
| Alt (a b : regex)
| Rep (mn : nat) (mx : option nat) (greedy : bool) (r : regex)
| Group (i : nat) (r : regex)
| Bol | Eol | WordB | NotWordB
| NegLook (r : regex)
| PosLook (r : regex).

(** Capture groups that occur in a pattern (cleared at each iteration of a
    quantifier around them). *)
Fixpoint groups (r : regex) : list nat :=
  match r with
  | Seq a b | Alt a b => groups a ++ groups b
  | Rep _ _ _ r' | NegLook r' | PosLook r' => groups r'
  | Group i r' => i :: groups r'
  | _ => []
  end.

(** *** Matcher state *)

Record mstate : Type := MState {
  prev : option N;                 (* the code unit before the position *)
  rest : jstring;                  (* the input from the position on *)
  caps : list (nat * jstring)      (* captures, latest first *)
}.

Definition advance (st : mstate) (x : N) (tl : jstring) : mstate :=
  {| prev := Some x; rest := tl; caps := caps st |}.

Fixpoint lookup (i : nat) (cs : list (nat * jstring)) : option jstring :=
  match cs with
  | [] => None
  | (j, w) :: cs' => if Nat.eqb i j then Some w else lookup i cs'
  end.

Definition clear_caps (gs : list nat) (st : mstate) : mstate :=
  {| prev := prev st; rest := rest st;
     caps := filter (fun p => negb (existsb (Nat.eqb (fst p)) gs)) (caps st) |}.

(** The text consumed between two positions of one scan. *)
Definition between (st st1 : mstate) : jstring :=
  firstn (length (rest st) - length (rest st1)) (rest st).

Definition set_cap (i : nat) (st st1 : mstate) : mstate :=
  {| prev := prev st1; rest := rest st1;
     caps := (i, between st st1) :: caps st1 |}.

Section Matcher.

(** The [i] (ignore case) and [m] (multiline) flags. *)
Variables (ci ml : bool).

(** Canonicalize: with [i], code units are compared after upper-casing.
    A non-ASCII unit never canonicalizes to an ASCII one, and every
    letter in the parser's patterns is ASCII, so ASCII folding is exact. *)
Definition canon (c : N) : N := if ci then upper1 c else c.

Definition chr_eq (c x : N) : bool := (canon c =? canon x)%N.

Definition in_range (lo hi x : N) : bool := ((lo <=? x) && (x <=? hi))%N.

Definition item_match (it : citem) (x : N) : bool :=
  match it with
  | CChar c => chr_eq c x
  | CRange lo hi =>
      in_range lo hi x
      || (ci && (in_range lo hi (upper1 x) || in_range lo hi (lower1 x)))
  | CDigit => is_digit x
  | CWord => is_word x
  | CSpace => is_space x
  | CNotDigit => negb (is_digit x)
  | CNotWord => negb (is_word x)
  | CNotSpace => negb (is_space x)
  end.

Definition class_match (neg : bool) (items : list citem) (x : N) : bool :=
  xorb neg (existsb (fun it => item_match it x) items).

Definition at_bol (st : mstate) : bool :=
  match prev st with
  | None => true
  | Some c => ml && is_line_term c
  end.

Definition at_eol (st : mstate) : bool :=
  match rest st with
  | [] => true
  | c :: _ => ml && is_line_term c
  end.

Definition word_before (st : mstate) : bool :=
  match prev st with Some c => is_word c | None => false end.

Definition word_after (st : mstate) : bool :=
  match rest st with c :: _ => is_word c | [] => false end.

Definition at_wordb (st : mstate) : bool :=
  xorb (word_before st) (word_after st).

Definition one (p : N -> bool) (k : mstate -> option mstate) (st : mstate)
  : option mstate :=
  match rest st with
  | x :: tl => if p x then k (advance st x tl) else None
  | [] => None
  end.

Definition is_zero (mx : option nat) : bool :=
  match mx with Some O => true | _ => false end.

Definition same_pos (a b : mstate) : bool :=
  Nat.eqb (length (rest a)) (length (rest b)).

(** One level of the RepeatMatcher, the body matcher [mr] given.  An
    iteration that consumes nothing once the minimum is reached is
    rejected, so [mn + length (rest st)] iterations are the most that can
    happen. *)
Fixpoint repeat (mr : (mstate -> option mstate) -> mstate -> option mstate)
    (gs : list nat) (greedy : bool) (k : mstate -> option mstate)
    (fuel mn : nat) (mx : option nat) (st : mstate) {struct fuel}
  : option mstate :=
  match fuel with
  | O => None
  | S fuel' =>
      if is_zero mx then k st
      else
        let d := fun st1 =>
          if Nat.eqb mn 0 && same_pos st1 st then None
          else repeat mr gs greedy k fuel' (Nat.pred mn)
                      (option_map Nat.pred mx) st1 in
        let st0 := clear_caps gs st in
        if negb (Nat.eqb mn 0) then mr d st0
        else if greedy then
          match mr d st0 with
          | Some y => Some y
          | None => k st
          end
        else
          match k st with
          | Some y => Some y
          | None => mr d st0
          end
  end.

(** The matcher, in continuation-passing style: [m r k st] matches [r] at
    [st] and hands every end state to [k], in the order the language tries
    them, until [k] accepts one. *)
Fixpoint m (r : regex) (k : mstate -> option mstate) (st : mstate)
  : option mstate :=
  match r with
  | Empty => k st
  | Chr c => one (chr_eq c) k st
  | Any => one (fun x => negb (is_line_term x)) k st
  | Class neg items => one (class_match neg items) k st
  | Seq a b => m a (m b k) st
  | Alt a b =>
      match m a k st with
      | Some y => Some y
      | None => m b k st
      end
  | Rep mn mx greedy r' =>
      repeat (m r') (groups r') greedy k (mn + length (rest st) + 1) mn mx st
  | Group i r' => m r' (fun st1 => k (set_cap i st st1)) st
  | Bol => if at_bol st then k st else None
  | Eol => if at_eol st then k st else None
  | WordB => if at_wordb st then k st else None
  | NotWordB => if at_wordb st then None else k st
  | NegLook r' =>
      match m r' Some st with
      | Some _ => None
      | None => k st
      end
  | PosLook r' =>
      match m r' Some st with
      | Some st1 => k {| prev := prev st; rest := rest st; caps := caps st1 |}
      | None => None
      end
  end.

End Matcher.

(** *** Executing a pattern *)

(** A compiled pattern keeps its source text: the parser tests
    [regex.toString().includes(...)] to tell its labeled patterns. *)
Record RegExp : Type := MkRegExp {
  source : jstring;
  ast : regex;
  flag_i : bool;
  flag_m : bool;
  flag_g : bool
}.

(** A match: where it starts, the matched text, the captures. *)
Record mresult : Type := MResult {
  index : nat;
  m0 : jstring;
  mcaps : list (nat * jstring)
}.

Definition mend (r : mresult) : nat := index r + length (m0 r).

(** [match[i]] for [i >= 1]; [None] is [undefined]. *)
Definition grp_opt (r : mresult) (i : nat) : option jstring :=
  lookup i (mcaps r).

(** [match[i]] where the group takes part in every match of its pattern. *)
Definition grp (r : mresult) (i : nat) : jstring :=
  match grp_opt r i with Some w => w | None => [] end.

Definition match_here (re : RegExp) (p : option N) (s : jstring)
  : option mstate :=
  m (flag_i re) (flag_m re) (ast re) Some
    {| prev := p; rest := s; caps := [] |}.

(** The scan of RegExpBuiltinExec: try each start position in turn. *)
Fixpoint scan (re : RegExp) (p : option N) (s : jstring) (idx : nat)
  : option mresult :=
  match match_here re p s with
  | Some st' =>
      Some {| index := idx;
              m0 := firstn (length s - length (rest st')) s;
              mcaps := caps st' |}
  | None =>
      match s with
      | [] => None
      | x :: tl => scan re (Some x) tl (S idx)
      end
  end.

(** [exec_from re s i]: the match found when scanning [s] from index [i]. *)
Definition exec_from (re : RegExp) (s : jstring) (i : nat) : option mresult :=
  if length s <? i then None
  else scan re (last (map Some (firstn i s)) None) (skipn i s) i.

(** [s.match(re)] without [g], [re.exec(s)] on a fresh pattern. *)
Definition exec (re : RegExp) (s : jstring) : option mresult :=
  scan re None s 0.

Definition test (re : RegExp) (s : jstring) : bool :=
  match exec re s with Some _ => true | None => false end.

(** [re.toString().includes(w)]: the text is [/source/flags]. *)
Definition toString (re : RegExp) : jstring :=
  [47%N] ++ source re ++ [47%N]
  ++ (if flag_g re then [103%N] else [])
  ++ (if flag_i re then [105%N] else [])
  ++ (if flag_m re then [109%N] else []).

End Re.

(** *** Reading pattern sources

    Patterns are kept as the source text of the program's literals and read
    by a recursive-descent reader for the pattern grammar (disjunction,
    alternative, term, atom, class), in the order the language numbers
    capture groups. *)

Module ReRead.

Import Re.

Definition ch (a : ascii) : N := N_of_ascii a.

Inductive catom : Type :=
| AChar (c : N)
| ASet (it : citem).

Definition escape_atom (x : N) : catom :=
  if (x =? ch "d")%N then ASet CDigit
  else if (x =? ch "D")%N then ASet CNotDigit
  else if (x =? ch "w")%N then ASet CWord
  else if (x =? ch "W")%N then ASet CNotWord
  else if (x =? ch "s")%N then ASet CSpace
  else if (x =? ch "S")%N then ASet CNotSpace
  else if (x =? ch "n")%N then AChar 10
  else if (x =? ch "r")%N then AChar 13
  else if (x =? ch "t")%N then AChar 9
  else if (x =? ch "v")%N then AChar 11
  else if (x =? ch "f")%N then AChar 12
  else AChar x.

Definition item_of (a : catom) : citem :=
  match a with AChar c => CChar c | ASet it => it end.

Definition regex_of (a : catom) : regex :=
  match a with AChar c => Chr c | ASet it => Class false [it] end.

(** One class atom: a code unit or an escape ([\b] is backspace there). *)
Definition read_catom (s : jstring) : option (catom * jstring) :=
  match s with
  | [] => None
  | x :: r =>
      if (x =? ch "\")%N then
        match r with
        | y :: r' =>
            Some (if (y =? ch "b")%N then AChar 8 else escape_atom y, r')
        | [] => None
        end
      else Some (AChar x, r)
  end.

(** The items of a class up to its closing bracket.  [a-b] is a range when
    both ends are single code units; next to a class escape the dash stands
    for itself. *)
Fixpoint read_class (fuel : nat) (s : jstring) (acc : list citem)
  : option (list citem * jstring) :=
  match fuel with
  | O => None
  | S f =>
      match s with
      | [] => None
      | x :: r =>
          if (x =? ch "]")%N then Some (rev acc, r)
          else
            match read_catom s with
            | None => None
            | Some (a, s1) =>
                match s1 with
                | d :: y :: _ =>
                    if (d =? ch "-")%N && negb (y =? ch "]")%N then
                      match read_catom (tl s1) with
                      | Some (b, s3) =>
                          match a, b with
                          | AChar lo, AChar hi =>
                              read_class f s3 (CRange lo hi :: acc)
                          | _, _ =>
                              read_class f s3
                                (item_of b :: CChar (ch "-") :: item_of a :: acc)
                          end
                      | None => None
                      end
                    else read_class f s1 (item_of a :: acc)
                | _ => read_class f s1 (item_of a :: acc)
                end
            end
      end
  end.

Fixpoint read_num (s : jstring) (acc : option nat) : option nat * jstring :=
  match s with
  | x :: r =>
      if is_digit x then
        read_num r (Some (match acc with Some n => n * 10 | None => 0 end
                          + N.to_nat (x - 48)))
      else (acc, s)
  | [] => (acc, s)
  end.

(** A quantifier, if one starts here: bounds and what follows. *)
Definition read_bounds (s : jstring)
  : option (nat * option nat * jstring) :=
  match s with
  | x :: r =>
      if (x =? ch "*")%N then Some (0, None, r)
      else if (x =? ch "+")%N then Some (1, None, r)
      else if (x =? ch "?")%N then Some (0, Some 1, r)
      else if (x =? ch "{")%N then
        match read_num r None with
        | (Some n, y :: r1) =>
            if (y =? ch "}")%N then Some (n, Some n, r1)
            else if (y =? ch ",")%N then
              match read_num r1 None with
              | (None, z :: r2) =>
                  if (z =? ch "}")%N then Some (n, None, r2) else None
              | (Some k, z :: r2) =>
                  if (z =? ch "}")%N then Some (n, Some k, r2) else None
              | _ => None
              end
            else None
        | _ => None
        end
      else None
  | [] => None
  end.

Definition quantified (a : regex) (s : jstring) : regex * jstring :=
  match read_bounds s with
  | Some (mn, mx, r) =>
      match r with
      | q :: r' =>
          if (q =? ch "?")%N then (Rep mn mx false a, r')
          else (Rep mn mx true a, r)
      | [] => (Rep mn mx true a, r)
      end
  | None => (a, s)
  end.

Definition mk_seq (a b : regex) : regex :=
  match b with Empty => a | _ => Seq a b end.

Definition closing (s : jstring) : option jstring :=
  match s with
  | x :: r => if (x =? ch ")")%N then Some r else None
  | [] => None
  end.

(** Disjunction, alternative and term; [g] counts the capturing
    parentheses opened so far. *)
Fixpoint read_disj (fuel : nat) (s : jstring) (g : nat)
  : option (regex * jstring * nat) :=
  match fuel with
  | O => None
  | S f =>
      match read_seq f s g with
      | Some (a, s1, g1) =>
          match s1 with
          | x :: s2 =>
              if (x =? ch "|")%N then
                match read_disj f s2 g1 with
                | Some (b, s3, g2) => Some (Alt a b, s3, g2)
                | None => None
                end
              else Some (a, s1, g1)
          | [] => Some (a, s1, g1)
          end
      | None => None
      end
  end
with read_seq (fuel : nat) (s : jstring) (g : nat)
  : option (regex * jstring * nat) :=
  match fuel with
  | O => None
  | S f =>
      match s with
      | [] => Some (Empty, s, g)
      | x :: _ =>
          if (x =? ch "|")%N || (x =? ch ")")%N then Some (Empty, s, g)
          else
            match read_term f s g with
            | Some (a, s1, g1) =>
                match read_seq f s1 g1 with
                | Some (b, s2, g2) => Some (mk_seq a b, s2, g2)
                | None => None
                end
            | None => None
            end
      end
  end
with read_term (fuel : nat) (s : jstring) (g : nat)
  : option (regex * jstring * nat) :=
  match fuel with
  | O => None
  | S f =>
      match s with
      | [] => None
      | x :: r =>
          if (x =? ch "^")%N then Some (Bol, r, g)
          else if (x =? ch "$")%N then Some (Eol, r, g)
          else if (x =? ch ".")%N then
            let (a, s1) := quantified Any r in Some (a, s1, g)
          else if (x =? ch "\")%N then
            match r with
            | y :: r' =>
                if (y =? ch "b")%N then Some (WordB, r', g)
                else if (y =? ch "B")%N then Some (NotWordB, r', g)
                else
                  let (a, s1) := quantified (regex_of (escape_atom y)) r' in
                  Some (a, s1, g)
            | [] => None
            end
          else if (x =? ch "[")%N then
            let (neg, r0) :=
              match r with
              | y :: r' => if (y =? ch "^")%N then (true, r') else (false, r)
              | [] => (false, r)
              end in
            match read_class (S (length r0)) r0 [] with
            | Some (items, r1) =>
                let (a, s1) := quantified (Class neg items) r1 in
                Some (a, s1, g)
            | None => None
            end
          else if (x =? ch "(")%N then
            match r with
            | q :: k :: r' =>
                if (q =? ch "?")%N && (k =? ch ":")%N then
                  match read_disj f r' g with
                  | Some (a, s1, g1) =>
                      match closing s1 with
                      | Some s2 =>
                          let (b, s3) := quantified a s2 in Some (b, s3, g1)
                      | None => None
                      end
                  | None => None
                  end
                else if (q =? ch "?")%N && (k =? ch "!")%N then
                  match read_disj f r' g with
                  | Some (a, s1, g1) =>
                      match closing s1 with
                      | Some s2 => Some (NegLook a, s2, g1)
                      | None => None
                      end
                  | None => None
                  end
                else if (q =? ch "?")%N && (k =? ch "=")%N then
                  match read_disj f r' g with
                  | Some (a, s1, g1) =>
                      match closing s1 with
                      | Some s2 => Some (PosLook a, s2, g1)
                      | None => None
                      end
                  | None => None
                  end
                else
                  match read_disj f r (S g) with
                  | Some (a, s1, g1) =>
                      match closing s1 with
                      | Some s2 =>
                          let (b, s3) := quantified (Group (S g) a) s2 in
                          Some (b, s3, g1)
                      | None => None
                      end
                  | None => None
                  end
            | _ => None
            end
          else if (x =? ch "*")%N || (x =? ch "+")%N || (x =? ch "?")%N
          then None
          else
            let (a, s1) := quantified (Chr x) r in Some (a, s1, g)
      end
  end.

(** The whole source must be read; [None] is the SyntaxError. *)
Definition read (src : jstring) : option regex :=
  match read_disj (3 * length src + 3) src 0 with
  | Some (a, [], _) => Some a
  | _ => None
  end.

(** [new RegExp(src, flags)].  A source that cannot be read gives the
    pattern that matches nothing (the language raises a SyntaxError); the
    literals of the program are checked to read where they are written. *)
Definition make (src : jstring) (i m g : bool) : RegExp :=
  {| source := src;
     ast := match read src with Some a => a | None => Class false [] end;
     flag_i := i; flag_m := m; flag_g := g |}.

End ReRead.

Import Re.

(** Pattern literals: [/src/], [/src/i], [/src/g], ...  A literal is
    accepted only with the evidence that its source reads as a pattern,
    which the notations below supply by computation: a literal the reader
    did not understand would not type-check. *)
Definition reads (src : string) : bool :=
  match ReRead.read (str src) with Some _ => true | None => false end.

Definition literal (i m g : bool) (src : string) (ok : reads src = true)
  : RegExp := ReRead.make (str src) i m g.

Notation "'rx' s" := (literal false false false s eq_refl)
  (at level 9, s at level 0, only parsing).
Notation "'rx_i' s" := (literal true false false s eq_refl)
  (at level 9, s at level 0, only parsing).
Notation "'rx_g' s" := (literal false false true s eq_refl)
  (at level 9, s at level 0, only parsing).
Notation "'rx_gi' s" := (literal true false true s eq_refl)
  (at level 9, s at level 0, only parsing).
Notation "'rx_m' s" := (literal false true false s eq_refl)
  (at level 9, s at level 0, only parsing).
Notation "'rx_gm' s" := (literal false true true s eq_refl)
  (at level 9, s at level 0, only parsing).

(** *** String methods that take a pattern *)

Module ReStr.

(** [s.match(re)] with [g]: the matched texts, in order.  An empty match
    advances the scan by one.  (The language gives [null] for no match;
    the callers test it before iterating, which the empty list covers.) *)
Fixpoint match_all_go (fuel : nat) (re : RegExp) (s : jstring) (i : nat)
  : list jstring :=
  match fuel with
  | O => []
  | S f =>
      match exec_from re s i with
      | None => []
      | Some r =>
          m0 r :: match_all_go f re s
                    (match m0 r with [] => S (mend r) | _ => mend r end)
      end
  end.

Definition match_all (re : RegExp) (s : jstring) : list jstring :=
  match_all_go (S (length s)) re s 0.

(** [s.replace(re, f)]: the first match, or every match with [g]. *)
Fixpoint replace_go (fuel : nat) (re : RegExp) (f : mresult -> jstring)
    (s : jstring) (i : nat) : jstring :=
  match fuel with
  | O => skipn i s
  | S fl =>
      match exec_from re s i with
      | None => skipn i s
      | Some r =>
          firstn (index r - i) (skipn i s) ++ f r
          ++ (if flag_g re then
                match m0 r with
                | [] => firstn 1 (skipn (mend r) s)
                        ++ replace_go fl re f s (S (mend r))
                | _ => replace_go fl re f s (mend r)
                end
              else skipn (mend r) s)
      end
  end.

Definition replace_with (re : RegExp) (f : mresult -> jstring) (s : jstring)
  : jstring :=
  replace_go (S (length s)) re f s 0.

Definition replace (re : RegExp) (by_ : jstring) (s : jstring) : jstring :=
  replace_with re (fun _ => by_) s.

(** [s.split(re)] for a pattern without capture groups.  At each index
    [q] the separator is tried there and nowhere else; a match that ends
    where the pending piece starts is skipped. *)
Fixpoint split_go (fuel : nat) (re : RegExp) (p : option N) (s cur : jstring)
  : list jstring :=
  match fuel with
  | O => [rev cur ++ s]
  | S f =>
      match s with
      | [] => [rev cur]
      | x :: tl =>
          match match_here re p s with
          | Some st' =>
              if Nat.eqb (length (rest st')) (length s)
                 && negb (truthy cur)
              then split_go f re (Some x) tl (x :: cur)
              else rev cur :: split_go f re (prev st') (rest st') []
          | None => split_go f re (Some x) tl (x :: cur)
          end
      end
  end.

Definition split (re : RegExp) (s : jstring) : list jstring :=
  match s with
  | [] => match match_here re None [] with Some _ => [] | None => [[]] end
  | _ => split_go (2 * length s + 2) re None s []
  end.

(** [while ((mt = re.exec(s)) !== null) body], [re] with [g].  The body
    works on the match and the accumulated value; it gives back [Some i]
    when it leaves [re.lastIndex] at [i], and [None] when it leaves it
    where [exec] put it, at the end of the match.  [None] as a result: the
    loop is still running when the fuel is spent. *)
Fixpoint while_exec {A : Type} (fuel : nat) (re : RegExp) (s : jstring)
    (body : mresult -> A -> A * option nat) (lastIndex : nat) (acc : A)
  : option A :=
  match fuel with
  | O => None
  | S f =>
      match exec_from re s lastIndex with
      | None => Some acc
      | Some r =>
          let (acc', li) := body r acc in
          while_exec f re s body
            (match li with Some i => i | None => mend r end) acc'
      end
  end.

End ReStr.

(** ** The parser *)

Import ReStr.

(** [a || b] on strings, and on a value that may be [null]. *)
Definition or_str (a b : jstring) : jstring := if truthy a then a else b.

Definition or_null (a : option jstring) (b : jstring) : jstring :=
  match a with Some s => or_str s b | None => b end.

Definition nl : jstring := [10%N].

(** *** [extractSection] and [extractPattern] *)

(** Common section headers that might appear in resumes and academic CVs. *)
Definition commonHeaders : list jstring := map str
  [ "education"; "experience"; "skills"; "projects"; "certifications";
    "achievements"; "publications"; "references"; "interests"; "summary";
    "objective"; "profile"; "contact"; "personal"; "work history";
    "employment"; "qualifications"; "languages"; "awards"; "volunteer";
    "research"; "teaching"; "grants"; "funding"; "conferences"; "presentations";
    "professional activities"; "memberships"; "affiliations"; "service";
    "honors"; "distinctions"; "extracurricular"; "activities"; "leadership";
    "technical skills"; "soft skills"; "coursework"; "training"; "workshops" ]%string.

(** The seven header shapes, built from the header word as the template
    strings of the source build them (a line feed stands in the source text
    of the pattern where the template has one). *)
Definition headerPatterns (header : jstring) : list RegExp :=
  let mk := fun src => ReRead.make src true false false in
  [ (* Header with colon *)
    mk (str "\b" ++ header ++ str "\s*:\s*[^" ++ nl ++ str "]*" ++ nl);
    (* Header with underline *)
    mk (str "\b" ++ header ++ str "\b[^" ++ nl ++ str "]*" ++ nl
        ++ str "[-=]+" ++ nl);
    (* Header in all caps *)
    mk (str "\b" ++ toUpperCase header ++ str "\b[^" ++ nl ++ str "]*" ++ nl);
    (* Header with brackets or parentheses *)
    mk (str "\[\s*" ++ header ++ str "\s*\]|\(\s*" ++ header ++ str "\s*\)");
    (* Header with special formatting *)
    mk (str "\\section\{" ++ header ++ str "\}|\\subsection\{" ++ header
        ++ str "\}");
    (* Header with numbering *)
    mk (str "\d+\.\s*" ++ header ++ str "\b[^" ++ nl ++ str "]*" ++ nl);
    (* Standard header *)
    mk (str "\b" ++ header ++ str "\b[^" ++ nl ++ str "]*" ++ nl) ].

(** Try each pattern until one matches. *)
Fixpoint first_match (ps : list RegExp) (text : jstring) : option mresult :=
  match ps with
  | [] => None
  | p :: ps' =>
      match exec p text with
      | Some r => Some r
      | None => first_match ps' text
      end
  end.

(** The nearest following header among the common ones. *)
Definition section_end (text header : jstring) (startIndex : nat) : nat :=
  fold_left
    (fun endIndex nextHeader =>
       if Js.eqb nextHeader header then endIndex
       else
         match first_match (headerPatterns nextHeader)
                 (substringFrom text startIndex) with
         | Some nextMatch =>
             let nextHeaderIndex := startIndex + index nextMatch in
             if nextHeaderIndex <? endIndex then nextHeaderIndex else endIndex
         | None => endIndex
         end)
    commonHeaders (length text).

(** The loop over the synonyms; [n] is [sectionHeaders.length] and
    [sectionText] the variable the loop assigns. *)
Fixpoint extractSection_loop (text : jstring) (n : nat)
    (headers : list jstring) (sectionText : jstring) : jstring :=
  match headers with
  | [] => sectionText
  | header :: headers' =>
      match first_match (headerPatterns header) text with
      | Some mt =>
          let startIndex := index mt + length (m0 mt) in
          let endIndex := section_end text header startIndex in
          let sectionText' := trim (substring text startIndex endIndex) in
          (* If section is too short, it might be a false positive *)
          if (length sectionText' <? 10) && (1 <? n)
          then extractSection_loop text n headers' sectionText'
          else sectionText'
      | None => extractSection_loop text n headers' sectionText
      end
  end.

Definition extractSection (text : jstring) (sectionHeaders : list jstring)
  : jstring :=
  extractSection_loop text (length sectionHeaders) sectionHeaders [].

Definition extractPattern (text : jstring) (regex : RegExp) : jstring :=
  match exec regex text with
  | Some mt => trim (grp mt 1)
  | None => []
  end.

(** *** Education level *)

Definition educationLevelPatterns : list (jstring * RegExp) :=
  [ (str "Intermediate",
     rx_i "\b(?:intermediate|high school|secondary|12th|hsc)\b");
    (str "Graduate",
     rx_i "\b(?:graduate|bachelor'?s|bachelors|b\.?tech|b\.?e|b\.?sc|b\.?a|b\.?com)\b");
    (str "Post Graduate",
     rx_i "\b(?:post[\s-]?graduate|master'?s|masters|m\.?tech|m\.?e|m\.?sc|m\.?a|m\.?com|mba|pgdm|ph\.?d|doctorate)\b") ].

Fixpoint first_level (ps : list (jstring * RegExp)) (text : jstring)
  : option jstring :=
  match ps with
  | [] => None
  | (level, pattern) :: ps' =>
      if test pattern text then Some level else first_level ps' text
  end.

Definition extractEducationLevel (text : jstring) : jstring :=
  match first_level educationLevelPatterns text with
  | Some level => level
  | None =>
      let educationSection :=
        extractSection text
          (map str ["education"; "academic background";
                    "academic qualifications"]%string) in
      if truthy educationSection then
        match first_level educationLevelPatterns educationSection with
        | Some level => level
        | None => []
        end
      else []
  end.

(** *** Name *)

Record Name : Type := MkName {
  firstName : jstring;
  middleName : jstring;
  lastName : jstring
}.

Definition parseFullName (fullName : jstring) : Name :=
  let nameParts := split (rx "\s+") (trim fullName) in
  match nameParts with
  | [a] => {| firstName := a; middleName := []; lastName := [] |}
  | [a; b] => {| firstName := a; middleName := []; lastName := b |}
  | _ =>
      {| firstName := hd [] nameParts;
         middleName := join (str " ") (removelast (tl nameParts));
         lastName := last nameParts [] |}
  end.

Definition labeledNameRegex : RegExp :=
  rx_i "(?:\bname\s*:?\s*|\bfull\s+name\s*:?\s*|\bresume\s+of\s+|\bcv\s+of\s+)([A-Z][a-zA-Z'-]+(?:\s+[A-Z][a-zA-Z'-]+){1,3})".

Definition firstLineRegex : RegExp :=
  rx_m "^([A-Z][a-zA-Z'-]+(?:\s+[A-Z][a-zA-Z'-]+){1,3})$".

Definition contactNameRegex : RegExp :=
  rx "([A-Z][a-zA-Z'-]+(?:\s+[A-Z][a-zA-Z'-]+){1,3})\s*(?:\n|$)".

Definition fallbackRegex : RegExp :=
  rx "([A-Z][a-zA-Z'-]+)\s+(?:([A-Z][a-zA-Z'-]+)\s+)?([A-Z][a-zA-Z'-]+)".

Definition contactHeaders : list jstring :=
  map str ["contact"; "personal information"; "personal details"]%string.

Definition extractName_fallback (text : jstring) : Name :=
  match exec fallbackRegex text with
  | Some fallbackMatch =>
      {| firstName := or_null (grp_opt fallbackMatch 1) [];
         middleName := or_null (grp_opt fallbackMatch 2) [];
         lastName := or_null (grp_opt fallbackMatch 3)
                       (or_null (grp_opt fallbackMatch 2) []) |}
  | None => {| firstName := []; middleName := []; lastName := [] |}
  end.

Definition extractName (text : jstring) : Name :=
  (* First try to find explicitly labeled name *)
  match exec labeledNameRegex text with
  | Some labeledMatch => parseFullName (trim (grp labeledMatch 1))
  | None =>
      (* Look for name at the beginning of the document *)
      match exec firstLineRegex text with
      | Some firstLineMatch => parseFullName (trim (grp firstLineMatch 1))
      | None =>
          (* Look for name in contact section *)
          let contactSection := extractSection text contactHeaders in
          match (if truthy contactSection
                 then exec contactNameRegex contactSection else None) with
          | Some contactMatch => parseFullName (trim (grp contactMatch 1))
          | None => extractName_fallback text
          end
      end
  end.

(** *** Contact *)

Definition extractEmail (text : jstring) : option jstring :=
  match exec (rx "[a-zA-Z0-9._%+-]+@[a-zA-Z0-9.-]+\.[a-zA-Z]{2,}") text with
  | Some mt => Some (m0 mt)
  | None => None
  end.

(** [regex.toString().includes(label) ? match[1] : match[0]]. *)
Definition labeled_or_whole (regex : RegExp) (label : string) (mt : mresult)
  : jstring :=
  if includes (toString regex) (str label) then grp mt 1 else m0 mt.

Definition phoneRegexes : list RegExp :=
  [ rx_i "(?:phone|mobile|cell|contact|tel)\s*:?\s*((?:\+?\d{1,3}[-\.\s]?)?\(?\d{3}\)?[-\.\s]?\d{3}[-\.\s]?\d{4})";
    rx "(?:\+?\d{1,3}[-\.\s]?)?\(?\d{3}\)?[-\.\s]?\d{3}[-\.\s]?\d{4}" ].

Fixpoint extractPhone_loop (regexes : list RegExp) (text : jstring)
  : option jstring :=
  match regexes with
  | [] => None
  | regex :: regexes' =>
      match exec regex text with
      | Some mt => Some (labeled_or_whole regex "phone|mobile" mt)
      | None => extractPhone_loop regexes' text
      end
  end.

Definition extractPhone (text : jstring) : option jstring :=
  extractPhone_loop phoneRegexes text.

(** Ensure the URL has the https:// prefix. *)
Definition ensure_prefix (url : jstring) : jstring :=
  if negb (startsWith url (str "http")) then str "https://" ++ url else url.

(** The loop the URL extractors share: the first pattern that matches
    gives the URL. *)
Fixpoint url_loop (regexes : list RegExp) (label : string) (text : jstring)
  : option jstring :=
  match regexes with
  | [] => None
  | regex :: regexes' =>
      match exec regex text with
      | Some mt => Some (ensure_prefix (labeled_or_whole regex label mt))
      | None => url_loop regexes' label text
      end
  end.

Definition linkedinRegexes : list RegExp :=
  [ rx_i "(?:linkedin|profile|social)\s*:?\s*((?:https?:\/\/)?(?:www\.)?linkedin\.com\/in\/[\w-]+(?:\/[\w-]+)*)";
    rx "(?:https?:\/\/)?(?:www\.)?linkedin\.com\/in\/[\w-]+(?:\/[\w-]+)*" ].

Definition extractLinkedIn (text : jstring) : option jstring :=
  url_loop linkedinRegexes "linkedin|profile" text.

Definition githubRegexes : list RegExp :=
  [ rx_i "(?:github|git|repo|repository|code)\s*:?\s*((?:https?:\/\/)?(?:www\.)?github\.com\/[\w-]+(?:\/[\w-]+)*)";
    rx "(?:https?:\/\/)?(?:www\.)?github\.com\/[\w-]+(?:\/[\w-]+)*" ].

Definition extractGithubUrl (text : jstring) : option jstring :=
  url_loop githubRegexes "github|git|repo" text.

Definition portfolioLabeled : RegExp :=
  rx_i "(?:portfolio|website|personal site|web|homepage)\s*:?\s*((?:https?:\/\/)?(?:www\.)?[\w-]+\.[a-z]{2,}(?:\/[\w-\.\/?%&=]*)?)".

(** Then try to find URLs that aren't LinkedIn or GitHub. *)
Definition portfolioBare : RegExp :=
  rx "(?:https?:\/\/)?(?:www\.)?(?!linkedin\.com|github\.com)[\w-]+\.[a-z]{2,}(?:\/[\w-\.\/?%&=]*)?\/[\w-\.\/?%&=]*".

Definition portfolioRegexes : list RegExp := [portfolioLabeled; portfolioBare].

Definition extractPortfolioUrl (text : jstring) : option jstring :=
  url_loop portfolioRegexes "portfolio|website|personal" text.

Definition extractAddress (text : jstring) : option jstring :=
  let contactSection := extractSection text contactHeaders in
  if truthy contactSection then
    match exec (rx_i "(?:address|location|residence)\s*:?\s*([^\n]+)")
            contactSection with
    | Some mt => Some (trim (grp mt 1))
    | None =>
        match exec (rx "([A-Za-z\s]+),\s*([A-Za-z]{2})\s*(\d{5}(?:-\d{4})?)")
                contactSection with
        | Some cityStateMatch => Some (trim (m0 cityStateMatch))
        | None => None
        end
    end
  else None.

(** *** Education *)

Record Education : Type := MkEducation {
  e_collegeName : jstring;
  e_degree : jstring;
  e_universityName : jstring;
  e_specialization : jstring;
  e_graduationYear : jstring;
  e_cgpa : jstring;
  e_startYear : jstring;
  e_endYear : jstring;
  e_location : jstring
}.

(** [Number.prototype.toString] on an integer. *)
Fixpoint digits_of (fuel : nat) (n : N) (acc : jstring) : jstring :=
  match fuel with
  | O => acc
  | S f =>
      let acc' := (48 + n mod 10)%N :: acc in
      if (n / 10 =? 0)%N then acc' else digits_of f (n / 10)%N acc'
  end.

Definition number_toString (z : Z) : jstring :=
  if (z <? 0)%Z then 45%N :: digits_of (S (N.size_nat (Z.abs_N z))) (Z.abs_N z) []
  else digits_of (S (N.size_nat (Z.to_N z))) (Z.to_N z) [].

Definition is_open_end (w : jstring) : bool :=
  Js.eqb (toLowerCase w) (str "present")
  || Js.eqb (toLowerCase w) (str "current")
  || Js.eqb (toLowerCase w) (str "now").

Definition educationHeaders : list jstring := map str
  [ "education"; "academic background"; "academic qualifications";
    "educational qualifications"; "academic history"; "academic record";
    "academic profile" ]%string.

(** The first line that looks like an institution name. *)
Fixpoint institution_line (lines : list jstring) : option jstring :=
  match lines with
  | [] => None
  | line :: lines' =>
      if test (rx_i "degree|year|gpa|grade|score|major|field|specialization") line
      then institution_line lines'
      else
        match exec (rx "([A-Z][A-Za-z\s&,'.\-]+(?:University|College|Institute|School|Academy|Center|Centre))") line with
        | Some institutionMatch => Some (trim (grp institutionMatch 1))
        | None => institution_line lines'
        end
  end.

(** [now] is [new Date().getFullYear()]. *)
Definition extractEducation (now : Z) (text : jstring) : Education :=
  let educationSection := extractSection text educationHeaders in
  if negb (truthy educationSection) then
    MkEducation [] [] [] [] [] [] [] [] []
  else
    let collegeName := extractPattern educationSection
      (rx_i "(?:college|school|institute|institution)\s*:?\s*([^\n,]+)") in
    let degree := extractPattern educationSection
      (rx_i "(?:degree|qualification|program|course|diploma)\s*:?\s*([^\n,]+)") in
    let universityName := extractPattern educationSection
      (rx_i "(?:university|institute|academy|alma mater)\s*:?\s*([^\n,]+)") in
    let specialization := extractPattern educationSection
      (rx_i "(?:specialization|major|field|concentration|subject|discipline|focus)\s*:?\s*([^\n,]+)") in
    let graduationYear := extractPattern educationSection
      (rx_i "(?:year|graduated|graduation|completed|class of|completion|finished)\s*:?\s*([0-9]{4})") in
    let cgpa := extractPattern educationSection
      (rx_i "(?:cgpa|gpa|grade|score|percentage|marks)\s*:?\s*([0-9.]+%?)") in
    (* Extract date ranges for education *)
    let thisYear := number_toString now in
    let '(startYear, endYear, graduationYear) :=
      match exec (rx_i "((?:19|20)\d{2})\s*(?:-|to|–|—)\s*((?:19|20)\d{2}|present|current|now)")
              educationSection with
      | Some dateRangeMatch =>
          let endYear := if is_open_end (grp dateRangeMatch 2) then thisYear
                         else grp dateRangeMatch 2 in
          (grp dateRangeMatch 1, endYear,
           if negb (truthy graduationYear) && negb (Js.eqb endYear thisYear)
           then endYear else graduationYear)
      | None => ([], [], graduationYear)
      end in
    (* Extract location information *)
    let location := extractPattern educationSection
      (rx_i "(?:location|city|place|campus)\s*:?\s*([^\n,]+)") in
    let location :=
      if negb (truthy location) then
        match exec (rx "([A-Z][a-zA-Z\s]+,\s*[A-Z][a-zA-Z\s]+|[A-Z][a-zA-Z\s]+\s*\([A-Z][a-zA-Z\s]+\))")
                educationSection with
        | Some locationMatch => trim (grp locationMatch 1)
        | None => location
        end
      else location in
    let universityName :=
      if negb (truthy universityName) && truthy collegeName
      then collegeName else universityName in
    (* If no labeled patterns found, try to extract from general text *)
    let '(degree, specialization) :=
      if negb (truthy degree) then
        match exec (rx_i "\b(B\.?Tech|M\.?Tech|B\.?E|M\.?E|B\.?S|M\.?S|Ph\.?D|B\.?A|M\.?A|MBA|PGDM|Bachelor|Master|Doctorate|BSc|MSc|BBA|BCA|MCA|LLB|LLM|MD|MBBS)\b[^\n,]*(?:in|of)?\s*([^\n,]+)?")
                educationSection with
        | Some degreeMatch =>
            (trim (grp degreeMatch 1),
             match grp_opt degreeMatch 2 with
             | Some w => if truthy w then trim w else specialization
             | None => specialization
             end)
        | None => (degree, specialization)
        end
      else (degree, specialization) in
    (* Look for year patterns if not found earlier *)
    let graduationYear :=
      if negb (truthy graduationYear) then
        match exec (rx "\b(20\d{2}|19\d{2})\b") educationSection with
        | Some yearMatch => grp yearMatch 1
        | None => graduationYear
        end
      else graduationYear in
    (* Look for university/college names if not found earlier *)
    let universityName :=
      if negb (truthy universityName) && negb (truthy collegeName) then
        match institution_line (Js.split educationSection nl) with
        | Some w => w
        | None => universityName
        end
      else universityName in
    {| e_collegeName := collegeName; e_degree := degree;
       e_universityName := universityName; e_specialization := specialization;
       e_graduationYear := graduationYear; e_cgpa := cgpa;
       e_startYear := startYear; e_endYear := endYear;
       e_location := location |}.

(** *** Skills *)

(** [if (x && !list.includes(x)) list.push(x)], with a further test [ok]. *)
Definition push_new (ok : jstring -> bool) (l : list jstring) (x : jstring)
  : list jstring :=
  if truthy x && negb (mem x l) && ok x then l ++ [x] else l.

Definition bulletRegex : RegExp := rx_g "(?:•|-|\*|\+)\s*([^•\-\*\+\n]+)".
Definition bulletLead : RegExp := rx "^[•\-\*\+\s]+".
Definition commaRegex : RegExp := rx_g "([^,\n]+(?:,\s*|$))".

(** Pattern 1: skills listed with bullets or dashes. *)
Definition bulleted (section : jstring) (l : list jstring) : list jstring :=
  fold_left
    (fun l skill => push_new (fun _ => true) l (trim (replace bulletLead [] skill)))
    (match_all bulletRegex section) l.

(** Pattern 2: skills separated by commas. *)
Definition comma_separated (section : jstring) (l : list jstring)
  : list jstring :=
  fold_left
    (fun l skill =>
       push_new (fun c => length c <? 50) l (trim (replace (rx ",$") [] skill)))
    (match_all commaRegex section) l.

Definition skillsHeaders : list jstring := map str
  [ "skills"; "technical skills"; "core competencies"; "key skills";
    "professional skills"; "expertise"; "proficiencies"; "qualifications" ]%string.

Definition extractSkills (text : jstring) : jstring :=
  let skillsSection := extractSection text skillsHeaders in
  if negb (truthy skillsSection) then []
  else
    let skills := bulleted skillsSection [] in
    let skills := comma_separated skillsSection skills in
    (* Pattern 3: skills on separate lines *)
    let skills :=
      fold_left
        (fun l line =>
           push_new
             (fun c => negb (includes (toLowerCase c) (str "skill"))
                       && (length c <? 50))
             l (trim line))
        (Js.split skillsSection nl) skills in
    join (str ", ") (dedup skills).

Definition technicalHeaders : list jstring := map str
  [ "technical skills"; "technical expertise"; "technical proficiencies";
    "programming languages"; "technologies"; "tools"; "software"; "frameworks";
    "development skills"; "computer skills"; "technical competencies";
    "computational skills"; "digital skills"; "it skills"; "coding skills";
    "programming skills"; "technical tools"; "development tools" ]%string.

(** Pattern 2 of the technical skills: lines and categories.  The state is
    the list and [currentCategory]. *)
Definition technical_line (st : list jstring * jstring) (line : jstring)
  : list jstring * jstring :=
  let (technicalSkills, currentCategory) := st in
  let cleanedLine := trim line in
  if endsWith cleanedLine (str ":") || endsWith cleanedLine (str "-") then
    (technicalSkills, trim (replace (rx "[:|-]$") [] cleanedLine))
  else if truthy cleanedLine && (length cleanedLine <? 100) then
    let lineSkills :=
      filter truthy (map trim (split (rx ",|;") cleanedLine)) in
    if 0 <? length lineSkills then
      if truthy currentCategory then
        (technicalSkills
           ++ [currentCategory ++ str ": " ++ join (str ", ") lineSkills], [])
      else
        (fold_left
           (fun l skill => if negb (mem skill l) then l ++ [skill] else l)
           lineSkills technicalSkills, currentCategory)
    else st
  else st.

Definition proficiencyPattern : RegExp :=
  rx_gi "(\w+(?:\s+\w+)*)\s*[-–:]\s*(beginner|intermediate|advanced|expert|proficient|fluent|native|basic|working knowledge|professional)".

Definition commonTechPattern : RegExp :=
  rx_gi "\b(java|python|javascript|js|typescript|ts|c\+\+|c#|ruby|php|swift|kotlin|go|rust|html|css|sql|nosql|react|angular|vue|node|express|django|flask|spring|docker|kubernetes|aws|azure|gcp|git|github|gitlab|bitbucket|jira|agile|scrum|machine learning|ml|ai|data science|blockchain)\b".

(** [foundTech.add(x)] on an insertion-ordered set. *)
Definition set_add (l : list jstring) (x : jstring) : list jstring :=
  if mem x l then l else l ++ [x].

(** Patterns 1 to 3, run on the located section. *)
Definition technical_in_section (fuel : nat) (technicalSection : jstring)
  : option (list jstring) :=
  let technicalSkills := bulleted technicalSection [] in
  let technicalSkills :=
    fst (fold_left technical_line (Js.split technicalSection nl)
           (technicalSkills, [])) in
  while_exec fuel proficiencyPattern technicalSection
    (fun proficiencyMatch l =>
       let skill := trim (grp proficiencyMatch 1) in
       let level := trim (grp proficiencyMatch 2) in
       (if truthy skill && truthy level
           && negb (mem (skill ++ str " - " ++ level) l)
        then l ++ [skill ++ str " - " ++ level] else l, None))
    0 technicalSkills.

(** Pattern 4: the common programming languages and technologies found
    in the whole text. *)
Definition common_tech (fuel : nat) (text : jstring)
  : option (list jstring) :=
  while_exec fuel commonTechPattern text
    (fun techMatch foundTech =>
       (set_add foundTech (toLowerCase (trim (m0 techMatch))), None))
    0 [].

Definition extractTechnicalSkills (fuel : nat) (text : jstring)
  : option jstring :=
  let technicalSection := extractSection text technicalHeaders in
  if negb (truthy technicalSection) then Some []
  else
    match technical_in_section fuel technicalSection with
    | None => None
    | Some technicalSkills =>
        if Nat.eqb (length technicalSkills) 0 then
          match common_tech fuel text with
          | None => None
          | Some foundTech => Some (join nl (technicalSkills ++ foundTech))
          end
        else Some (join nl technicalSkills)
    end.

Definition commonSoftSkills : list jstring := map str
  [ "communication"; "teamwork"; "leadership"; "problem solving";
    "critical thinking"; "adaptability"; "flexibility"; "time management";
    "organization"; "creativity"; "interpersonal"; "negotiation";
    "conflict resolution"; "decision making"; "emotional intelligence";
    "attention to detail"; "analytical"; "presentation"; "public speaking";
    "writing"; "collaboration"; "team player"; "self-motivated"; "proactive";
    "initiative"; "multitasking"; "planning"; "prioritization";
    "customer service"; "client relations" ]%string.

(** [new RegExp(`\\b${w}\\b`, 'i')]. *)
Definition word_regex (w : jstring) : RegExp :=
  ReRead.make (str "\b" ++ w ++ str "\b") true false false.

Definition extractSoftSkillsFromText (text : jstring) : jstring :=
  let softSkills := bulleted text [] in
  let softSkills := comma_separated text softSkills in
  let softSkills :=
    if Nat.eqb (length softSkills) 0 then
      fold_left
        (fun l skill => if test (word_regex skill) text then l ++ [skill] else l)
        commonSoftSkills softSkills
    else softSkills in
  join (str ", ") (dedup softSkills).

Definition softHeaders : list jstring := map str
  [ "soft skills"; "interpersonal skills"; "personal skills";
    "professional skills"; "transferable skills"; "core competencies";
    "strengths"; "attributes"; "personal attributes"; "personal qualities";
    "key competencies"; "communication skills"; "leadership skills";
    "management skills"; "people skills"; "teamwork skills" ]%string.

Definition extractSoftSkills (text : jstring) : jstring :=
  let softSkillsSection := extractSection text softHeaders in
  if negb (truthy softSkillsSection) then
    let summarySection :=
      extractSection text
        (map str ["summary"; "profile"; "about me"; "professional summary";
                  "career objective"]%string) in
    if truthy summarySection then extractSoftSkillsFromText summarySection
    else []
  else extractSoftSkillsFromText softSkillsSection.

Definition languagesHeaders : list jstring := map str
  [ "languages"; "language skills"; "language proficiency";
    "linguistic skills"; "foreign languages"; "spoken languages";
    "language competencies"; "multilingual skills";
    "language qualifications"; "language certificates" ]%string.

Definition commonLanguages : list jstring := map str
  [ "English"; "Spanish"; "French"; "German"; "Chinese"; "Japanese";
    "Arabic"; "Russian"; "Portuguese"; "Italian" ]%string.

Definition cefrPattern : RegExp :=
  rx_gi "([A-Za-z]+(?:\s+[A-Za-z]+)*)\s*[-:–]?\s*(?:CEFR)?\s*(A1|A2|B1|B2|C1|C2)".

Definition levelPattern : RegExp :=
  rx_gi "([A-Za-z]+(?:\s+[A-Za-z]+)*)\s*[-:–]?\s*(native|fluent|proficient|advanced|intermediate|beginner|basic|elementary|professional|working|limited)".

Definition extractLanguages (fuel : nat) (text : jstring) : option jstring :=
  let languagesSection := extractSection text languagesHeaders in
  if negb (truthy languagesSection) then Some []
  else
    (* Pattern 1: languages listed with bullets or dashes *)
    let languages := bulleted languagesSection [] in
    (* Pattern 2: languages on separate lines *)
    let languages :=
      fold_left
        (fun l line =>
           push_new
             (fun c => negb (includes (toLowerCase c) (str "language"))
                       && (length c <? 50))
             l (trim line))
        (Js.split languagesSection nl) languages in
    (* Pattern 3: languages with proficiency levels *)
    let languages :=
      fold_left
        (fun l lang => if negb (mem (trim lang) l) then l ++ [trim lang] else l)
        (match_all (rx_g "([A-Za-z]+(?:\s+[A-Za-z]+)*)\s*[-:–]\s*([A-Za-z\s]+)")
           languagesSection)
        languages in
    (* Pattern 4: CEFR levels *)
    match while_exec fuel cefrPattern languagesSection
            (fun cefrMatch l =>
               let formattedLang :=
                 trim (grp cefrMatch 1) ++ str " - "
                 ++ toUpperCase (grp cefrMatch 2) in
               (if negb (mem formattedLang l) then l ++ [formattedLang] else l,
                None))
            0 languages with
    | None => None
    | Some languages =>
        (* Pattern 5: level descriptors *)
        match while_exec fuel levelPattern languagesSection
                (fun levelMatch l =>
                   let formattedLang :=
                     trim (grp levelMatch 1) ++ str " - "
                     ++ trim (grp levelMatch 2) in
                   (if negb (mem formattedLang l) then l ++ [formattedLang]
                    else l, None))
                0 languages with
        | None => None
        | Some languages =>
            (* Pattern 6: common languages if none found *)
            let languages :=
              if Nat.eqb (length languages) 0 then
                fold_left
                  (fun l lang =>
                     if test (word_regex lang) text then l ++ [lang] else l)
                  commonLanguages languages
              else languages in
            Some (join (str ", ") languages)
        end
    end.

(** *** Date ranges *)

Record DateRange : Type := MkDateRange {
  startDate : jstring;
  endDate : jstring
}.

Definition dateRangePatterns : list RegExp :=
  [ (* YYYY-YYYY or YYYY to YYYY or YYYY — YYYY *)
    rx_i "((?:19|20)\d{2})\s*(?:-|to|–|—)\s*((?:19|20)\d{2}|present|current|now)";
    (* Month YYYY - Month YYYY *)
    rx_i "((?:Jan|Feb|Mar|Apr|May|Jun|Jul|Aug|Sep|Oct|Nov|Dec|January|February|March|April|May|June|July|August|September|October|November|December)\s+(?:19|20)\d{2})\s*(?:-|to|–|—)\s*((?:Jan|Feb|Mar|Apr|May|Jun|Jul|Aug|Sep|Oct|Nov|Dec|January|February|March|April|May|June|July|August|September|October|November|December)\s+(?:19|20)\d{2}|present|current|now)";
    (* MM/YYYY - MM/YYYY *)
    rx_i "(\d{1,2}\/(?:19|20)\d{2})\s*(?:-|to|–|—)\s*(\d{1,2}\/(?:19|20)\d{2}|present|current|now)" ].

Fixpoint extractDateRange_loop (patterns : list RegExp) (text : jstring)
  : DateRange :=
  match patterns with
  | [] => {| startDate := []; endDate := [] |}
  | pattern :: patterns' =>
      match exec pattern text with
      | Some mt =>
          {| startDate := grp mt 1;
             endDate := if is_open_end (grp mt 2) then str "Present"
                        else grp mt 2 |}
      | None => extractDateRange_loop patterns' text
      end
  end.

Definition extractDateRange (text : jstring) : DateRange :=
  extractDateRange_loop dateRangePatterns text.

Definition escapeRegExp (s : jstring) : jstring :=
  replace_with (rx_g "[.*+?^${}()|[\]\\]") (fun mt => 92%N :: m0 mt) s.

(** *** Projects *)

Record Project : Type := MkProject {
  p_name : jstring;
  p_description : jstring;
  p_technologies : jstring;
  p_githubLink : jstring;
  p_liveLink : jstring;
  p_startDate : jstring;
  p_endDate : jstring;
  p_role : jstring
}.

Definition githubProjectRegexes : list RegExp :=
  [ rx_i "(?:github|repository|repo|source code|code)\s*:?\s*((?:https?:\/\/)?(?:www\.)?github\.com\/[\w-]+(?:\/[\w-]+)*)";
    rx "(?:https?:\/\/)?(?:www\.)?github\.com\/[\w-]+(?:\/[\w-]+)*" ].

Definition extractGithubProjectUrl (text : jstring) : option jstring :=
  url_loop githubProjectRegexes "github|repository|repo" text.

Definition liveRegexes : list RegExp :=
  [ rx_i "(?:live|demo|website|deployed|production|app|application|site|preview)\s*:?\s*((?:https?:\/\/)?(?:www\.)?[\w-]+\.[a-z]{2,}(?:\/[\w-\.\/?%&=]*)?)";
    rx "(?:https?:\/\/)?(?:www\.)?(?!github\.com)[\w-]+\.[a-z]{2,}(?:\/[\w-\.\/?%&=]*)?" ].

Definition extractLiveProjectUrl (text : jstring) : option jstring :=
  url_loop liveRegexes "live|demo|website" text.

Definition roleRegexes : list RegExp :=
  [ rx_i "(?:role|position|responsibility|title)\s*:?\s*([^\n,]+)";
    rx_i "(?:as|worked as)\s+(?:a|an)?\s+([^\n,\.]+)" ].

Fixpoint extractProjectRole_loop (regexes : list RegExp) (text : jstring)
  : option jstring :=
  match regexes with
  | [] => None
  | regex :: regexes' =>
      match exec regex text with
      | Some mt => Some (trim (grp mt 1))
      | None => extractProjectRole_loop regexes' text
      end
  end.

Definition extractProjectRole (text : jstring) : option jstring :=
  extractProjectRole_loop roleRegexes text.

(** The record every strategy pushes: name, description and technologies
    found by the strategy, links and role read from [block], dates from
    [dateRange]. *)
Definition mk_project (name description technologies block roleText : jstring)
    (dateRange : DateRange) : Project :=
  {| p_name := name;
     p_description := description;
     p_technologies := technologies;
     p_githubLink := or_null (extractGithubProjectUrl block) [];
     p_liveLink := or_null (extractLiveProjectUrl block) [];
     p_startDate := or_str (startDate dateRange) [];
     p_endDate := or_str (endDate dateRange) [];
     p_role := or_null (extractProjectRole roleText) [] |}.

Definition projectsHeaders : list jstring := map str
  [ "projects"; "personal projects"; "academic projects"; "portfolio";
    "work samples"; "research projects"; "key projects"; "notable projects";
    "selected projects"; "academic works"; "publications"; "implementations";
    "software projects" ]%string.

(** Pattern 1: project with title and description on separate lines. *)
Definition projectPattern1 : RegExp :=
  rx_gi "(?:project|application|portfolio item|publication)\s*:?\s*([^\n]+)\n([^\n]+)(?:[\s\S]*?(?:technology|tech stack|tools|languages|framework|library)\s*:?\s*([^\n]+))?".

Definition projects_pattern1 (fuel : nat) (projectsSection : jstring)
  : option (list Project) :=
  while_exec fuel projectPattern1 projectsSection
    (fun match1 projects =>
       (projects ++
          [mk_project (trim (grp match1 1)) (trim (grp match1 2))
             (match grp_opt match1 3 with
              | Some w => if truthy w then trim w else []
              | None => []
              end)
             (m0 match1) (m0 match1) (extractDateRange (m0 match1))],
        None))
    0 [].

(** Pattern 2: projects with bullet points. *)
Definition projectTitleRegex : RegExp := rx_g "[•\-*]\s*([A-Z][^\n:]+)(?::|\n)".

Definition techIndicators : list RegExp :=
  [ rx_i "(?:technology|tech stack|tools|languages|built with|developed using|implemented with|framework|library|technologies used)\s*:?\s*([^\n]+)";
    rx_i "using\s+([^\n.,]+(?:\s*,\s*[^\n.,]+)*)";
    rx_i "with\s+([^\n.,]+(?:\s*,\s*[^\n.,]+)*)" ].

(** The first indicator that matches gives [(description, technologies)]. *)
Fixpoint tech_split (indicators : list RegExp) (projectContent : jstring)
  : jstring * jstring :=
  match indicators with
  | [] => (projectContent, [])
  | indicator :: indicators' =>
      match exec indicator projectContent with
      | Some techMatch =>
          (trim (replace_str projectContent (m0 techMatch) []),
           trim (grp techMatch 1))
      | None => tech_split indicators' projectContent
      end
  end.

Definition projects_pattern2 (fuel : nat) (projectsSection : jstring)
  : option (list Project) :=
  while_exec fuel projectTitleRegex projectsSection
    (fun match2 projects =>
       let projectName := trim (grp match2 1) in
       let startIndex := index match2 + length (m0 match2) in
       let endIndex :=
         match indexOfFrom projectsSection (str "•") startIndex with
         | Some i => i
         | None => length projectsSection
         end in
       (* Look for the next project marker *)
       let endIndex :=
         match exec_from (rx_g "[•\-*]\s*[A-Z]") projectsSection startIndex with
         | Some nextMatch =>
             if index nextMatch <? endIndex then index nextMatch else endIndex
         | None => endIndex
         end in
       let projectContent :=
         trim (substring projectsSection startIndex endIndex) in
       let (description, technologies) :=
         tech_split techIndicators projectContent in
       (projects ++
          [mk_project projectName description technologies
             projectContent projectContent (extractDateRange projectContent)],
        None))
    0 [].

(** [lines.findIndex(test)]. *)
Fixpoint findIndex (f : jstring -> bool) (l : list jstring) (i : nat)
  : option nat :=
  match l with
  | [] => None
  | x :: l' => if f x then Some i else findIndex f l' (S i)
  end.

(** [lines.slice(a, b)]. *)
Definition slice (l : list jstring) (a b : nat) : list jstring :=
  firstn (b - a) (skipn a l).

(** Pattern 3: projects separated by blank lines. *)
Definition projects_block (projects : list Project) (block : jstring)
  : list Project :=
  if truthy (trim block) then
    let lines := Js.split block nl in
    if 2 <=? length lines then
      let projectName := trim (nth 0 lines []) in
      let techLineIndex :=
        findIndex
          (test (rx_i "(?:technology|tech stack|tools|languages|built with|developed using|implemented with|using|with|framework|library|technologies used)\s*:?"))
          lines 0 in
      let (description, technologies) :=
        match techLineIndex with
        | Some (S i) =>
            let techLine := nth (S i) lines [] in
            (trim (join (str " ") (slice lines 1 (S i))),
             match exec (rx "(?::|-)\s*(.+)$") techLine with
             | Some techMatch => trim (grp techMatch 1)
             | None => trim (replace (rx_i ".*?(?::|-)\s*") [] techLine)
             end)
        | _ => (trim (join (str " ") (skipn 1 lines)), [])
        end in
      projects ++
        [mk_project projectName description technologies block block
           (extractDateRange block)]
    else projects
  else projects.

Definition projects_pattern3 (projectsSection : jstring) : list Project :=
  fold_left projects_block (split (rx "\n\s*\n") projectsSection) [].

(** Pattern 4: projects with date ranges. *)
Definition dateProjectRegex : RegExp :=
  rx_gi "([A-Z][^\n]+)\s*\(\s*((?:Jan|Feb|Mar|Apr|May|Jun|Jul|Aug|Sep|Oct|Nov|Dec|January|February|March|April|May|June|July|August|September|October|November|December)\s*\d{4}\s*(?:-|–|—)\s*(?:Jan|Feb|Mar|Apr|May|Jun|Jul|Aug|Sep|Oct|Nov|Dec|January|February|March|April|May|June|July|August|September|October|November|December|Present|Current|Now)\s*\d{0,4})\s*\)".

Definition projectTechRegex : RegExp :=
  rx_i "(?:technology|tech stack|tools|languages|built with|developed using|implemented with|framework|library|technologies used)\s*:?\s*([^\n]+)".

(** The body of the loop.  It sets [dateProjectRegex.lastIndex] to
    [startIndex] and calls [exec] a second time to look for the next
    project: when that finds one, [lastIndex] is put back to [startIndex];
    when it finds none, [exec] has reset [lastIndex] to 0, and there it
    stays. *)
Definition projects_pattern4_body (projectsSection : jstring)
    (dateMatch : mresult) (projects : list Project)
  : list Project * option nat :=
  let projectName := trim (grp dateMatch 1) in
  let projectDate := trim (grp dateMatch 2) in
  let startIndex := index dateMatch + length (m0 dateMatch) in
  let nextMatch := exec_from dateProjectRegex projectsSection startIndex in
  let endIndex :=
    match nextMatch with
    | Some nx => index nx
    | None => length projectsSection
    end in
  let projectContent := trim (substring projectsSection startIndex endIndex) in
  let techMatch := exec projectTechRegex projectContent in
  let technologies :=
    match techMatch with Some t => trim (grp t 1) | None => [] end in
  let description :=
    trim (replace_str projectContent
            (match techMatch with Some t => m0 t | None => [] end) []) in
  (projects ++
     [mk_project projectName description technologies projectContent
        projectContent (extractDateRange projectDate)],
   Some (match nextMatch with Some _ => startIndex | None => 0 end)).

Definition projects_pattern4 (fuel : nat) (projectsSection : jstring)
  : option (list Project) :=
  while_exec fuel dateProjectRegex projectsSection
    (projects_pattern4_body projectsSection) 0 [].

(** The four strategies in order, each tried while nothing was found. *)
Definition projects_in_section (fuel : nat) (projectsSection : jstring)
  : option (list Project) :=
  match projects_pattern1 fuel projectsSection with
  | None => None
  | Some projects =>
      match (if Nat.eqb (length projects) 0
             then projects_pattern2 fuel projectsSection
             else Some projects) with
      | None => None
      | Some projects =>
          let projects :=
            if Nat.eqb (length projects) 0
            then projects_pattern3 projectsSection else projects in
          if Nat.eqb (length projects) 0
          then projects_pattern4 fuel projectsSection
          else Some projects
      end
  end.

(** If no projects found, add a default one. *)
Definition placeholderProject : Project :=
  {| p_name := str "Project";
     p_description := str "Please add your project description here";
     p_technologies := []; p_githubLink := []; p_liveLink := [];
     p_startDate := []; p_endDate := []; p_role := [] |}.

Definition extractProjects (fuel : nat) (text : jstring)
  : option (list Project) :=
  let projectsSection := extractSection text projectsHeaders in
  match (if truthy projectsSection
         then projects_in_section fuel projectsSection else Some []) with
  | None => None
  | Some projects =>
      if Nat.eqb (length projects) 0 then Some [placeholderProject]
      else Some projects
  end.

(** *** Work experience *)

Record WorkExperience : Type := MkWorkExperience {
  w_company : jstring;
  w_position : jstring;
  w_startDate : jstring;
  w_endDate : jstring;
  w_duration : option jstring;     (* only the first strategy sets it *)
  w_location : jstring;
  w_description : jstring;
  w_responsibilities : jstring;
  w_achievements : jstring
}.

Definition experienceHeaders : list jstring := map str
  [ "experience"; "work experience"; "employment history";
    "professional experience"; "work history"; "career history";
    "professional background"; "employment record"; "job history";
    "professional appointments"; "academic positions"; "teaching experience";
    "research experience"; "industry experience" ]%string.

Definition respRegex : RegExp :=
  rx_i "(?:responsibilities|duties|tasks|key responsibilities)\s*:?\s*([^\n]+(?:\n[^\n]+)*)".

Definition achieveRegex : RegExp :=
  rx_i "(?:achievements|accomplishments|key achievements|results)\s*:?\s*([^\n]+(?:\n[^\n]+)*)".

Definition blockLocationRegex : RegExp :=
  rx_i "(?:,\s*|\n|\s+at\s+|\s+in\s+)([A-Z][a-zA-Z\s,]+)(?:\.|\n|$)".

Definition bulletPointRegex : RegExp := rx_g "[•\-*]\s*([^\n•\-*]+)".
Definition lineBulletRegex : RegExp := rx_gm "^[•\-*]\s*".

(** [new RegExp(src, 'i')].  The sources built below are literals joined
    with escaped text or with text made of letters, digits, white space,
    commas and slashes, which always read as patterns. *)
Definition dyn_i (src : jstring) : RegExp := ReRead.make src true false false.

(** Responsibilities: the labeled block ([withBullets] off), or else the
    bullet points of the block. *)
Definition responsibilities_of (block : jstring) : option mresult * jstring :=
  match exec respRegex block with
  | Some respMatch => (Some respMatch, trim (grp respMatch 1))
  | None =>
      (None,
       join nl
         (map (fun point => trim (replace (rx "^[•\-*]\s*") [] point))
            (match_all bulletPointRegex block)))
  end.

(** If there are responsibilities from bullet points but no description,
    the first bullet becomes the description. *)
Definition first_bullet_fix (description responsibilities : jstring)
  : jstring * jstring :=
  if negb (truthy description) && truthy responsibilities then
    let firstBullet := nth 0 (Js.split responsibilities nl) [] in
    if truthy firstBullet then
      (firstBullet, trim (replace_str responsibilities firstBullet []))
    else (description, responsibilities)
  else (description, responsibilities).

(** Pattern 1: company with labeled format. *)
Definition companyLabeledRegex : RegExp :=
  rx_gi "(?:company|employer|organization|firm|institution|university|college)\s*:?\s*([^\n]+)".

Definition work_pattern1_body (experienceSection : jstring) (match1 : mresult)
    (workExperiences : list WorkExperience)
  : list WorkExperience * option nat :=
  let company := trim (grp match1 1) in
  let startIndex := index match1 + length (m0 match1) in
  let endIndex :=
    match indexOfFrom experienceSection (str "company") startIndex with
    | Some i => i
    | None => length experienceSection
    end in
  let experienceBlock :=
    trim (substring experienceSection startIndex endIndex) in
  let position := extractPattern experienceBlock
    (rx_i "(?:position|title|role|designation|job title)\s*:?\s*([^\n,]+)") in
  let duration := extractPattern experienceBlock
    (rx_i "(?:duration|period|timeframe)\s*:?\s*([^\n,]+)") in
  let location := extractPattern experienceBlock
    (rx_i "(?:location|place|city|site|address)\s*:?\s*([^\n,]+)") in
  let dateRange := extractDateRange experienceBlock in
  let respMatch := exec respRegex experienceBlock in
  let responsibilities :=
    match respMatch with Some r => trim (grp r 1) | None => [] end in
  let achieveMatch := exec achieveRegex experienceBlock in
  let achievements :=
    match achieveMatch with Some r => trim (grp r 1) | None => [] end in
  (* Remove the extracted metadata from description *)
  let description := experienceBlock in
  let description :=
    if truthy position then
      replace (dyn_i (str "(?:position|title|role|designation|job title)\s*:?\s*"
                      ++ escapeRegExp position)) [] description
    else description in
  let description :=
    if truthy duration then
      replace (dyn_i (str "(?:duration|period|timeframe)\s*:?\s*"
                      ++ escapeRegExp duration)) [] description
    else description in
  let description :=
    if truthy location then
      replace (dyn_i (str "(?:location|place|city|site|address)\s*:?\s*"
                      ++ escapeRegExp location)) [] description
    else description in
  let description :=
    if truthy (startDate dateRange) || truthy (endDate dateRange) then
      replace (dyn_i (startDate dateRange ++ str "\s*(?:-|to|–|—)\s*"
                      ++ or_str (endDate dateRange) (str "present|current|now")))
        [] description
    else description in
  let description :=
    match respMatch with
    | Some r => replace_str description (m0 r) []
    | None => description
    end in
  let description :=
    match achieveMatch with
    | Some r => replace_str description (m0 r) []
    | None => description
    end in
  (workExperiences ++
     [{| w_company := company;
         w_position := or_str position [];
         w_startDate := or_str (startDate dateRange) [];
         w_endDate := or_str (endDate dateRange) [];
         w_duration := Some (or_str duration []);
         w_location := or_str location [];
         w_description := trim description;
         w_responsibilities := or_str responsibilities [];
         w_achievements := or_str achievements [] |}],
   None).

(** Pattern 2: companies with bullet points or dates. *)
Definition companyDateRegex : RegExp :=
  rx_g "[•\-*]?\s*([A-Z][^\n,]+)(?:[,\s]+|\s*\(|\s*-\s*)(?:[A-Za-z]+\s+)?(?:(?:19|20)\d{2}|(?:Jan|Feb|Mar|Apr|May|Jun|Jul|Aug|Sep|Oct|Nov|Dec|January|February|March|April|May|June|July|August|September|October|November|December))".

Definition nextCompanyMatchRegex : RegExp :=
  rx_g "[•\-*]?\s*[A-Z][^\n,]+(?:[,\s]+|\s*\(|\s*-\s*)(?:[A-Za-z]+\s+)?(?:(?:19|20)\d{2}|(?:Jan|Feb|Mar|Apr|May|Jun|Jul|Aug|Sep|Oct|Nov|Dec|January|February|March|April|May|June|July|August|September|October|November|December))".

Definition work_pattern2_body (experienceSection : jstring) (match2 : mresult)
    (workExperiences : list WorkExperience)
  : list WorkExperience * option nat :=
  let company := trim (grp match2 1) in
  let startIndex := index match2 + length (m0 match2) in
  let endIndex :=
    match exec_from nextCompanyMatchRegex experienceSection startIndex with
    | Some nextMatch => index nextMatch
    | None => length experienceSection
    end in
  let experienceBlock :=
    trim (substring experienceSection startIndex endIndex) in
  let position :=
    match exec (rx_i "^([^\n,]+?)(?:,|\n|\s{2,}|\s+at\s+|\s+in\s+)")
            experienceBlock with
    | Some positionMatch => trim (grp positionMatch 1)
    | None => []
    end in
  let dateRange := extractDateRange experienceBlock in
  let location :=
    match exec blockLocationRegex experienceBlock with
    | Some locationMatch => trim (grp locationMatch 1)
    | None => []
    end in
  let responsibilities := snd (responsibilities_of experienceBlock) in
  let achievements :=
    match exec achieveRegex experienceBlock with
    | Some r => trim (grp r 1)
    | None => []
    end in
  (* Everything after the first line or after metadata *)
  let description :=
    match indexOf experienceBlock nl with
    | Some firstLineEnd => trim (substringFrom experienceBlock firstLineEnd)
    | None =>
        if truthy position || truthy (startDate dateRange) || truthy location
        then
          match exec (dyn_i (str "^" ++ escapeRegExp position ++ str ".*?"
                             ++ startDate dateRange ++ str ".*?"
                             ++ endDate dateRange ++ str ".*?" ++ location))
                  experienceBlock with
          | Some metadataMatch =>
              trim (substringFrom experienceBlock (length (m0 metadataMatch)))
          | None => experienceBlock
          end
        else experienceBlock
    end in
  let description := trim (replace lineBulletRegex [] description) in
  let (description, responsibilities) :=
    first_bullet_fix description responsibilities in
  (workExperiences ++
     [{| w_company := company;
         w_position := or_str position [];
         w_startDate := or_str (startDate dateRange) [];
         w_endDate := or_str (endDate dateRange) [];
         w_duration := None;
         w_location := or_str location [];
         w_description := description;
         w_responsibilities := or_str responsibilities [];
         w_achievements := or_str achievements [] |}],
   None).

(** Pattern 3: experience blocks separated by blank lines. *)
Definition work_block (workExperiences : list WorkExperience) (block : jstring)
  : list WorkExperience :=
  if truthy (trim block) then
    let lines := Js.split block nl in
    if 2 <=? length lines then
      let firstLine := trim (nth 0 lines []) in
      (* "Position at Company" or "Company - Position" *)
      let (company, position) :=
        match exec (rx_i "(.+?)\s+(?:at|@)\s+(.+)") firstLine with
        | Some positionAtCompanyMatch =>
            (trim (grp positionAtCompanyMatch 2),
             trim (grp positionAtCompanyMatch 1))
        | None =>
            match exec (rx_i "(.+?)\s*[-–—]\s*(.+)") firstLine with
            | Some companyDashPositionMatch =>
                (trim (grp companyDashPositionMatch 1),
                 trim (grp companyDashPositionMatch 2))
            | None => (firstLine, [])
            end
        end in
      let dateRange := extractDateRange block in
      let location :=
        match exec blockLocationRegex block with
        | Some locationMatch => trim (grp locationMatch 1)
        | None => []
        end in
      let responsibilities := snd (responsibilities_of block) in
      let achievements :=
        match exec achieveRegex block with
        | Some r => trim (grp r 1)
        | None => []
        end in
      let description := trim (join nl (skipn 1 lines)) in
      let description := trim (replace lineBulletRegex [] description) in
      let (description, responsibilities) :=
        first_bullet_fix description responsibilities in
      workExperiences ++
        [{| w_company := company;
            w_position := or_str position [];
            w_startDate := or_str (startDate dateRange) [];
            w_endDate := or_str (endDate dateRange) [];
            w_duration := None;
            w_location := or_str location [];
            w_description := description;
            w_responsibilities := or_str responsibilities [];
            w_achievements := or_str achievements [] |}]
    else workExperiences
  else workExperiences.

Definition work_pattern3 (experienceSection : jstring) : list WorkExperience :=
  fold_left work_block (split (rx "\n\s*\n") experienceSection) [].

(** Pattern 4: academic CV format with teaching and research positions.
    The loop handles [lastIndex] as the fourth project strategy does. *)
Definition academicPositionRegex : RegExp :=
  rx_gi "(?:professor|lecturer|instructor|researcher|fellow|assistant|associate|adjunct|postdoc|post-doc|teaching assistant|research assistant)\s+(?:at|of|in)\s+([^\n,]+)".

Definition work_pattern4_body (experienceSection : jstring)
    (academicMatch : mresult) (workExperiences : list WorkExperience)
  : list WorkExperience * option nat :=
  let position :=
    trim (nth 0 (split (rx "\s+(?:at|of|in)\s+") (m0 academicMatch)) []) in
  let company := trim (grp academicMatch 1) in
  let startIndex := index academicMatch + length (m0 academicMatch) in
  let nextMatch := exec_from academicPositionRegex experienceSection startIndex in
  let endIndex :=
    match nextMatch with
    | Some nx => index nx
    | None => length experienceSection
    end in
  let experienceBlock :=
    trim (substring experienceSection startIndex endIndex) in
  let dateRange := extractDateRange experienceBlock in
  let location :=
    match exec blockLocationRegex experienceBlock with
    | Some locationMatch => trim (grp locationMatch 1)
    | None => []
    end in
  let description := trim (replace lineBulletRegex [] experienceBlock) in
  (workExperiences ++
     [{| w_company := company;
         w_position := position;
         w_startDate := or_str (startDate dateRange) [];
         w_endDate := or_str (endDate dateRange) [];
         w_duration := None;
         w_location := or_str location [];
         w_description := description;
         w_responsibilities := [];
         w_achievements := [] |}],
   Some (match nextMatch with Some _ => startIndex | None => 0 end)).

Definition work_in_section (fuel : nat) (experienceSection : jstring)
  : option (list WorkExperience) :=
  match while_exec fuel companyLabeledRegex experienceSection
          (work_pattern1_body experienceSection) 0 [] with
  | None => None
  | Some works =>
      match (if Nat.eqb (length works) 0
             then while_exec fuel companyDateRegex experienceSection
                    (work_pattern2_body experienceSection) 0 []
             else Some works) with
      | None => None
      | Some works =>
          let works :=
            if Nat.eqb (length works) 0
            then work_pattern3 experienceSection else works in
          if Nat.eqb (length works) 0
          then while_exec fuel academicPositionRegex experienceSection
                 (work_pattern4_body experienceSection) 0 []
          else Some works
      end
  end.

(** If no work experience found, add a default one. *)
Definition placeholderWork : WorkExperience :=
  {| w_company := []; w_position := []; w_startDate := []; w_endDate := [];
     w_duration := None; w_location := []; w_description := [];
     w_responsibilities := []; w_achievements := [] |}.

Definition extractWorkExperience (fuel : nat) (text : jstring)
  : option (list WorkExperience) :=
  let experienceSection := extractSection text experienceHeaders in
  match (if truthy experienceSection
         then work_in_section fuel experienceSection else Some []) with
  | None => None
  | Some works =>
      if Nat.eqb (length works) 0 then Some [placeholderWork] else Some works
  end.

(** *** Certifications and years of experience *)

Definition extractCertifications (text : jstring) : jstring :=
  let certificationsSection :=
    extractSection text
      (map str ["certifications"; "certificates"; "credentials"]%string) in
  if truthy certificationsSection then
    trim (replace (rx_gi "certifications|certificates|credentials") []
            certificationsSection)
  else [].

(** Negation, addition and subtraction of numbers, as on doubles: the
    sum of two whole numbers is the double nearest to their sum. *)
Definition num_opp (a : num) : num :=
  match a with
  | Num z => if (z =? 0)%Z then NegZero else Num (- z)
  | NegZero => Num 0
  | NaN => NaN
  | Infinity s => Infinity (negb s)
  end.

Definition num_add (a b : num) : num :=
  match a, b with
  | NaN, _ | _, NaN => NaN
  | Infinity s, Infinity s' => if Bool.eqb s s' then Infinity s else NaN
  | Infinity s, _ | _, Infinity s => Infinity s
  | NegZero, NegZero => NegZero
  | NegZero, Num y => Num y
  | Num x, NegZero => Num x
  | Num x, Num y => to_double (x + y)
  end.

Definition num_sub (a b : num) : num := num_add a (num_opp b).

(** [x || 0]: NaN, 0 and -0 are falsy. *)
Definition or_zero (a : num) : num :=
  match a with
  | Num z => Num z
  | NegZero | NaN => Num 0
  | Infinity s => Infinity s
  end.

Definition experienceRegex : RegExp :=
  rx_i "(\d+)\+?\s*(?:years|yrs)\s*(?:of)?\s*experience".

Definition yearRegex : RegExp :=
  rx_gi "(?:19|20)\d{2}\s*-\s*(?:19|20)\d{2}|(?:19|20)\d{2}\s*-\s*present".

Definition yearSep : RegExp := rx "\s*-\s*".

Definition experienceCalcHeaders : list jstring :=
  map str ["experience"; "work experience"; "employment history"]%string.

(** What one range adds: [endYear - startYear]. *)
Definition range_years (now : Z) (yearRange : jstring) : num :=
  let years := split yearSep yearRange in
  let startYear := parseInt (nth 0 years []) in
  let endYear :=
    if Js.eqb (toLowerCase (nth 1 years [])) (str "present") then Num now
    else parseInt (nth 1 years []) in
  num_sub endYear startYear.

(** [now] is [new Date().getFullYear()], a year between -271821 and
    275760. *)
Definition calculateExperience (now : Z) (fuel : nat) (text : jstring)
  : option num :=
  match exec experienceRegex text with
  | Some mt => Some (parseInt (grp mt 1))
  | None =>
      (* If no explicit mention, try to calculate from work history *)
      let experienceSection := extractSection text experienceCalcHeaders in
      match while_exec fuel yearRegex experienceSection
              (fun match2 totalYears =>
                 (num_add totalYears (range_years now (m0 match2)), None))
              0 (Num 0) with
      | None => None
      | Some totalYears => Some (or_zero totalYears)
      end
  end.

(** *** [extractInformation] *)

Record ParsedProfile : Type := MkParsedProfile {
  d_firstName : jstring;
  d_middleName : jstring;
  d_lastName : jstring;
  d_email : jstring;
  d_contactNumber : jstring;
  d_linkedinUrl : jstring;
  d_githubUrl : jstring;
  d_portfolioUrl : jstring;
  d_address : jstring;
  d_collegeName : jstring;
  d_degree : jstring;
  d_universityName : jstring;
  d_specialization : jstring;
  d_graduationYear : jstring;
  d_startYear : jstring;
  d_endYear : jstring;
  d_location : jstring;
  d_cgpa : jstring;
  d_skills : jstring;
  d_technicalSkills : jstring;
  d_softSkills : jstring;
  d_languages : jstring;
  d_projects : list Project;
  d_workExperiences : list WorkExperience;
  d_certifications : jstring;
  d_experience : num;
  d_educationLevel : jstring
}.

(** The source also splits the text into trimmed non-empty lines at this
    point and never uses them.  [None]: one of the loops does not end. *)
Definition extractInformation (now : Z) (fuel : nat) (text : jstring)
  : option ParsedProfile :=
  let nameInfo := extractName text in
  let educationInfo := extractEducation now text in
  match extractTechnicalSkills fuel text, extractLanguages fuel text,
        extractProjects fuel text, extractWorkExperience fuel text,
        calculateExperience now fuel text with
  | Some technicalSkills, Some languages, Some projects, Some works,
    Some experience =>
      Some
        {| d_firstName := or_str (firstName nameInfo) [];
           d_middleName := or_str (middleName nameInfo) [];
           d_lastName := or_str (lastName nameInfo) [];
           d_email := or_null (extractEmail text) [];
           d_contactNumber := or_null (extractPhone text) [];
           d_linkedinUrl :=
             or_null (extractLinkedIn text) (str "https://linkedin.com/in/");
           d_githubUrl := or_null (extractGithubUrl text) [];
           d_portfolioUrl := or_null (extractPortfolioUrl text) [];
           d_address := or_null (extractAddress text) [];
           d_collegeName := or_str (e_collegeName educationInfo) [];
           d_degree := or_str (e_degree educationInfo) [];
           d_universityName := or_str (e_universityName educationInfo) [];
           d_specialization := or_str (e_specialization educationInfo) [];
           d_graduationYear := or_str (e_graduationYear educationInfo) [];
           d_startYear := or_str (e_startYear educationInfo) [];
           d_endYear := or_str (e_endYear educationInfo) [];
           d_location := or_str (e_location educationInfo) [];
           d_cgpa := or_str (e_cgpa educationInfo) [];
           d_skills := extractSkills text;
           d_technicalSkills := or_str technicalSkills [];
           d_softSkills := or_str (extractSoftSkills text) [];
           d_languages := or_str languages [];
           d_projects := projects;
           d_workExperiences := works;
           d_certifications := or_str (extractCertifications text) [];
           d_experience := or_zero experience;
           d_educationLevel := or_str (extractEducationLevel text) [] |}
  | _, _, _, _, _ => None
  end.

(** ** Declarative matching

    [M r st st'] says that [r] can match from [st] to [st'].  It is defined
    by recursion on the pattern and is what the matcher is sound for; the
    order in which the matcher tries the alternatives is not part of it. *)

Module ReSpec.

Section Spec.

Variables (ci ml : bool).

Definition step (p : N -> bool) (st st' : mstate) : Prop :=
  exists x tl, rest st = x :: tl /\ p x = true /\ st' = advance st x tl.

(** Iterations of a quantifier: stop once the minimum is reached, stop when
    the maximum is used up, or do one more. *)
Inductive reps (R : mstate -> mstate -> Prop)
  : nat -> option nat -> mstate -> mstate -> Prop :=
| reps_stop : forall mx st, reps R 0 mx st st
| reps_max : forall mn st, reps R mn (Some 0) st st
| reps_step : forall mn mx st s1 s2,
    is_zero mx = false ->
    R st s1 ->
    reps R (Nat.pred mn) (option_map Nat.pred mx) s1 s2 ->
    reps R mn mx st s2.

Fixpoint M (r : regex) (st st' : mstate) : Prop :=
  match r with
  | Empty => st' = st
  | Chr c => step (chr_eq ci c) st st'
  | Any => step (fun x => negb (is_line_term x)) st st'
  | Class neg items => step (class_match ci neg items) st st'
  | Seq a b => exists s1, M a st s1 /\ M b s1 st'
  | Alt a b => M a st st' \/ M b st st'
  | Rep mn mx _ r' =>
      reps (fun s s' => M r' (clear_caps (groups r') s) s') mn mx st st'
  | Group i r' => exists s1, M r' st s1 /\ st' = set_cap i st s1
  | Bol => st' = st /\ at_bol ml st = true
  | Eol => st' = st /\ at_eol ml st = true
  | WordB => st' = st /\ at_wordb st = true
  | NotWordB => st' = st /\ at_wordb st = false
  | NegLook r' => st' = st /\ m ci ml r' Some st = None
  | PosLook r' =>
      exists s1, m ci ml r' Some st = Some s1
                 /\ st' = {| prev := prev st; rest := rest st; caps := caps s1 |}
  end.

End Spec.

(** The least number of code units a match of the pattern consumes. *)
Fixpoint min_len (r : regex) : nat :=
  match r with
  | Chr _ | Any | Class _ _ => 1
  | Seq a b => min_len a + min_len b
  | Alt a b => Nat.min (min_len a) (min_len b)
  | Rep mn mx _ r' =>
      match mx with
      | Some k => Nat.min mn k * min_len r'
      | None => mn * min_len r'
      end
  | Group _ r' => min_len r'
  | _ => 0
  end.

(** [cap_min i r = Some n]: every match of [r] leaves group [i] set, to a
    text of at least [n] code units. *)
Fixpoint cap_min (i : nat) (r : regex) : option nat :=
  match r with
  | Group j r' =>
      if Nat.eqb i j then Some (min_len r') else cap_min i r'
  | Seq a b =>
      match cap_min i b with
      | Some n => Some n
      | None => if existsb (Nat.eqb i) (groups b) then None else cap_min i a
      end
  | Alt a b =>
      match cap_min i a, cap_min i b with
      | Some n, Some k => Some (Nat.min n k)
      | _, _ => None
      end
  | _ => None
  end.

Definition start_state (p : option N) (s : jstring) : mstate :=
  {| prev := p; rest := s; caps := [] |}.

End ReSpec.

(** ** Notions used in the statements *)

Import ReSpec.

(** Does one of the patterns match the text? *)
Definition date_pattern_found (ps : list RegExp) (text : jstring) : bool :=
  existsb (fun p => test p text) ps.

(** The span the section locator extracts for a synonym matched by [mt]. *)
Definition section_span (text header : jstring) (mt : mresult) : jstring :=
  let startIndex := index mt + length (m0 mt) in
  trim (substring text startIndex (section_end text header startIndex)).

(** What one would expect of the record for the empty text: every string
    field empty. *)
Definition every_string_empty (d : ParsedProfile) : Prop :=
  d_firstName d = [] /\ d_middleName d = [] /\ d_lastName d = []
  /\ d_email d = [] /\ d_contactNumber d = [] /\ d_linkedinUrl d = []
  /\ d_githubUrl d = [] /\ d_portfolioUrl d = [] /\ d_address d = []
  /\ d_collegeName d = [] /\ d_degree d = [] /\ d_universityName d = []
  /\ d_specialization d = [] /\ d_graduationYear d = [] /\ d_startYear d = []
  /\ d_endYear d = [] /\ d_location d = [] /\ d_cgpa d = []
  /\ d_skills d = [] /\ d_technicalSkills d = [] /\ d_softSkills d = []
  /\ d_languages d = [] /\ d_certifications d = []
  /\ d_educationLevel d = [].

(** The record the parser builds for the empty text. *)
Definition defaultProfile : ParsedProfile :=
  {| d_firstName := []; d_middleName := []; d_lastName := [];
     d_email := []; d_contactNumber := [];
     d_linkedinUrl := str "https://linkedin.com/in/";
     d_githubUrl := []; d_portfolioUrl := []; d_address := [];
     d_collegeName := []; d_degree := []; d_universityName := [];
     d_specialization := []; d_graduationYear := []; d_startYear := [];
     d_endYear := []; d_location := []; d_cgpa := [];
     d_skills := []; d_technicalSkills := []; d_softSkills := [];
     d_languages := [];
     d_projects := [placeholderProject];
     d_workExperiences := [placeholderWork];
     d_certifications := []; d_experience := Num 0;
     d_educationLevel := [] |}.

(** The scan of the whole text for the common technology words, joined as
    [extractTechnicalSkills] joins its result. *)
Definition keyword_scan (fuel : nat) (text : jstring) : option jstring :=
  option_map (join nl) (common_tech fuel text).

(** The body of a loop that only gathers the matched texts. *)
Definition collect (r : mresult) (l : list jstring)
  : list jstring * option nat := (l ++ [m0 r], None).

(** The ranges the loop of [calculateExperience] finds in the section. *)
Definition found_ranges (fuel : nat) (section : jstring)
  : option (list jstring) :=
  while_exec fuel yearRegex section collect 0 [].

(** A range as it reads: the year its first four characters write, and
    the year its last four write, or the current year when it ends in a
    word. *)
Definition range_start (w : jstring) : Z := digits_val (firstn 4 w) 0.

Definition range_end (now : Z) (w : jstring) : Z :=
  if is_digit (last w 0%N) then digits_val (skipn (length w - 4) w) 0
  else now.

Definition range_span (now : Z) (w : jstring) : Z :=
  (range_end now w - range_start w)%Z.

Definition sum_spans (now : Z) (ranges : list jstring) : Z :=
  fold_right Z.add 0%Z (map (range_span now) ranges).

(** A number that is not below zero. *)
Definition nonneg (v : num) : Prop :=
  match v with
  | Num z => (0 <= z)%Z
  | NegZero => True
  | NaN => False
  | Infinity s => s = false
  end.

(** The rounding of an integer to a double by the Standard Library's
    specification of IEEE 754 binary64, to compare [to_double] with. *)
Definition spec_double (z : Z) : num :=
  match binary_normalize 53 1024 z 0 false with
  | S754_zero s => if s then NegZero else Num 0
  | S754_infinity s => Infinity s
  | S754_nan => NaN
  | S754_finite s m e =>
      Num ((if s then -1 else 1) * Z.shiftl (Zpos m) e)
  end.

(** Integers around the places where the rounding changes. *)
Definition rounding_samples : list Z :=
  [ 0; 1; 2018; 2 ^ 53 - 1; 2 ^ 53; 2 ^ 53 + 1; 2 ^ 53 + 2; 2 ^ 53 + 3;
    2 ^ 54 + 2; 2 ^ 54 + 6; 2 ^ 54 + 7; 10 ^ 22; 10 ^ 23; 10 ^ 30 + 1;
    2 ^ 100 + 2 ^ 47; 2 ^ 100 + 2 ^ 47 + 1; 3 * 2 ^ 99 + 2 ^ 47;
    2 ^ 1023; (2 ^ 53 - 1) * 2 ^ 971; (2 ^ 53 - 1) * 2 ^ 971 + 2 ^ 969;
    2 ^ 1024 - 2 ^ 970 - 1; 2 ^ 1024 - 2 ^ 970; 2 ^ 1024; 10 ^ 308;
    10 ^ 309 - 1; - 1; - (2 ^ 53 + 1); - (2 ^ 53 + 3); - (10 ^ 309) ]%Z.

(** *** Positions of a match *)

(** The state after [run] is consumed from [st], [tl] being what is left. *)
Definition after (st : mstate) (run tl : jstring) : mstate :=
  {| prev := last (map Some run) (prev st); rest := tl; caps := caps st |}.

(** [tl] does not start with a code unit that satisfies [p]. *)
Definition stops (p : N -> bool) (tl : jstring) : bool :=
  match tl with
  | [] => true
  | c :: _ => negb (p c)
  end.

(** *** Analyses of a pattern *)

(** The code units [lo] to [hi]. *)
Definition units (lo hi : N) : list N :=
  map N.of_nat (seq (N.to_nat lo) (S (N.to_nat hi) - N.to_nat lo)).

(** The white space of the language ([is_space]), listed. *)
Definition space_units : list N :=
  [9; 10; 11; 12; 13; 32; 160; 5760; 8232; 8233; 8239; 8287; 12288; 65279]%N
  ++ units 8192 8202.

(** A code unit in the cases it is matched in. *)
Definition cased (ci : bool) (c : N) : list N :=
  if ci then [c; upper1 c; lower1 c] else [c].

(** The code units a class item matches all satisfy [p]. *)
Definition item_in (ci : bool) (p : N -> bool) (it : citem) : bool :=
  match it with
  | CChar c => forallb p (cased ci c)
  | CRange lo hi => forallb (fun c => forallb p (cased ci c)) (units lo hi)
  | CDigit => forallb p (units 48 57)
  | CWord => forallb p (units 48 57 ++ units 65 90 ++ units 97 122 ++ [95%N])
  | CSpace => forallb p space_units
  | CNotDigit | CNotWord | CNotSpace => false
  end.

(** [all_in ci p r]: every code unit a match of [r] consumes satisfies [p]. *)
Fixpoint all_in (ci : bool) (p : N -> bool) (r : regex) : bool :=
  match r with
  | Chr c => forallb p (cased ci c)
  | Any => false
  | Class neg items => negb neg && forallb (item_in ci p) items
  | Seq a b | Alt a b => all_in ci p a && all_in ci p b
  | Rep _ _ _ r' | Group _ r' => all_in ci p r'
  | _ => true
  end.

(** The most code units a match of the pattern consumes; [None] when
    there is no bound. *)
Fixpoint max_len (r : regex) : option nat :=
  match r with
  | Chr _ | Any | Class _ _ => Some 1
  | Seq a b =>
      match max_len a, max_len b with
      | Some x, Some y => Some (x + y)
      | _, _ => None
      end
  | Alt a b =>
      match max_len a, max_len b with
      | Some x, Some y => Some (Nat.max x y)
      | _, _ => None
      end
  | Rep _ (Some k) _ r' =>
      match max_len r' with
      | Some x => Some (k * x)
      | None => None
      end
  | Rep _ None _ _ => None
  | Group _ r' => max_len r'
  | _ => Some 0
  end.

(** A literal word as a pattern. *)
Fixpoint lit (cs : jstring) : regex :=
  match cs with
  | [] => Empty
  | [c] => Chr c
  | c :: cs' => Seq (Chr c) (lit cs')
  end.

(** *** Ranges of years *)

(** Neither white space nor the dash. *)
Definition plain (c : N) : bool := negb (is_space c) && negb (c =? 45)%N.

(** Letters of the ASCII alphabet only. *)
Definition letters_only (w : jstring) : bool :=
  forallb (fun x => is_lower x || is_upper x) w.

(** What [yearRegex] matches: a year of four digits, a dash with or
    without white space around it, and a year of four digits or the word
    "present" in any case. *)
Definition range_shape (w : jstring) : Prop :=
  exists y1 s1 s2 y2,
    w = y1 ++ s1 ++ 45%N :: s2 ++ y2
    /\ length y1 = 4 /\ forallb is_digit y1 = true
    /\ forallb is_space s1 = true /\ forallb is_space s2 = true
    /\ ((length y2 = 4 /\ forallb is_digit y2 = true)
        \/ (toLowerCase y2 = str "present" /\ length y2 = 7
            /\ letters_only y2 = true)).

(** *** Names *)

(** A token: not empty, no white space. *)
Definition token (w : jstring) : Prop :=
  w <> [] /\ forallb (fun c => negb (is_space c)) w = true.

(** White space only. *)
Definition blank (s : jstring) : Prop := forallb is_space s = true.

(** A first token and the further ones, each after its gap. *)
Fixpoint spaced (w : jstring) (more : list (jstring * jstring)) : jstring :=
  match more with
  | [] => w
  | (gap, w') :: more' => w ++ gap ++ spaced w' more'
  end.

(** The separator of [parseFullName]: [/\s+/]. *)
Definition whiteSpaceRegex : RegExp := rx "\s+".

(** A further token, after its white space. *)
Definition gap_token (gw : jstring * jstring) : Prop :=
  fst gw <> [] /\ blank (fst gw) /\ token (snd gw).








(** *** Spans of a section *)

(** The spans of the synonyms whose header is found, in the order of the
    list. *)
Definition matched_spans (text : jstring) (headers : list jstring)
  : list jstring :=
  flat_map
    (fun header =>
       match first_match (headerPatterns header) text with
       | Some mt => [section_span text header mt]
       | None => []
       end)
    headers.

(** The header words the extractors pass to the section locator. *)
Definition headers_in_use : list jstring :=
  commonHeaders ++ contactHeaders ++ educationHeaders ++ skillsHeaders
  ++ technicalHeaders ++ softHeaders ++ languagesHeaders ++ projectsHeaders
  ++ experienceHeaders ++ experienceCalcHeaders
  ++ map str ["academic background"; "academic qualifications"; "summary";
              "profile"; "about me"; "professional summary";
              "career objective"; "certifications"; "certificates";
              "credentials"]%string.

Definition source_reads (re : RegExp) : bool :=
  match ReRead.read (source re) with Some _ => true | None => false end.

(** *** Further analyses of a pattern *)

(** [cap_body i r = Some r']: every match of [r] sets group [i], and
    [r'] is what the group encloses. *)
Fixpoint cap_body (i : nat) (r : regex) : option regex :=
  match r with
  | Group j r' => if Nat.eqb i j then Some r' else cap_body i r'
  | Seq a b =>
      match cap_body i b with
      | Some x => Some x
      | None => if existsb (Nat.eqb i) (groups b) then None else cap_body i a
      end
  | _ => None
  end.

(** [min_count ci p r]: the least number of code units satisfying [p]
    that a match of [r] consumes. *)
Fixpoint min_count (ci : bool) (p : N -> bool) (r : regex) : nat :=
  match r with
  | Chr c => if forallb p (cased ci c) then 1 else 0
  | Class neg items =>
      if negb neg && forallb (item_in ci p) items then 1 else 0
  | Seq a b => min_count ci p a + min_count ci p b
  | Alt a b => Nat.min (min_count ci p a) (min_count ci p b)
  | Rep mn mx _ r' =>
      match mx with
      | Some k => Nat.min mn k * min_count ci p r'
      | None => mn * min_count ci p r'
      end
  | Group _ r' => min_count ci p r'
  | _ => 0
  end.

(** [must_have_any cs r]: every match of [r] consumes one of the code
    units [cs]. *)
Fixpoint must_have_any (cs : list N) (r : regex) : bool :=
  match r with
  | Chr c' => existsb (N.eqb c') cs
  | Seq a b => must_have_any cs a || must_have_any cs b
  | Alt a b => must_have_any cs a && must_have_any cs b
  | Group _ r' => must_have_any cs r'
  | Rep mn mx _ r' => (1 <=? mn) && negb (is_zero mx) && must_have_any cs r'
  | _ => false
  end.

(** *** Parts of the text *)

(** [x] is a contiguous piece of [s]. *)
(** [x] occurs in [s]. *)
Definition part_of (x s : jstring) : Prop := exists a b, s = a ++ x ++ b.

(** What closes a header: the line feed after it, or the bracket, the
    parenthesis or the brace around it. *)
Definition header_closers : list N := [10; 41; 93; 125]%N.

(** A letter of the ASCII alphabet. *)
Definition is_letter (c : N) : bool := is_upper c || is_lower c.

(** What a phone number is written with. *)
Definition phone_unit (c : N) : bool :=
  is_digit c || is_space c || existsb (N.eqb c) [43; 45; 46; 40; 41]%N.

(** A URL as the extractors return it: text copied from the input, free of
    white space, with [https://] put in front unless it starts with
    [http]. *)
Definition copied_url (text u : jstring) : Prop :=
  exists w, u = ensure_prefix w /\ part_of w text
            /\ forallb (fun c => negb (is_space c)) w = true
            /\ 4 <= length w.

(** What [labeled_or_whole] picks is covered by the analyses. *)
Definition url_pattern_ok (label : string) (re : RegExp) : bool :=
  let p := fun c => negb (is_space c) in
  if includes (toString re) (str label) then
    match cap_body 1 (ast re) with
    | Some r' =>
        all_in (flag_i re) p r' && (4 <=? min_count (flag_i re) p r')
    | None => false
    end
  else all_in (flag_i re) p (ast re) && (4 <=? min_count (flag_i re) p (ast re)).

(** *** Links and work entries *)

(** The loops of the first, the second and the fourth strategy of
    [extractWorkExperience], as [work_in_section] runs them. *)
Definition work_pattern1 (fuel : nat) (experienceSection : jstring)
  : option (list WorkExperience) :=
  while_exec fuel companyLabeledRegex experienceSection
    (work_pattern1_body experienceSection) 0 [].

Definition work_pattern2 (fuel : nat) (experienceSection : jstring)
  : option (list WorkExperience) :=
  while_exec fuel companyDateRegex experienceSection
    (work_pattern2_body experienceSection) 0 [].

Definition work_pattern4 (fuel : nat) (experienceSection : jstring)
  : option (list WorkExperience) :=
  while_exec fuel academicPositionRegex experienceSection
    (work_pattern4_body experienceSection) 0 [].

(** A link field: empty, or a URL with its scheme. *)
Definition link_ok (u : jstring) : Prop :=
  u = [] \/ startsWith u (str "http") = true.

(** Both links of a project are link fields. *)
Definition project_links_ok (p : Project) : Prop :=
  link_ok (p_githubLink p) /\ link_ok (p_liveLink p).

(** *** Escaping *)

(** The characters [escapeRegExp] escapes. *)
Definition regexp_specials : jstring := str ".*+?^${}()|[]\".

(** A code unit, escaped when it is special. *)
Definition escape_unit (c : N) : jstring :=
  if existsb (N.eqb c) regexp_specials then [92%N; c] else [c].

(** The pattern of [escapeRegExp]. *)
Definition escapeRegex : RegExp := rx_g "[.*+?^${}()|[\]\\]".

(** *** Sample texts *)

(** A skills header whose span is cut short by the next header. *)
Definition short_span_text : jstring := str "Skills:
Java
Go
Education:
MIT
".

Definition short_span_rest : list jstring :=
  map str ["technical skills"; "core competencies"]%string.

Definition short_span_match : mresult :=
  {| index := 0; m0 := str "Skills:
Java
"; mcaps := [] |}.

(** A tools section that holds a category line and nothing else. *)
Definition category_only_text : jstring := str "I use Python and Java.
Tools:
my stack
Frameworks and libraries:
Education:
MIT
".

(** A projects section with one dated project and nothing else. *)
Definition dated_project_text : jstring := str "Projects:
My Cool App (Jan 2020 - Dec 2020)".

Definition dated_project_section : jstring :=
  str "My Cool App (Jan 2020 - Dec 2020)".

Definition dated_project_match : mresult :=
  {| index := 0;
     m0 := dated_project_section;
     mcaps := [(2, str "Jan 2020 - Dec 2020"); (1, str "My Cool App ")] |}.

Definition dated_project_record : Project :=
  {| p_name := str "My Cool App"; p_description := [];
     p_technologies := []; p_githubLink := []; p_liveLink := [];
     p_startDate := str "Jan 2020"; p_endDate := str "Dec 2020";
     p_role := [] |}.

(** An experience section with a closed and an open range. *)
Definition two_jobs_text : jstring := str "Work Experience

Acme Corp, 2018 - 2020
Built things.

Globex, 2021 - Present
More things.
".

(** Two skills sections: the first is cut short, the second is not. *)
Definition two_skill_sections_text : jstring := str "Skills:
Java
Go
Education:
MIT
Technical Skills:
Languages
Rocq, OCaml, Haskell
".

(** A phrase whose number has 309 digits. *)
Definition huge_phrase_text : jstring :=
  List.repeat 57%N 309 ++ str " years of experience".

(** * Properties *)

(** ** The matcher is sound for the declarative relation *)

Module ReFacts.

Import ReSpec.

Section Sound.

Variables (ci ml : bool).

Lemma one_sound p k st res :
  one p k st = Some res ->
  exists st', step p st st' /\ k st' = Some res.
Proof.
  unfold one, step. destruct (rest st) as [|x tl] eqn:E; [discriminate|].
  destruct (p x) eqn:Hp; [|discriminate].
  intros H. exists (advance st x tl). split; [|exact H].
  exists x, tl. auto.
Qed.

Lemma repeat_sound
    (mr : (mstate -> option mstate) -> mstate -> option mstate)
    (R : mstate -> mstate -> Prop) gs greedy k :
  (forall k' st res, mr k' st = Some res ->
     exists st', R st st' /\ k' st' = Some res) ->
  forall fuel mn mx st res,
    repeat mr gs greedy k fuel mn mx st = Some res ->
    exists st',
      reps (fun s s' => R (clear_caps gs s) s') mn mx st st'
      /\ k st' = Some res.
Proof.
  intros Hmr. induction fuel as [|fuel IH]; intros mn mx st res H;
    simpl in H; [discriminate|].
  destruct (is_zero mx) eqn:Hz.
  - exists st. split; [|exact H].
    destruct mx as [[|n]|]; simpl in Hz; try discriminate. apply reps_max.
  - assert (Hd : forall s1,
      (if Nat.eqb mn 0 && same_pos s1 st then None
       else repeat mr gs greedy k fuel (Nat.pred mn) (option_map Nat.pred mx) s1)
      = Some res ->
      R (clear_caps gs st) s1 ->
      exists st', reps (fun s s' => R (clear_caps gs s) s') mn mx st st'
                  /\ k st' = Some res).
    { intros s1 Hs1 HR.
      destruct (Nat.eqb mn 0 && same_pos s1 st); [discriminate|].
      destruct (IH _ _ _ _ Hs1) as (st' & Hreps & Hk).
      exists st'. split; [|exact Hk].
      eapply reps_step; eauto. }
    destruct (Nat.eqb mn 0) eqn:Hmn; simpl in H.
    + apply Nat.eqb_eq in Hmn. subst mn.
      destruct greedy.
      * destruct (mr _ (clear_caps gs st)) as [y|] eqn:Hy.
        -- inversion H; subst y.
           destruct (Hmr _ _ _ Hy) as (s1 & HR & Hs1). eauto.
        -- exists st. split; [apply reps_stop | exact H].
      * destruct (k st) as [y|] eqn:Hy.
        -- exists st. split; [apply reps_stop | congruence].
        -- destruct (Hmr _ _ _ H) as (s1 & HR & Hs1). eauto.
    + destruct (Hmr _ _ _ H) as (s1 & HR & Hs1).
      apply (Hd s1); [exact Hs1 | exact HR].
Qed.

Theorem m_sound r : forall k st res,
  m ci ml r k st = Some res ->
  exists st', M ci ml r st st' /\ k st' = Some res.
Proof.
  induction r as [ | c | | neg items | a IHa b IHb | a IHa b IHb
                 | mn mx greedy r IH | i r IH | | | | | r IH | r IH ];
    intros k st res H; simpl in H |- *.
  - eauto.
  - apply one_sound; exact H.
  - apply one_sound; exact H.
  - apply one_sound; exact H.
  - destruct (IHa _ _ _ H) as (s1 & Ha & H1).
    destruct (IHb _ _ _ H1) as (s2 & Hb & H2). eauto.
  - destruct (m ci ml a k st) as [y|] eqn:Hy.
    + inversion H; subst y.
      destruct (IHa _ _ _ Hy) as (s1 & Ha & H1). eauto.
    + destruct (IHb _ _ _ H) as (s1 & Hb & H1). eauto.
  - eapply repeat_sound; [|exact H]. intros; eauto.
  - destruct (IH _ _ _ H) as (s1 & Hr & H1). eauto.
  - destruct (at_bol ml st) eqn:E; [eauto | discriminate].
  - destruct (at_eol ml st) eqn:E; [eauto | discriminate].
  - destruct (at_wordb st) eqn:E; [eauto | discriminate].
  - destruct (at_wordb st) eqn:E; [discriminate | eauto].
  - destruct (m ci ml r Some st) eqn:E; [discriminate | eauto].
  - destruct (m ci ml r Some st) as [s1|] eqn:E; [|discriminate].
    eexists. split; [exists s1; split; [reflexivity|reflexivity] | exact H].
Qed.

(** A match consumes a prefix of what is left of the input. *)
Lemma reps_ind_rel (R : mstate -> mstate -> Prop) (P : mstate -> mstate -> Prop) :
  (forall s, P s s) ->
  (forall s s1 s2, R s s1 -> P s1 s2 -> P s s2) ->
  forall mn mx s s', reps R mn mx s s' -> P s s'.
Proof.
  intros H0 HS mn mx s s' H. induction H; eauto.
Qed.

Lemma M_suffix r : forall st st',
  M ci ml r st st' -> exists w, rest st = w ++ rest st'.
Proof.
  induction r as [ | c | | neg items | a IHa b IHb | a IHa b IHb
                 | mn mx greedy r IH | i r IH | | | | | r IH | r IH ];
    intros st st' H; simpl in H;
    try (destruct H as (x & tl & E & _ & ->); exists [x]; simpl; exact E);
    try (destruct H as (-> & _); exists []; reflexivity).
  - subst. exists []. reflexivity.
  - destruct H as (s1 & Ha & Hb).
    destruct (IHa _ _ Ha) as (w1 & E1), (IHb _ _ Hb) as (w2 & E2).
    exists (w1 ++ w2). rewrite E1, E2, app_assoc. reflexivity.
  - destruct H; eauto.
  - revert H.
    apply (reps_ind_rel (fun s s' => exists w, rest s = w ++ rest s')).
    + intros s. exists []. reflexivity.
    + intros s s1 s2 HR (w2 & E2).
      destruct (IH _ _ HR) as (w1 & E1). simpl in E1.
      exists (w1 ++ w2). rewrite E1, E2, app_assoc. reflexivity.
  - destruct H as (s1 & Hr & ->). simpl. eauto.
  - destruct H as (s1 & _ & ->). exists []. reflexivity.
Qed.

Lemma M_length r st st' :
  M ci ml r st st' -> length (rest st') <= length (rest st).
Proof.
  intros H. destruct (M_suffix _ _ _ H) as (w & E).
  rewrite E, length_app. lia.
Qed.

Lemma between_suffix st st1 w :
  rest st = w ++ rest st1 -> between st st1 = w.
Proof.
  intros E. unfold between. rewrite E, length_app.
  replace (length w + length (rest st1) - length (rest st1)) with (length w)
    by lia.
  rewrite firstn_app, firstn_all, Nat.sub_diag. simpl. apply app_nil_r.
Qed.

(** A match consumes at least [min_len] code units. *)
Lemma reps_min_len (R : mstate -> mstate -> Prop) n :
  (forall s s', R s s' -> length (rest s') + n <= length (rest s)) ->
  forall mn mx s s', reps R mn mx s s' ->
    length (rest s')
    + match mx with Some k => Nat.min mn k * n | None => mn * n end
    <= length (rest s).
Proof.
  intros HR mn mx s s' H. induction H.
  - destruct mx; simpl; lia.
  - rewrite Nat.min_0_r. simpl. lia.
  - apply HR in H0.
    destruct mx as [[|k]|]; simpl in *; try discriminate.
    + destruct mn as [|mn]; simpl in *; [lia|].
      remember (Nat.min mn k * n) as q. lia.
    + destruct mn as [|mn]; simpl in *; [lia|].
      remember (mn * n) as q. lia.
Qed.

Lemma M_min_len r : forall st st',
  M ci ml r st st' -> length (rest st') + min_len r <= length (rest st).
Proof.
  induction r as [ | c | | neg items | a IHa b IHb | a IHa b IHb
                 | mn mx greedy r IH | i r IH | | | | | r IH | r IH ];
    intros st st' H; simpl in H |- *;
    try (destruct H as (x & tl & E & _ & ->); rewrite E; simpl; lia);
    try (destruct H as (-> & _); lia).
  - subst; lia.
  - destruct H as (s1 & Ha & Hb). apply IHa in Ha. apply IHb in Hb. lia.
  - destruct H as [H|H]; [apply IHa in H | apply IHb in H]; lia.
  - apply (@reps_min_len
             (fun s s' => M ci ml r (clear_caps (groups r) s) s') (min_len r));
      [|exact H].
    intros s s' HR. apply IH in HR. simpl in HR. exact HR.
  - destruct H as (s1 & Hr & ->). simpl. apply IH in Hr. exact Hr.
  - destruct H as (s1 & _ & ->). simpl. lia.
Qed.

(** Groups that do not occur in a pattern keep their value. *)
Lemma lookup_clear i gs st :
  ~ In i gs -> lookup i (caps (clear_caps gs st)) = lookup i (caps st).
Proof.
  intros Hi. unfold clear_caps; simpl.
  induction (caps st) as [|[j w] cs IH]; simpl; [reflexivity|].
  destruct (existsb (Nat.eqb j) gs) eqn:E; simpl.
  - destruct (Nat.eqb i j) eqn:Eij; [|exact IH].
    apply Nat.eqb_eq in Eij. subst j.
    apply existsb_exists in E. destruct E as (x & Hx & Ex).
    apply Nat.eqb_eq in Ex. subst x. contradiction.
  - rewrite IH. reflexivity.
Qed.

Lemma M_frame i r : forall st st',
  M ci ml r st st' -> ~ In i (groups r) ->
  lookup i (caps st') = lookup i (caps st).
Proof.
  induction r as [ | c | | neg items | a IHa b IHb | a IHa b IHb
                 | mn mx greedy r IH | j r IH | | | | | r IH | r IH ];
    intros st st' H Hi; simpl in H, Hi;
    try (destruct H as (x & tl & _ & _ & ->); reflexivity);
    try (destruct H as (-> & _); reflexivity).
  - subst; reflexivity.
  - destruct H as (s1 & Ha & Hb).
    rewrite (IHb _ _ Hb), (IHa _ _ Ha); auto; intros ?; apply Hi, in_or_app; auto.
  - destruct H as [H|H]; [apply IHa | apply IHb]; auto;
      intros ?; apply Hi, in_or_app; auto.
  - revert H.
    apply (reps_ind_rel
             (fun s s' => lookup i (caps s') = lookup i (caps s))).
    + reflexivity.
    + intros s s1 s2 HR E. rewrite E, (IH _ _ HR Hi).
      apply lookup_clear; exact Hi.
  - destruct H as (s1 & Hr & ->). simpl.
    destruct (Nat.eqb i j) eqn:E.
    + apply Nat.eqb_eq in E. subst. tauto.
    + apply IH; tauto.
  - destruct H as (s1 & Hm & ->). simpl.
    destruct (m_sound _ _ _ Hm) as (s2 & HM & E). inversion E; subst s2.
    apply IH; assumption.
Qed.

(** What [cap_min] computes holds of every match. *)
Lemma M_cap_min i r : forall n st st',
  cap_min i r = Some n -> M ci ml r st st' ->
  exists w, lookup i (caps st') = Some w /\ n <= length w.
Proof.
  induction r as [ | c | | neg items | a IHa b IHb | a IHa b IHb
                 | mn mx greedy r IH | j r IH | | | | | r IH | r IH ];
    intros n st st' Hc H; simpl in Hc; try discriminate.
  - destruct H as (s1 & Ha & Hb).
    destruct (cap_min i b) as [k|] eqn:Eb.
    + inversion Hc; subst k. eapply IHb; eauto.
    + destruct (existsb (Nat.eqb i) (groups b)) eqn:Eg; [discriminate|].
      destruct (IHa _ _ _ Hc Ha) as (w & Hw & Hn).
      exists w. split; [|exact Hn].
      rewrite (M_frame i _ _ _ Hb); [exact Hw|].
      intros Hin.
      assert (existsb (Nat.eqb i) (groups b) = true)
        by (apply existsb_exists; exists i; split; [exact Hin | apply Nat.eqb_refl]).
      congruence.
  - destruct (cap_min i a) as [na|] eqn:Ea; [|discriminate].
    destruct (cap_min i b) as [nb|] eqn:Eb; [|discriminate].
    inversion Hc; subst n.
    destruct H as [H|H].
    + destruct (IHa _ _ _ eq_refl H) as (w & Hw & Hn). exists w. split; [auto|lia].
    + destruct (IHb _ _ _ eq_refl H) as (w & Hw & Hn). exists w. split; [auto|lia].
  - destruct H as (s1 & Hr & ->). simpl.
    destruct (Nat.eqb i j) eqn:E.
    + inversion Hc; subst n.
      exists (between st s1). split; [reflexivity|].
      destruct (M_suffix _ _ _ Hr) as (w & Ew).
      rewrite (@between_suffix _ _ _ Ew).
      apply M_min_len in Hr. rewrite Ew, length_app in Hr. lia.
    + eapply IH; eauto.
Qed.

End Sound.

(** *** What [exec] returns *)

(** A match found by the scan is a match of the pattern at some offset
    [k] of the scanned text. *)
Lemma scan_sound re : forall s p idx r,
  scan re p s idx = Some r ->
  exists k p' st',
    index r = idx + k /\ k <= length s
    /\ M (flag_i re) (flag_m re) (ast re) (start_state p' (skipn k s)) st'
    /\ m0 r = between (start_state p' (skipn k s)) st'
    /\ mcaps r = caps st'.
Proof.
  induction s as [|x tl IH]; intros p idx r H; simpl in H.
  - unfold match_here in H.
    destruct (m _ _ _ Some _) as [st'|] eqn:E; [|discriminate].
    inversion H; subst r; clear H.
    destruct (m_sound _ _ _ _ _ E) as (s2 & HM & E2). inversion E2; subst s2.
    exists 0, p, st'. simpl. repeat split; auto.
  - unfold match_here in H.
    destruct (m _ _ _ Some _) as [st'|] eqn:E.
    + inversion H; subst r; clear H.
      destruct (m_sound _ _ _ _ _ E) as (s2 & HM & E2). inversion E2; subst s2.
      exists 0, p, st'. simpl. repeat split; auto; lia.
    + destruct (IH _ _ _ H) as (k & p' & st' & Hi & Hk & HM & H0 & Hc).
      exists (S k), p', st'. simpl. repeat split; auto; lia.
Qed.

Lemma exec_from_sound re s i r :
  exec_from re s i = Some r ->
  exists k p' st',
    index r = i + k /\ i + k <= length s
    /\ M (flag_i re) (flag_m re) (ast re) (start_state p' (skipn (i + k) s)) st'
    /\ m0 r = between (start_state p' (skipn (i + k) s)) st'
    /\ mcaps r = caps st'.
Proof.
  unfold exec_from. destruct (length s <? i) eqn:E; [discriminate|].
  apply Nat.ltb_ge in E. intros H.
  destruct (scan_sound _ _ _ _ H) as (k & p' & st' & Hi & Hk & HM & H0 & Hc).
  rewrite length_skipn in Hk. rewrite skipn_skipn in HM, H0.
  rewrite (Nat.add_comm k i) in HM, H0.
  exists k, p', st'. repeat split; auto; lia.
Qed.

Lemma exec_sound re s r :
  exec re s = Some r ->
  exists k p' st',
    index r = k /\ k <= length s
    /\ M (flag_i re) (flag_m re) (ast re) (start_state p' (skipn k s)) st'
    /\ m0 r = between (start_state p' (skipn k s)) st'
    /\ mcaps r = caps st'.
Proof.
  intros H. apply scan_sound in H. exact H.
Qed.

(** The matched text lies inside the input, after the start index, and is
    at least [min_len] long. *)
Lemma exec_from_bounds re s i r :
  exec_from re s i = Some r ->
  i <= index r /\ mend r <= length s /\ min_len (ast re) <= length (m0 r).
Proof.
  intros H.
  destruct (exec_from_sound _ _ _ H) as (k & p' & st' & Hi & Hk & HM & H0 & _).
  destruct (M_suffix _ _ _ _ _ HM) as (w & Ew).
  rewrite (@between_suffix _ _ _ Ew) in H0.
  apply M_min_len in HM. rewrite Ew, length_app in HM.
  assert (Hl : length (skipn (i + k) s) = length w + length (rest st'))
    by (simpl in Ew; rewrite Ew, length_app; reflexivity).
  rewrite length_skipn in Hl.
  unfold mend. rewrite H0, Hi. repeat split; lia.
Qed.

(** Groups that every match sets are defined in the result. *)
Lemma exec_cap re s r i n :
  cap_min i (ast re) = Some n ->
  exec re s = Some r ->
  exists w, grp_opt r i = Some w /\ n <= length w.
Proof.
  intros Hc H.
  destruct (exec_sound _ _ H) as (k & p' & st' & _ & _ & HM & _ & Hcaps).
  unfold grp_opt. rewrite Hcaps. eapply M_cap_min; eauto.
Qed.

(** *** Further facts about matches *)

Lemma M_seq_inv ci ml a b st st' :
  M ci ml (Seq a b) st st' -> exists s1, M ci ml a st s1 /\ M ci ml b s1 st'.
Proof. intros H. exact H. Qed.

Lemma M_group_inv ci ml i r st st' :
  M ci ml (Group i r) st st' ->
  exists s1, M ci ml r st s1 /\ st' = set_cap i st s1.
Proof. intros H. exact H. Qed.

Lemma chr_eq_caseless ci c x :
  upper1 c = c -> lower1 c = c -> chr_eq ci c x = true -> x = c.
Proof.
  unfold chr_eq, canon. intros Hu Hl H. apply N.eqb_eq in H.
  destruct ci; [|symmetry; exact H].
  rewrite Hu in H. unfold upper1 in H.
  destruct (is_lower x) eqn:Ex; [|symmetry; exact H].
  exfalso. unfold lower1 in Hl. unfold is_lower in Ex.
  apply andb_true_iff in Ex. destruct Ex as (E1 & E2).
  apply N.leb_le in E1. apply N.leb_le in E2.
  destruct (is_upper c) eqn:Ec; [lia|].
  unfold is_upper in Ec. apply andb_false_iff in Ec.
  destruct Ec as [Ec|Ec]; apply N.leb_gt in Ec; lia.
Qed.

Lemma m_seq_eq ci ml a b k st :
  m ci ml (Seq a b) k st = m ci ml a (m ci ml b k) st.
Proof. reflexivity. Qed.

Lemma m_chr_hit ci ml c k st x tl :
  rest st = x :: tl -> chr_eq ci c x = true ->
  m ci ml (Chr c) k st = k (advance st x tl).
Proof.
  intros E H. simpl. unfold one. rewrite E, H. reflexivity.
Qed.

End ReFacts.

Import ReSpec ReFacts.

(** ** Loops over the matches of a pattern *)

(** One turn of the loop. *)
Lemma while_exec_S (A : Type) fuel re s
    (body : mresult -> A -> A * option nat) i acc :
  while_exec (S fuel) re s body i acc
  = match exec_from re s i with
    | None => Some acc
    | Some r =>
        while_exec fuel re s body
          (match snd (body r acc) with Some j => j | None => mend r end)
          (fst (body r acc))
    end.
Proof.
  simpl. destruct (exec_from re s i) as [r|]; [|reflexivity].
  destruct (body r acc). reflexivity.
Qed.

(** A loop whose body leaves [lastIndex] alone, over a pattern that cannot
    match the empty text, ends: every turn moves [lastIndex] forward. *)
Lemma while_exec_total (A : Type) re s (body : mresult -> A -> A * option nat) :
  1 <= min_len (ast re) ->
  (forall r a, snd (body r a) = None) ->
  forall fuel i acc,
    1 <= fuel -> length s + 2 <= fuel + i ->
    exists a, while_exec fuel re s body i acc = Some a.
Proof.
  intros Hmin Hbody. induction fuel as [|fuel IH]; intros i acc H1 H2; [lia|].
  rewrite while_exec_S.
  destruct (exec_from re s i) as [r|] eqn:E; [|eauto].
  rewrite Hbody.
  destruct (exec_from_bounds _ _ _ E) as (Hi & He & Hl).
  unfold mend in *. apply IH; lia.
Qed.

Lemma while_exec_collect (A : Type) re s (f : A -> jstring -> A) a0 :
  forall fuel i l0,
    while_exec fuel re s (fun r a => (f a (m0 r), None)) i (fold_left f l0 a0)
    = option_map (fun l => fold_left f l a0)
        (while_exec fuel re s collect i l0).
Proof.
  induction fuel as [|fuel IH]; intros i l0; [reflexivity|].
  rewrite !while_exec_S.
  destruct (exec_from re s i) as [r|]; [|reflexivity].
  cbn [fst snd collect]. rewrite <- IH, fold_left_app. reflexivity.
Qed.

(** ** The located section is no longer than the text *)

(** One turn of the loop over the synonyms. *)
Lemma extractSection_loop_cons text n header headers' acc :
  extractSection_loop text n (header :: headers') acc
  = match first_match (headerPatterns header) text with
    | Some mt =>
        if (length (section_span text header mt) <? 10) && (1 <? n)
        then extractSection_loop text n headers' (section_span text header mt)
        else section_span text header mt
    | None => extractSection_loop text n headers' acc
    end.
Proof. reflexivity. Qed.

Lemma trimStart_length s : length (trimStart s) <= length s.
Proof.
  induction s as [|c s IH]; simpl; [lia|].
  destruct (is_space c); simpl; lia.
Qed.

Lemma trim_length s : length (trim s) <= length s.
Proof.
  unfold trim, trimEnd. rewrite length_rev.
  etransitivity; [apply trimStart_length|].
  rewrite length_rev. apply trimStart_length.
Qed.

Lemma substring_length s a b : length (substring s a b) <= length s.
Proof.
  unfold substring. rewrite length_firstn, length_skipn. lia.
Qed.

Lemma extractSection_loop_length text n headers : forall acc,
  length acc <= length text ->
  length (extractSection_loop text n headers acc) <= length text.
Proof.
  induction headers as [|h hs IH]; intros acc Hacc; [exact Hacc|].
  rewrite extractSection_loop_cons.
  assert (Hs : forall mt, length (section_span text h mt) <= length text).
  { intros mt. unfold section_span.
    etransitivity; [apply trim_length | apply substring_length]. }
  destruct (first_match (headerPatterns h) text) as [mt|]; [|apply IH; exact Hacc].
  destruct ((length (section_span text h mt) <? 10) && (1 <? n));
    [apply IH|]; apply Hs.
Qed.

Lemma extractSection_length text headers :
  length (extractSection text headers) <= length text.
Proof.
  apply extractSection_loop_length. simpl. lia.
Qed.

(** ** [parseInt] on a run of digits *)

Lemma digits_val_nonneg s : forall acc, (0 <= acc)%Z -> (0 <= digits_val s acc)%Z.
Proof.
  induction s as [|c s IH]; intros acc H; simpl; [exact H|].
  destruct (is_digit c); [apply IH; lia | exact H].
Qed.

Lemma digit_not_space c : is_digit c = true -> is_space c = false.
Proof.
  unfold is_digit, is_space. intros H.
  apply andb_true_iff in H. destruct H as (H1 & H2).
  apply N.leb_le in H1. apply N.leb_le in H2.
  repeat (apply orb_false_iff; split);
    try (apply N.eqb_neq; lia).
  apply andb_false_iff. left. apply N.leb_gt. lia.
Qed.

Lemma parseInt_digits w :
  w <> [] -> Forall (fun c => is_digit c = true) w ->
  parseInt w = to_double (digits_val w 0) /\ (0 <= digits_val w 0)%Z.
Proof.
  intros Hne Hall. destruct w as [|c w]; [contradiction|].
  inversion Hall as [|? ? Hc _]; subst.
  unfold parseInt. simpl trimStart. rewrite (digit_not_space _ Hc).
  assert (E1 : (c =? 45)%N = false).
  { unfold is_digit in Hc. apply andb_true_iff in Hc. destruct Hc as (H1 & _).
    apply N.leb_le in H1. apply N.eqb_neq. lia. }
  assert (E2 : (c =? 43)%N = false).
  { unfold is_digit in Hc. apply andb_true_iff in Hc. destruct Hc as (H1 & _).
    apply N.leb_le in H1. apply N.eqb_neq. lia. }
  rewrite E1, E2. unfold parse_digits. rewrite Hc.
  split; [reflexivity|]. apply digits_val_nonneg. lia.
Qed.

(** ** What a repeated class consumes *)

Lemma reps_class p gs mn mx st st' :
  reps (fun s s' => step p (clear_caps gs s) s') mn mx st st' ->
  exists w, rest st = w ++ rest st' /\ Forall (fun c => p c = true) w.
Proof.
  intros H. induction H.
  - exists []. split; [reflexivity | constructor].
  - exists []. split; [reflexivity | constructor].
  - destruct H0 as (x & tl & E & Hp & ->).
    destruct IHreps as (w & Ew & Hw). simpl in E, Ew.
    exists (x :: w). split; [rewrite E, Ew; reflexivity | constructor; assumption].
Qed.

(** ** Equations of the matcher *)

Lemma repeat_eq mr gs greedy k fuel mn mx st :
  repeat mr gs greedy k (S fuel) mn mx st
  = if is_zero mx then k st
    else
      if negb (Nat.eqb mn 0) then
        mr (fun st1 =>
              if Nat.eqb mn 0 && same_pos st1 st then None
              else repeat mr gs greedy k fuel (Nat.pred mn)
                     (option_map Nat.pred mx) st1)
           (clear_caps gs st)
      else if greedy then
        match mr (fun st1 =>
                    if Nat.eqb mn 0 && same_pos st1 st then None
                    else repeat mr gs greedy k fuel (Nat.pred mn)
                           (option_map Nat.pred mx) st1)
                 (clear_caps gs st) with
        | Some y => Some y
        | None => k st
        end
      else
        match k st with
        | Some y => Some y
        | None =>
            mr (fun st1 =>
                  if Nat.eqb mn 0 && same_pos st1 st then None
                  else repeat mr gs greedy k fuel (Nat.pred mn)
                         (option_map Nat.pred mx) st1)
               (clear_caps gs st)
        end.
Proof. reflexivity. Qed.

Lemma m_rep_eq ci ml mn mx greedy r k st :
  m ci ml (Rep mn mx greedy r) k st
  = repeat (m ci ml r) (groups r) greedy k (mn + length (rest st) + 1) mn mx st.
Proof. reflexivity. Qed.

Lemma m_class_eq ci ml neg items k st :
  m ci ml (Class neg items) k st = one (class_match ci neg items) k st.
Proof. reflexivity. Qed.





(** ** Lists *)

Lemma last_cons (A : Type) (x : A) l d : last (x :: l) d = last l x.
Proof.
  revert x d. induction l as [|y l IH]; intros x d; [reflexivity|].
  change (last (x :: y :: l) d) with (last (y :: l) d).
  rewrite (IH y d), (IH y x). reflexivity.
Qed.

Lemma forallb_same (p q : N -> bool) l :
  (forall x, p x = q x) -> forallb p l = forallb q l.
Proof.
  intros H. induction l as [|x l IH]; [reflexivity|].
  simpl. rewrite H, IH. reflexivity.
Qed.


Lemma forallb_impl (p q : N -> bool) l :
  (forall x, p x = true -> q x = true) ->
  forallb p l = true -> forallb q l = true.
Proof.
  intros H. induction l as [|x l IH]; [auto|]. simpl. intros E.
  apply andb_true_iff in E. destruct E as (E1 & E2).
  rewrite (H _ E1), (IH E2). reflexivity.
Qed.

Lemma Forall_forallb (p : N -> bool) l :
  Forall (fun c => p c = true) l -> forallb p l = true.
Proof.
  induction 1 as [|x l Hx _ IH]; [reflexivity|]. simpl.
  rewrite Hx, IH. reflexivity.
Qed.

Lemma last_app_ne (A : Type) (a b : list A) d :
  b <> [] -> last (a ++ b) d = last b d.
Proof.
  intros Hb. induction a as [|x a IH]; [reflexivity|].
  cbn [app]. destruct (a ++ b) as [|z l] eqn:E.
  - destruct a; [simpl in E; contradiction|discriminate].
  - exact IH.
Qed.

Lemma last_in (A : Type) (l : list A) d : l <> [] -> In (last l d) l.
Proof.
  induction l as [|x l IH]; [congruence|]. intros _.
  destruct l as [|z l]; [left; reflexivity|].
  right. apply IH. discriminate.
Qed.

Lemma skipn_app_exact (A : Type) (a b : list A) :
  skipn (length (a ++ b) - length b) (a ++ b) = b.
Proof.
  rewrite length_app.
  replace (length a + length b - length b) with (length a) by lia.
  rewrite skipn_app, skipn_all, Nat.sub_diag. reflexivity.
Qed.


Lemma forallb_in (p : N -> bool) l x : forallb p l = true -> In x l -> p x = true.
Proof. intros H Hx. rewrite forallb_forall in H. apply H. exact Hx. Qed.

(** ** Greedy runs over a class

    What the matcher returns on a run of code units of a class: the
    quantifier takes the whole run when the rest of the pattern then
    matches, and fails when the rest fails wherever the run may stop. *)

Lemma clear_caps_nil st : clear_caps [] st = st.
Proof.
  destruct st as [p r c]. unfold clear_caps. cbn [prev rest caps existsb negb].
  f_equal. induction c as [|x c IH]; [reflexivity|].
  cbn [filter]. rewrite IH. reflexivity.
Qed.

Lemma after_nil st : after st [] (rest st) = st.
Proof. destruct st; reflexivity. Qed.

Lemma after_cons st x run tl tl' :
  after (advance st x tl') run tl = after st (x :: run) tl.
Proof.
  unfold after, advance. cbn [prev caps]. rewrite map_cons, last_cons.
  reflexivity.
Qed.


Lemma space_class ci x : class_match ci false [CSpace] x = is_space x.
Proof. unfold class_match. simpl. rewrite orb_false_r. reflexivity. Qed.

Section Greedy.

Variables (ci ml neg : bool) (items : list citem).

Lemma one_hit k st x tl :
  rest st = x :: tl -> class_match ci neg items x = true ->
  m ci ml (Class neg items) k st = k (advance st x tl).
Proof.
  intros E H. rewrite m_class_eq. unfold one. rewrite E, H. reflexivity.
Qed.

Lemma one_miss k st :
  stops (class_match ci neg items) (rest st) = true ->
  m ci ml (Class neg items) k st = None.
Proof.
  intros H. rewrite m_class_eq. unfold one.
  destruct (rest st) as [|c tl]; [reflexivity|].
  simpl in H. apply negb_true_iff in H. rewrite H. reflexivity.
Qed.

(** A greedy star over a class runs to the end of the run when the rest
    of the pattern then matches. *)
Lemma star_run k y : forall run fuel st tl,
  rest st = run ++ tl ->
  forallb (class_match ci neg items) run = true ->
  stops (class_match ci neg items) tl = true ->
  length run < fuel ->
  k (after st run tl) = Some y ->
  repeat (m ci ml (Class neg items)) [] true k fuel 0 None st = Some y.
Proof.
  induction run as [|x run IH]; intros fuel st tl E Hr Ht Hf Hk;
    (destruct fuel as [|fuel]; [simpl in Hf; lia|]);
    rewrite repeat_eq; cbn [is_zero Nat.eqb negb]; rewrite clear_caps_nil.
  - simpl in E. rewrite one_miss by (rewrite E; exact Ht).
    rewrite <- E, after_nil in Hk. exact Hk.
  - simpl in Hr. apply andb_true_iff in Hr. destruct Hr as (Hx & Hr).
    rewrite (@one_hit _ st x (run ++ tl) E Hx).
    unfold same_pos. rewrite E. cbn [advance rest app length andb].
    replace (length (run ++ tl) =? S (length (run ++ tl))) with false
      by (symmetry; apply Nat.eqb_neq; lia).
    cbn [Nat.pred option_map].
    rewrite (IH fuel (advance st x (run ++ tl)) tl);
      [reflexivity|reflexivity|exact Hr|exact Ht|simpl in Hf; lia|].
    rewrite after_cons. exact Hk.
Qed.


Lemma star_run_m k y run st tl :
  rest st = run ++ tl ->
  forallb (class_match ci neg items) run = true ->
  stops (class_match ci neg items) tl = true ->
  k (after st run tl) = Some y ->
  m ci ml (Rep 0 None true (Class neg items)) k st = Some y.
Proof.
  intros E Hr Ht Hk. rewrite m_rep_eq. cbn [groups].
  apply star_run with (run := run) (tl := tl); try assumption.
  rewrite E, length_app. lia.
Qed.

(** A greedy star fails when the rest of the pattern fails wherever the
    star may stop. *)
Lemma star_fail k : forall run fuel st tl,
  rest st = run ++ tl ->
  forallb (class_match ci neg items) run = true ->
  stops (class_match ci neg items) tl = true ->
  (forall q r, run = q ++ r -> k (after st q (r ++ tl)) = None) ->
  repeat (m ci ml (Class neg items)) [] true k fuel 0 None st = None.
Proof.
  induction run as [|x run IH]; intros fuel st tl E Hr Ht Hk;
    (destruct fuel as [|fuel]; [reflexivity|]);
    rewrite repeat_eq; cbn [is_zero Nat.eqb negb]; rewrite clear_caps_nil.
  - simpl in E. rewrite one_miss by (rewrite E; exact Ht).
    specialize (Hk [] [] eq_refl). cbn [app] in Hk.
    rewrite <- E, after_nil in Hk. exact Hk.
  - simpl in Hr. apply andb_true_iff in Hr. destruct Hr as (Hx & Hr).
    rewrite (@one_hit _ st x (run ++ tl) E Hx).
    unfold same_pos. rewrite E. cbn [advance rest app length andb].
    replace (length (run ++ tl) =? S (length (run ++ tl))) with false
      by (symmetry; apply Nat.eqb_neq; lia).
    cbn [Nat.pred option_map].
    rewrite (IH fuel (advance st x (run ++ tl)) tl);
      [|reflexivity|exact Hr|exact Ht|].
    + specialize (Hk [] (x :: run) eq_refl).
      change ([] ++ (x :: run) ++ tl) with ((x :: run) ++ tl) in Hk.
      rewrite <- E, after_nil in Hk. exact Hk.
    + intros q r Eq. rewrite after_cons. apply Hk. rewrite Eq. reflexivity.
Qed.


End Greedy.

(** ** The code units of a match *)

Lemma units_in lo hi x : in_range lo hi x = true -> In x (units lo hi).
Proof.
  unfold in_range, units. intros H. apply andb_true_iff in H.
  destruct H as (H1 & H2). apply N.leb_le in H1. apply N.leb_le in H2.
  apply in_map_iff. exists (N.to_nat x). split; [apply N2Nat.id|].
  apply in_seq. lia.
Qed.

Lemma space_units_in x : is_space x = true -> In x space_units.
Proof.
  unfold is_space, space_units. intros H.
  repeat (apply orb_true_iff in H; destruct H as [H|H]);
    try (apply N.eqb_eq in H; subst x; apply in_or_app; left; simpl; tauto).
  apply in_or_app. right. apply units_in. exact H.
Qed.

Lemma cased_in ci c x : chr_eq ci c x = true -> In x (cased ci c).
Proof.
  unfold chr_eq, canon, cased. intros H. apply N.eqb_eq in H.
  destruct ci; [|left; exact H].
  unfold upper1, lower1 in *. unfold is_lower, is_upper in *.
  destruct ((97 <=? c) && (c <=? 122))%N eqn:Ec;
    destruct ((97 <=? x) && (x <=? 122))%N eqn:Ex;
    destruct ((65 <=? c) && (c <=? 90))%N eqn:Ec';
    try (apply andb_true_iff in Ec; destruct Ec as (Ec1 & Ec2);
         apply N.leb_le in Ec1; apply N.leb_le in Ec2);
    try (apply andb_true_iff in Ex; destruct Ex as (Ex1 & Ex2);
         apply N.leb_le in Ex1; apply N.leb_le in Ex2);
    try (apply andb_true_iff in Ec'; destruct Ec' as (Ec1' & Ec2');
         apply N.leb_le in Ec1'; apply N.leb_le in Ec2');
    try (apply andb_false_iff in Ec'; destruct Ec' as [Ec'|Ec'];
         apply N.leb_gt in Ec');
    simpl; try lia; try (left; lia); try (right; left; lia);
    try (right; right; left; lia).
Qed.

Lemma item_in_ok ci p it x :
  item_in ci p it = true -> item_match ci it x = true -> p x = true.
Proof.
  destruct it as [c|lo hi| | | | | | ]; cbn [item_in item_match]; intros Hp Hm;
    try discriminate.
  - eapply forallb_in; [exact Hp|]. apply cased_in. exact Hm.
  - apply orb_true_iff in Hm. destruct Hm as [Hm|Hm].
    + apply units_in in Hm.
      assert (H := @forallb_in _ _ _ Hp Hm).
      eapply forallb_in; [exact H|]. unfold cased. destruct ci; left; reflexivity.
    + apply andb_true_iff in Hm. destruct Hm as (Hci & Hm). subst ci.
      apply orb_true_iff in Hm. destruct Hm as [Hm|Hm]; apply units_in in Hm;
        assert (H := @forallb_in _ _ _ Hp Hm); cbn [cased forallb] in H;
        repeat (apply andb_true_iff in H; destruct H as (? & H)).
      * unfold upper1 in *. destruct (is_lower x) eqn:Ex; [|assumption].
        unfold lower1 in *. unfold is_lower in Ex.
        apply andb_true_iff in Ex. destruct Ex as (E1 & E2).
        apply N.leb_le in E1. apply N.leb_le in E2.
        assert (Eu : is_upper (x - 32) = true).
        { unfold is_upper. apply andb_true_iff.
          split; apply N.leb_le; lia. }
        rewrite Eu in *. replace (x - 32 + 32)%N with x in * by lia.
        assumption.
      * unfold lower1 in *. destruct (is_upper x) eqn:Ex; [|assumption].
        unfold upper1 in *. unfold is_upper in Ex.
        apply andb_true_iff in Ex. destruct Ex as (E1 & E2).
        apply N.leb_le in E1. apply N.leb_le in E2.
        assert (Eu : is_lower (x + 32) = true).
        { unfold is_lower. apply andb_true_iff.
          split; apply N.leb_le; lia. }
        rewrite Eu in *. replace (x + 32 - 32)%N with x in * by lia.
        assumption.
  - eapply forallb_in; [exact Hp|]. apply units_in. exact Hm.
  - eapply forallb_in; [exact Hp|].
    unfold is_word in Hm.
    repeat (apply orb_true_iff in Hm; destruct Hm as [Hm|Hm]).
    + apply in_or_app. left. apply units_in. exact Hm.
    + apply in_or_app. right. apply in_or_app. left. apply units_in. exact Hm.
    + apply in_or_app. right. apply in_or_app. right. apply in_or_app. left.
      apply units_in. exact Hm.
    + apply N.eqb_eq in Hm. subst x. repeat (apply in_or_app; right).
      left. reflexivity.
  - eapply forallb_in; [exact Hp|]. apply space_units_in. exact Hm.
Qed.

Lemma M_all_in ci ml p r : forall st st',
  all_in ci p r = true -> M ci ml r st st' ->
  exists w, rest st = w ++ rest st' /\ forallb p w = true.
Proof.
  induction r as [ | c | | neg items | a IHa b IHb | a IHa b IHb
                 | mn mx greedy r IH | i r IH | | | | | r IH | r IH ];
    intros st st' Hp H; simpl in Hp, H; try discriminate;
    try (destruct H as (-> & _); exists []; split; reflexivity).
  - subst. exists []. split; reflexivity.
  - destruct H as (x & tl & E & Hx & ->).
    exists [x]. split; [exact E|]. simpl. rewrite andb_true_r.
    eapply forallb_in; [exact Hp|]. apply cased_in. exact Hx.
  - destruct H as (x & tl & E & Hx & ->).
    exists [x]. split; [exact E|]. simpl. rewrite andb_true_r.
    apply andb_true_iff in Hp. destruct Hp as (Hn & Hp).
    apply negb_true_iff in Hn. subst neg.
    unfold class_match in Hx. simpl in Hx.
    apply existsb_exists in Hx. destruct Hx as (it & Hit & Hx).
    eapply item_in_ok; [|exact Hx]. eapply forallb_forall in Hp; eauto.
  - apply andb_true_iff in Hp. destruct Hp as (Ha & Hb).
    destruct H as (s1 & H1 & H2).
    destruct (IHa _ _ Ha H1) as (w1 & E1 & P1).
    destruct (IHb _ _ Hb H2) as (w2 & E2 & P2).
    exists (w1 ++ w2). split; [rewrite E1, E2, app_assoc; reflexivity|].
    rewrite forallb_app, P1, P2. reflexivity.
  - apply andb_true_iff in Hp. destruct Hp as (Ha & Hb).
    destruct H as [H|H]; eauto.
  - revert H.
    apply (reps_ind_rel
             (fun s s' => exists w, rest s = w ++ rest s' /\ forallb p w = true)).
    + intros s. exists []. split; reflexivity.
    + intros s s1 s2 HR (w2 & E2 & P2).
      destruct (IH _ _ Hp HR) as (w1 & E1 & P1). simpl in E1.
      exists (w1 ++ w2). split; [rewrite E1, E2, app_assoc; reflexivity|].
      rewrite forallb_app, P1, P2. reflexivity.
  - destruct H as (s1 & Hr & ->). simpl. eauto.
  - destruct H as (s1 & _ & ->). exists []. split; reflexivity.
Qed.

Lemma reps_max_len (R : mstate -> mstate -> Prop) n :
  (forall s s', R s s' -> length (rest s) <= n + length (rest s')) ->
  forall mn mx s s', reps R mn mx s s' ->
    forall k, mx = Some k -> length (rest s) <= k * n + length (rest s').
Proof.
  intros HR mn mx s s' H. induction H; intros k Ek.
  - lia.
  - lia.
  - subst mx. destruct k as [|k]; [discriminate|].
    apply HR in H0. specialize (IHreps k eq_refl). simpl. lia.
Qed.

Lemma M_max_len ci ml r : forall n st st',
  max_len r = Some n -> M ci ml r st st' ->
  length (rest st) <= n + length (rest st').
Proof.
  induction r as [ | c | | neg items | a IHa b IHb | a IHa b IHb
                 | mn mx greedy r IH | i r IH | | | | | r IH | r IH ];
    intros n st st' Hn H; simpl in Hn, H;
    try (inversion Hn; subst n; destruct H as (x & tl & E & _ & ->);
         rewrite E; simpl; lia);
    try (inversion Hn; subst n; destruct H as (-> & _); lia).
  - inversion Hn; subst; lia.
  - destruct (max_len a) as [x|]; [|discriminate].
    destruct (max_len b) as [y|]; [|discriminate].
    inversion Hn; subst n. destruct H as (s1 & Ha & Hb).
    specialize (IHa _ _ _ eq_refl Ha). specialize (IHb _ _ _ eq_refl Hb). lia.
  - destruct (max_len a) as [x|]; [|discriminate].
    destruct (max_len b) as [y|]; [|discriminate].
    inversion Hn; subst n. destruct H as [H|H].
    + specialize (IHa _ _ _ eq_refl H). lia.
    + specialize (IHb _ _ _ eq_refl H). lia.
  - destruct mx as [k|]; [|discriminate].
    destruct (max_len r) as [x|]; [|discriminate].
    inversion Hn; subst n.
    apply (@reps_max_len
             (fun s s' => M ci ml r (clear_caps (groups r) s) s') x)
      with (mn := mn) (mx := Some k); [|exact H|reflexivity].
    intros s s' HR. apply (IH _ _ _ eq_refl) in HR. simpl in HR. exact HR.
  - destruct H as (s1 & Hr & ->). simpl. eapply IH; eauto.
  - inversion Hn; subst n. destruct H as (s1 & _ & ->). simpl. lia.
Qed.

(** A pattern whose matches all have one length and take their code units
    from [p]. *)
Lemma M_exact ci ml p r n st st' :
  all_in ci p r = true -> min_len r = n -> max_len r = Some n ->
  M ci ml r st st' ->
  exists w, rest st = w ++ rest st' /\ length w = n /\ forallb p w = true.
Proof.
  intros Hp Hmin Hmax HM.
  destruct (@M_all_in ci ml p r st st' Hp HM) as (w & Ew & Pw).
  exists w. split; [exact Ew|]. split; [|exact Pw].
  pose proof (@M_max_len ci ml r n st st' Hmax HM) as H1.
  pose proof (@M_min_len ci ml r st st' HM) as H2.
  rewrite Ew, length_app in H1, H2. lia.
Qed.

Lemma M_lit ci ml : forall cs st st',
  M ci ml (lit cs) st st' ->
  exists w, rest st = w ++ rest st'
            /\ Forall2 (fun c x => chr_eq ci c x = true) cs w.
Proof.
  induction cs as [|c cs IH]; intros st st' H.
  - simpl in H. subst st'. exists []. split; [reflexivity|constructor].
  - destruct cs as [|c' cs].
    + destruct H as (x & tl & E & Hx & ->).
      exists [x]. split; [exact E|]. repeat constructor. exact Hx.
    + destruct H as (s1 & (x & tl & E & Hx & ->) & H).
      destruct (IH _ _ H) as (w & Ew & Hw). simpl in Ew.
      exists (x :: w). split; [rewrite E, Ew; reflexivity|].
      constructor; assumption.
Qed.

(** ** Splitting at a pattern *)

(** Code units at which the separator cannot start are gathered into the
    pending piece. *)
Lemma split_go_skip re : forall w fuel p s' cur,
  (forall c, In c w -> forall q tl, match_here re q (c :: tl) = None) ->
  ReStr.split_go (length w + fuel) re p (w ++ s') cur
  = ReStr.split_go fuel re (last (map Some w) p) s' (rev w ++ cur).
Proof.
  induction w as [|c w IH]; intros fuel p s' cur Hw; [reflexivity|].
  cbn [length Nat.add app ReStr.split_go].
  rewrite (Hw c (or_introl eq_refl)), IH
    by (intros x Hx; apply Hw; right; exact Hx).
  rewrite map_cons, last_cons. cbn [rev]. rewrite <- app_assoc. reflexivity.
Qed.

(** Where the separator matches, the pending piece ends. *)
Lemma split_go_sep re fuel p s cur st' :
  match_here re p s = Some st' -> length (rest st') < length s ->
  ReStr.split_go (S fuel) re p s cur
  = rev cur :: ReStr.split_go fuel re (prev st') (rest st') [].
Proof.
  intros E Hl. destruct s as [|x tl]; [simpl in Hl; lia|].
  cbn [ReStr.split_go]. rewrite E.
  replace (length (rest st') =? length (x :: tl)) with false
    by (symmetry; apply Nat.eqb_neq; lia).
  reflexivity.
Qed.

Lemma split_go_end re fuel p cur :
  ReStr.split_go fuel re p [] cur = [rev cur].
Proof. destruct fuel; simpl; rewrite ?app_nil_r; reflexivity. Qed.

(** ** The empty text (C1) *)

(** C1, as stated, fails: for the empty text [linkedinUrl] is not empty. *)
Lemma empty_text_linkedin_not_empty :
  exists d, extractInformation 2026 1 (str "") = Some d
            /\ d_linkedinUrl d = str "https://linkedin.com/in/"
            /\ ~ every_string_empty d.
Proof.
  exists defaultProfile. split; [vm_compute; reflexivity|].
  split; [reflexivity|].
  unfold every_string_empty. intros H.
  destruct H as (_ & _ & _ & _ & _ & H & _). discriminate H.
Qed.

(** C1, amended.  For the empty text, whatever the year and with any fuel
    but none, the parse returns [defaultProfile]: every string field is
    empty except [linkedinUrl], which is ["https://linkedin.com/in/"];
    [experience] is 0; [projects] and [workExperiences] each hold exactly
    one placeholder record. *)
Theorem extractInformation_empty (now : Z) (fuel : nat) :
  extractInformation now (S fuel) (str "") = Some defaultProfile.
Proof.
  vm_compute. reflexivity.
Qed.

(** ** Years of experience (C2) *)

(** *** Numbers *)

Lemma to_double_small z : (Z.abs z < 2 ^ 53)%Z -> to_double z = Num z.
Proof.
  intros H. unfold to_double. apply Z.ltb_lt in H. rewrite H. reflexivity.
Qed.

Lemma nonneg_to_double z : (0 <= z)%Z -> nonneg (to_double z).
Proof.
  intros Hz. unfold to_double.
  destruct (Z.abs z <? 2 ^ 53)%Z; [exact Hz|]. cbv zeta.
  match goal with |- nonneg (if ?c then _ else _) => destruct c end.
  - simpl. apply Z.ltb_ge. exact Hz.
  - simpl.
    match goal with |- (0 <= Z.sgn z * Z.shiftl ?q ?k)%Z =>
      assert (Hq : (0 <= Z.shiftl q k)%Z)
    end.
    { apply Z.shiftl_nonneg.
      match goal with |- (0 <= (if ?c then _ else _))%Z => destruct c end;
        [apply Z.add_nonneg_nonneg; [|lia]|];
        apply Z.shiftr_nonneg; lia. }
    destruct (Z.sgn_spec z) as [(_ & ->)|[(_ & ->)|(Hn & _)]]; lia.
Qed.

Lemma to_double_not_nan z : to_double z <> NaN.
Proof.
  unfold to_double. destruct (_ <? _)%Z; [discriminate|]. cbv zeta.
  match goal with |- (if ?c then _ else _) <> _ => destruct c end;
    discriminate.
Qed.

(** [to_double] agrees with the Standard Library's specification of
    binary64 rounding on the sample integers. *)
Example to_double_rounds :
  map to_double rounding_samples = map spec_double rounding_samples.
Proof. vm_compute. reflexivity. Qed.

(** *** The separator of a range: [\s*-\s*] *)

Lemma yearSep_ast :
  ast yearSep
  = Seq (Rep 0 None true (Class false [CSpace]))
      (Seq (Chr 45) (Rep 0 None true (Class false [CSpace]))).
Proof. reflexivity. Qed.

Lemma yearSep_miss c p tl :
  plain c = true -> match_here yearSep p (c :: tl) = None.
Proof.
  intros Hc. apply andb_true_iff in Hc. destruct Hc as (Hs & Hd).
  unfold match_here. rewrite yearSep_ast.
  change (flag_i yearSep) with false. change (flag_m yearSep) with false.
  rewrite m_seq_eq, m_rep_eq. cbn [groups].
  apply star_fail with (run := []) (tl := c :: tl).
  - reflexivity.
  - reflexivity.
  - cbn [stops]. rewrite space_class. exact Hs.
  - intros q r Eq. destruct q; [|discriminate]. destruct r; [|discriminate].
    cbn [app]. rewrite m_seq_eq. cbn [m]. unfold one, after. cbn [rest].
    unfold chr_eq, canon. apply negb_true_iff in Hd.
    rewrite N.eqb_sym, Hd. reflexivity.
Qed.

Lemma yearSep_hit p s1 s2 tl :
  forallb is_space s1 = true -> forallb is_space s2 = true ->
  stops is_space tl = true ->
  exists q,
    match_here yearSep p (s1 ++ 45%N :: s2 ++ tl)
    = Some {| prev := q; rest := tl; caps := [] |}.
Proof.
  intros H1 H2 Ht. unfold match_here. rewrite yearSep_ast.
  change (flag_i yearSep) with false. change (flag_m yearSep) with false.
  eexists. rewrite m_seq_eq.
  apply star_run_m with (run := s1) (tl := 45%N :: s2 ++ tl).
  - reflexivity.
  - rewrite <- H1. apply forallb_same. intros x. apply space_class.
  - reflexivity.
  - rewrite m_seq_eq.
    erewrite m_chr_hit; [|reflexivity|reflexivity].
    apply star_run_m with (run := s2) (tl := tl).
    + reflexivity.
    + rewrite <- H2. apply forallb_same. intros x. apply space_class.
    + destruct tl as [|c tl]; [reflexivity|].
      cbn [stops] in *. rewrite space_class. exact Ht.
    + reflexivity.
Qed.

(** A range splits into its two years. *)
Lemma split_range y1 s1 s2 y2 :
  y1 <> [] -> y2 <> [] ->
  forallb plain y1 = true -> forallb plain y2 = true ->
  forallb is_space s1 = true -> forallb is_space s2 = true ->
  split yearSep (y1 ++ s1 ++ 45%N :: s2 ++ y2) = [y1; y2].
Proof.
  intros N1 N2 P1 P2 B1 B2. unfold split.
  destruct (y1 ++ s1 ++ 45%N :: s2 ++ y2) as [|x0 tl0] eqn:E0.
  { destruct y1; [congruence|discriminate]. }
  rewrite <- E0. clear x0 tl0 E0.
  set (s := s1 ++ 45%N :: s2 ++ y2).
  assert (Hmiss : forall y, forallb plain y = true ->
            forall c, In c y -> forall q tl,
              match_here yearSep q (c :: tl) = None).
  { intros y Py c Hc q tl. apply yearSep_miss.
    eapply forallb_in; eauto. }
  assert (Ht : stops is_space y2 = true).
  { destruct y2 as [|c y2]; [reflexivity|]. simpl in P2.
    apply andb_true_iff in P2. destruct P2 as (Pc & _).
    apply andb_true_iff in Pc. destruct Pc as (Pc & _). exact Pc. }
  destruct (yearSep_hit (last (map Some y1) None) s1 s2 y2 B1 B2 Ht)
    as (q & Eh).
  replace (2 * length (y1 ++ s) + 2)
    with (length y1 + S (length y2 + (length y1 + 2 * length s + 1 - length y2)))
    by (rewrite length_app; unfold s; rewrite !length_app; cbn [length];
        rewrite !length_app; lia).
  rewrite (@split_go_skip yearSep y1 _ None s [] (Hmiss y1 P1)).
  rewrite (@split_go_sep yearSep _ _ s _ _ Eh);
    [|unfold s; cbn [rest]; rewrite !length_app; cbn [length];
      rewrite !length_app; lia].
  cbn [prev rest]. rewrite app_nil_r, rev_involutive.
  assert (E2 := @split_go_skip yearSep y2
                  (length y1 + 2 * length s + 1 - length y2) q [] []
                  (Hmiss y2 P2)).
  rewrite app_nil_r in E2. rewrite E2.
  rewrite split_go_end, app_nil_r, rev_involutive. reflexivity.
Qed.

(** *** The shape of a range *)

Lemma caseless_two c x :
  is_lower c = true -> chr_eq true c x = true -> x = c \/ x = upper1 c.
Proof.
  unfold chr_eq, canon. intros Hc H. apply N.eqb_eq in H.
  unfold upper1 at 2 in H. destruct (is_lower x) eqn:Ex; [|right; auto].
  left. unfold upper1 in H. rewrite Hc in H.
  unfold is_lower in Hc, Ex.
  apply andb_true_iff in Hc. destruct Hc as (H1 & H2).
  apply andb_true_iff in Ex. destruct Ex as (H3 & H4).
  apply N.leb_le in H1, H2, H3, H4. lia.
Qed.

Lemma lower_letter c :
  is_lower c = true ->
  lower_unit c = [c] /\ lower_unit (upper1 c) = [c]
  /\ is_upper (upper1 c) = true.
Proof.
  intros Hc. unfold lower_unit, lower1, upper1. rewrite Hc.
  unfold is_lower in Hc. apply andb_true_iff in Hc. destruct Hc as (H1 & H2).
  apply N.leb_le in H1, H2.
  assert (U : is_upper (c - 32) = true).
  { unfold is_upper. apply andb_true_iff.
    split; apply N.leb_le; lia. }
  assert (V : is_upper c = false).
  { unfold is_upper. apply andb_false_iff. right. apply N.leb_gt. lia. }
  rewrite U, V.
  replace (c =? 8490)%N with false by (symmetry; apply N.eqb_neq; lia).
  replace (c =? 304)%N with false by (symmetry; apply N.eqb_neq; lia).
  replace (c - 32 =? 8490)%N with false by (symmetry; apply N.eqb_neq; lia).
  replace (c - 32 =? 304)%N with false by (symmetry; apply N.eqb_neq; lia).
  replace (c - 32 + 32)%N with c by lia. auto.
Qed.

Lemma caseless_word cs w :
  forallb is_lower cs = true ->
  Forall2 (fun c x => chr_eq true c x = true) cs w ->
  toLowerCase w = cs /\ length w = length cs /\ letters_only w = true.
Proof.
  intros Hcs H. induction H as [|c x cs w Hx _ IH]; [auto|].
  simpl in Hcs. apply andb_true_iff in Hcs. destruct Hcs as (Hc & Hcs).
  destruct (IH Hcs) as (E & L & A).
  destruct (lower_letter _ Hc) as (E1 & E2 & U).
  unfold toLowerCase, letters_only in *. cbn [flat_map length forallb].
  rewrite E, L, A.
  destruct (caseless_two _ _ Hc Hx) as [-> | ->].
  - rewrite E1, Hc. auto.
  - rewrite E2, U, orb_true_r. auto.
Qed.

Lemma letter_plain x :
  is_lower x || is_upper x = true -> plain x = true /\ is_digit x = false.
Proof.
  intros H. unfold plain, is_digit.
  assert (B : (65 <= x <= 122)%N).
  { unfold is_lower, is_upper in H. apply orb_true_iff in H.
    destruct H as [H|H]; apply andb_true_iff in H; destruct H as (H1 & H2);
      apply N.leb_le in H1, H2; lia. }
  assert (S : is_space x = false).
  { unfold is_space.
    repeat (apply orb_false_iff; split); try (apply N.eqb_neq; lia).
    apply andb_false_iff. left. apply N.leb_gt. lia. }
  rewrite S.
  replace (x =? 45)%N with false by (symmetry; apply N.eqb_neq; lia).
  split; [reflexivity|].
  apply andb_false_iff. right. apply N.leb_gt. lia.
Qed.

Lemma digit_plain x : is_digit x = true -> plain x = true.
Proof.
  intros H. unfold plain. rewrite (digit_not_space _ H).
  unfold is_digit in H. apply andb_true_iff in H. destruct H as (H1 & H2).
  apply N.leb_le in H1, H2.
  replace (x =? 45)%N with false by (symmetry; apply N.eqb_neq; lia).
  reflexivity.
Qed.

Lemma yearRegex_ast :
  let year2 := Alt (Seq (Chr 49) (Chr 57)) (Seq (Chr 50) (Chr 48)) in
  let dd := Rep 2 (Some 2) true (Class false [CDigit]) in
  let sp := Rep 0 None true (Class false [CSpace]) in
  ast yearRegex
  = Alt (Seq year2 (Seq dd (Seq sp (Seq (Chr 45) (Seq sp (Seq year2 dd))))))
        (Seq year2 (Seq dd (Seq sp (Seq (Chr 45)
           (Seq sp (lit (str "present"))))))).
Proof. reflexivity. Qed.

(** The part of a range before its last year. *)
Lemma range_front st st' :
  M true false
    (Seq (Alt (Seq (Chr 49) (Chr 57)) (Seq (Chr 50) (Chr 48)))
       (Seq (Rep 2 (Some 2) true (Class false [CDigit]))
          (Seq (Rep 0 None true (Class false [CSpace]))
             (Seq (Chr 45) (Rep 0 None true (Class false [CSpace]))))))
    st st' ->
  exists y1 s1 s2,
    rest st = (y1 ++ s1 ++ 45%N :: s2) ++ rest st'
    /\ length y1 = 4 /\ forallb is_digit y1 = true
    /\ forallb is_space s1 = true /\ forallb is_space s2 = true.
Proof.
  intros (t1 & Ha & t2 & Hd & t3 & H1 & t4 & Hc & H2).
  eapply M_exact with (p := is_digit) (n := 2) in Ha;
    [|reflexivity|reflexivity|reflexivity].
  eapply M_exact with (p := is_digit) (n := 2) in Hd;
    [|reflexivity|reflexivity|reflexivity].
  destruct Ha as (wa & Ea & La & Pa). destruct Hd as (wd & Ed & Ld & Pd).
  cbn [M groups] in H1, H2.
  destruct (@reps_class _ _ _ _ _ _ H1) as (s1 & E1 & P1).
  destruct (@reps_class _ _ _ _ _ _ H2) as (s2 & E2 & P2).
  destruct Hc as (x & tl & Ec & Hx & ->).
  apply chr_eq_caseless in Hx; [|reflexivity|reflexivity]. subst x.
  cbn [advance rest] in E2.
  exists (wa ++ wd), s1, s2.
  split.
  { rewrite Ea, Ed, E1, Ec, E2. rewrite <- !app_assoc. reflexivity. }
  split; [rewrite length_app; lia|].
  split; [rewrite forallb_app, Pa, Pd; reflexivity|].
  split; apply Forall_forallb.
  - eapply Forall_impl; [|exact P1]. intros c Hc.
    rewrite <- (space_class true c). exact Hc.
  - eapply Forall_impl; [|exact P2]. intros c Hc.
    rewrite <- (space_class true c). exact Hc.
Qed.

(** Every match of [yearRegex] has the shape of a range. *)
Lemma yearRegex_shape section i r :
  exec_from yearRegex section i = Some r -> range_shape (m0 r).
Proof.
  intros E.
  destruct (exec_from_sound _ _ _ E) as (k & p' & st' & _ & _ & HM & H0 & _).
  change (flag_i yearRegex) with true in HM.
  change (flag_m yearRegex) with false in HM.
  rewrite yearRegex_ast in HM. cbv zeta in HM.
  set (st := start_state p' (skipn (i + k) section)) in *.
  assert (Hfront : forall tail,
            M true false
              (Seq (Alt (Seq (Chr 49) (Chr 57)) (Seq (Chr 50) (Chr 48)))
                 (Seq (Rep 2 (Some 2) true (Class false [CDigit]))
                    (Seq (Rep 0 None true (Class false [CSpace]))
                       (Seq (Chr 45)
                          (Seq (Rep 0 None true (Class false [CSpace]))
                             tail))))) st st' ->
            exists t y1 s1 s2,
              M true false tail t st'
              /\ rest st = (y1 ++ s1 ++ 45%N :: s2) ++ rest t
              /\ length y1 = 4 /\ forallb is_digit y1 = true
              /\ forallb is_space s1 = true /\ forallb is_space s2 = true).
  { intros tail (t1 & Ha & t2 & Hd & t3 & H1 & t4 & Hc & t5 & H2 & Ht).
    destruct (@range_front st t5) as (y1 & s1 & s2 & F).
    { exists t1. split; [exact Ha|]. exists t2. split; [exact Hd|].
      exists t3. split; [exact H1|]. exists t4. split; assumption. }
    exists t5, y1, s1, s2. split; [exact Ht|exact F]. }
  destruct HM as [HM|HM]; apply Hfront in HM;
    destruct HM as (t & y1 & s1 & s2 & Ht & Ef & L1 & P1 & B1 & B2).
  - destruct Ht as (t1 & Ha & Hd).
    eapply M_exact with (p := is_digit) (n := 2) in Ha;
      [|reflexivity|reflexivity|reflexivity].
    eapply M_exact with (p := is_digit) (n := 2) in Hd;
      [|reflexivity|reflexivity|reflexivity].
    destruct Ha as (wa & Ea & La & Pa). destruct Hd as (wd & Ed & Ld & Pd).
    exists y1, s1, s2, (wa ++ wd).
    split.
    { rewrite H0. apply between_suffix.
      rewrite Ef, Ea, Ed, <- !app_assoc. cbn [app].
      rewrite <- !app_assoc. reflexivity. }
    repeat (split; [assumption|]).
    left. split; [rewrite length_app; lia|].
    rewrite forallb_app, Pa, Pd. reflexivity.
  - apply M_lit in Ht. destruct Ht as (y2 & E2 & F2).
    apply caseless_word in F2; [|reflexivity].
    destruct F2 as (Lw & Ll & Lp).
    exists y1, s1, s2, y2.
    split.
    { rewrite H0. apply between_suffix.
      rewrite Ef, E2, <- !app_assoc. cbn [app].
      rewrite <- !app_assoc. reflexivity. }
    repeat (split; [assumption|]).
    right. split; [exact Lw|]. split; [exact Ll|exact Lp].
Qed.

(** *** The years of a range *)

Lemma digits_val_bound s : forall acc,
  (0 <= acc)%Z -> forallb is_digit s = true ->
  (digits_val s acc < (acc + 1) * 10 ^ Z.of_nat (length s))%Z.
Proof.
  induction s as [|c s IH]; intros acc Ha Hs.
  - simpl. lia.
  - simpl in Hs. apply andb_true_iff in Hs. destruct Hs as (Hc & Hs).
    cbn [digits_val]. rewrite Hc.
    assert (Hd : (0 <= Z.of_N (c - 48) <= 9)%Z).
    { unfold is_digit in Hc. apply andb_true_iff in Hc.
      destruct Hc as (H1 & H2). apply N.leb_le in H1, H2. lia. }
    specialize (IH (acc * 10 + Z.of_N (c - 48))%Z ltac:(lia) Hs).
    replace (Z.of_nat (length (c :: s))) with (Z.succ (Z.of_nat (length s)))
      by (cbn [length]; lia).
    rewrite Z.pow_succ_r by lia.
    assert (Hp : (0 < 10 ^ Z.of_nat (length s))%Z)
      by (apply Z.pow_pos_nonneg; lia).
    nia.
Qed.

Lemma year_value y :
  length y = 4 -> forallb is_digit y = true ->
  parseInt y = Num (digits_val y 0) /\ (0 <= digits_val y 0 < 10000)%Z.
Proof.
  intros L P.
  assert (B : (0 <= digits_val y 0 < 10000)%Z).
  { split; [apply digits_val_nonneg; lia|].
    pose proof (@digits_val_bound y 0%Z ltac:(lia) P) as H.
    rewrite L in H. exact H. }
  split; [|exact B].
  destruct (@parseInt_digits y) as (E & _).
  - destruct y; [discriminate|discriminate].
  - apply Forall_forall. intros c Hc. eapply forallb_in; eauto.
  - rewrite E. apply to_double_small. lia.
Qed.

Lemma toLowerCase_digits y :
  forallb is_digit y = true -> toLowerCase y = y.
Proof.
  induction y as [|c y IH]; [reflexivity|]. simpl. intros H.
  apply andb_true_iff in H. destruct H as (Hc & Hy).
  unfold toLowerCase in *. cbn [flat_map]. rewrite (IH Hy).
  unfold lower_unit, lower1, is_upper.
  unfold is_digit in Hc. apply andb_true_iff in Hc. destruct Hc as (H1 & H2).
  apply N.leb_le in H1, H2.
  replace (c =? 8490)%N with false by (symmetry; apply N.eqb_neq; lia).
  replace (c =? 304)%N with false by (symmetry; apply N.eqb_neq; lia).
  replace (65 <=? c)%N with false by (symmetry; apply N.leb_gt; lia).
  reflexivity.
Qed.

(** What the code computes for a range is the year written at its end,
    or the current year, less the year written at its start. *)
Lemma range_years_span now w :
  (-271821 <= now <= 275760)%Z -> range_shape w ->
  range_years now w = Num (range_span now w)
  /\ (Z.abs (range_span now w) < 2 ^ 19)%Z.
Proof.
  intros Hnow (y1 & s1 & s2 & y2 & -> & L1 & P1 & B1 & B2 & H2).
  destruct (year_value y1 L1 P1) as (E1 & V1).
  assert (N1 : y1 <> []) by (destruct y1; discriminate).
  assert (N2 : y2 <> []) by (destruct H2 as [(L & _)|(_ & L & _)];
                             destruct y2; discriminate).
  assert (Q1 : forallb plain y1 = true)
    by (eapply forallb_impl; [apply digit_plain|exact P1]).
  assert (Q2 : forallb plain y2 = true).
  { destruct H2 as [(_ & P2)|(_ & _ & P2)].
    - eapply forallb_impl; [apply digit_plain|exact P2].
    - eapply forallb_impl; [|exact P2]. intros x Hx.
      apply letter_plain. exact Hx. }
  assert (Es : range_start (y1 ++ s1 ++ 45%N :: s2 ++ y2) = digits_val y1 0).
  { unfold range_start.
    rewrite firstn_app, L1, Nat.sub_diag, firstn_O, app_nil_r.
    rewrite <- L1, firstn_all. reflexivity. }
  assert (El : last (y1 ++ s1 ++ 45%N :: s2 ++ y2) 0%N = last y2 0%N).
  { change (45%N :: s2 ++ y2) with ([45%N] ++ s2 ++ y2).
    rewrite !app_assoc. apply last_app_ne. exact N2. }
  unfold range_years, range_span. rewrite Es.
  rewrite (split_range s1 s2 N1 N2 Q1 Q2 B1 B2). cbn [nth]. rewrite E1.
  unfold range_end. rewrite El.
  destruct H2 as [(L2 & P2)|(W2 & L2 & P2)].
  - destruct (year_value y2 L2 P2) as (E2 & V2).
    rewrite (toLowerCase_digits _ P2).
    assert (Hd : is_digit (last y2 0%N) = true)
      by (eapply forallb_in; [exact P2|apply last_in; exact N2]).
    rewrite Hd.
    assert (Ne : Js.eqb y2 (str "present") = false).
    { unfold Js.eqb. destruct (list_eq_dec N.eq_dec y2 (str "present"))
        as [->|_]; [discriminate|reflexivity]. }
    rewrite Ne, E2.
    assert (Ek : skipn (length (y1 ++ s1 ++ 45%N :: s2 ++ y2) - 4)
                   (y1 ++ s1 ++ 45%N :: s2 ++ y2) = y2).
    { rewrite <- L2. change (45%N :: s2 ++ y2) with ([45%N] ++ s2 ++ y2).
      rewrite !app_assoc. apply skipn_app_exact. }
    rewrite Ek. split; [|lia].
    unfold num_sub, num_opp.
    destruct (digits_val y1 0 =? 0)%Z eqn:Z1.
    + apply Z.eqb_eq in Z1. rewrite Z1. cbn [num_add].
      rewrite Z.sub_0_r. reflexivity.
    + cbn [num_add]. rewrite to_double_small by lia. f_equal.
  - rewrite W2.
    assert (Hd : is_digit (last y2 0%N) = false).
    { apply letter_plain.
      eapply (@forallb_in (fun x => is_lower x || is_upper x));
        [exact P2|apply last_in; exact N2]. }
    rewrite Hd.
    replace (Js.eqb (str "present") (str "present")) with true by reflexivity.
    split; [|lia].
    unfold num_sub, num_opp.
    destruct (digits_val y1 0 =? 0)%Z eqn:Z1.
    + apply Z.eqb_eq in Z1. rewrite Z1. cbn [num_add].
      rewrite Z.sub_0_r. reflexivity.
    + cbn [num_add]. rewrite to_double_small by lia. f_equal.
Qed.

(** *** The loop over the ranges *)

(** What a gathering loop returns: matches of the pattern, no more of
    them than the text has code units left. *)
Lemma while_exec_collected (P : jstring -> Prop) re s :
  1 <= min_len (ast re) ->
  (forall i r, exec_from re s i = Some r -> P (m0 r)) ->
  forall fuel i l0 l,
    Forall P l0 ->
    while_exec fuel re s collect i l0 = Some l ->
    Forall P l /\ length l <= length l0 + (length s - i).
Proof.
  intros Hmin HP. induction fuel as [|fuel IH]; intros i l0 l H0 H;
    [discriminate|].
  rewrite while_exec_S in H.
  destruct (exec_from re s i) as [r|] eqn:E.
  - cbn [collect fst snd] in H.
    destruct (exec_from_bounds _ _ _ E) as (Hi & He & Hl).
    apply IH in H.
    + destruct H as (HF & HL). split; [exact HF|].
      rewrite length_app in HL. cbn [length] in HL.
      unfold mend in *. lia.
    + apply Forall_app. split; [exact H0|].
      constructor; [|constructor]. eapply HP. exact E.
  - inversion H; subst l. split; [exact H0|lia].
Qed.

Lemma sum_spans_nonneg now ranges :
  Forall (fun w => (range_start w <= range_end now w)%Z) ranges ->
  (0 <= sum_spans now ranges)%Z.
Proof.
  induction 1 as [|w l Hw _ IH]; [unfold sum_spans; simpl; lia|].
  assert (H0 : (0 <= range_span now w)%Z) by (unfold range_span; lia).
  unfold sum_spans in *. cbn [map fold_right]. lia.
Qed.

(** The additions of the loop are exact. *)
Lemma fold_ranges_exact now : forall ranges acc,
  (-271821 <= now <= 275760)%Z ->
  Forall range_shape ranges ->
  (Z.abs acc + Z.of_nat (length ranges) * 2 ^ 19 < 2 ^ 53)%Z ->
  fold_left (fun a x => num_add a (range_years now x)) ranges (Num acc)
  = Num (acc + sum_spans now ranges).
Proof.
  induction ranges as [|w l IH]; intros acc Hnow HF Hb.
  - simpl. rewrite Z.add_0_r. reflexivity.
  - inversion HF as [|? ? Hw Hl]; subst.
    destruct (range_years_span Hnow Hw) as (E & B).
    cbn [fold_left]. rewrite E. cbn [num_add].
    replace (Z.of_nat (length (w :: l))) with (Z.of_nat (length l) + 1)%Z
      in Hb by (cbn [length]; lia).
    rewrite to_double_small by lia.
    rewrite IH; [|exact Hnow|exact Hl|lia].
    unfold sum_spans. cbn [map fold_right]. f_equal. lia.
Qed.

Lemma class_digit ci c : class_match ci false [CDigit] c = true -> is_digit c = true.
Proof.
  unfold class_match. simpl. rewrite orb_false_r. auto.
Qed.

(** The number of an explicit phrase is a run of digits. *)
Lemma experience_phrase_number text mt :
  exec experienceRegex text = Some mt ->
  grp mt 1 <> [] /\ forallb is_digit (grp mt 1) = true.
Proof.
  intros E.
  destruct (exec_sound _ _ E) as (k & p' & st' & _ & _ & HM & _ & Hcaps).
  change (flag_i experienceRegex) with true in HM.
  change (flag_m experienceRegex) with false in HM.
  remember (ast experienceRegex) as r eqn:Er. vm_compute in Er. subst r.
  apply M_seq_inv in HM. destruct HM as (s1 & Hg & Htail).
  apply M_group_inv in Hg. destruct Hg as (s0 & Hd & ->).
  pose proof (M_min_len _ _ _ _ _ Hd) as Hmin.
  cbn [M groups] in Hd.
  destruct (@reps_class _ _ _ _ _ _ Hd) as (w & Ew & Hw).
  assert (Hlook : grp_opt mt 1 = Some w).
  { unfold grp_opt. rewrite Hcaps.
    rewrite (@M_frame _ _ 1 _ _ _ Htail).
    - simpl. rewrite (@between_suffix _ _ _ Ew). reflexivity.
    - vm_compute. tauto. }
  unfold grp. rewrite Hlook. split.
  - simpl in Hmin, Ew. rewrite Ew, length_app in Hmin.
    destruct w; [simpl in Hmin; lia | discriminate].
  - apply Forall_forallb.
    eapply Forall_impl; [|exact Hw]. intros c. apply class_digit.
Qed.

Lemma found_ranges_total fuel text :
  length text + 2 <= fuel ->
  exists ranges,
    found_ranges fuel (extractSection text experienceCalcHeaders) = Some ranges.
Proof.
  intros Hf. unfold found_ranges.
  apply while_exec_total.
  - vm_compute. lia.
  - reflexivity.
  - lia.
  - pose proof (extractSection_length text experienceCalcHeaders). lia.
Qed.

(** C2, as stated, fails: a range written with its end before its start
    adds a negative amount. *)
Lemma reversed_range_negative :
  calculateExperience 2026 50 (str "Experience:
2020 - 2018 at Acme Corp") = Some (Num (-2)).
Proof. vm_compute. reflexivity. Qed.

(** The number of a phrase is read as a double: a number of 309 digits
    is too large for one, and one above 2^53 is rounded. *)
Example huge_phrase_infinite :
  calculateExperience 2026 400 huge_phrase_text = Some (Infinity false)
  /\ calculateExperience 2026 50 (str "9007199254740993 years of experience")
     = Some (Num 9007199254740992).
Proof. split; vm_compute; reflexivity. Qed.

(** C2, amended.  Take a text of at most 2^32 code units (more than the
    engines the program runs on let a string hold), fuel for its length
    and a current year that a date of the language can have.  Then the loop
    over the ranges ends, every range it finds is a year of four digits, a
    dash and a year of four digits or the word "present", and
    [calculateExperience] returns a number that is never NaN:
    - from an explicit "N years of experience" phrase, the double nearest
      to [N], which is not negative: [N] itself below 2^53, [Infinity]
      from 2^1024 on;
    - otherwise the exact sum, over the ranges found in the experience
      section, of the year written at the end of the range (the current
      year for "present") less the year written at its start; the sum is
      not negative when no range that is found ends before it starts. *)
Theorem calculateExperience_value (now : Z) (fuel : nat) (text : jstring) :
  length text + 2 <= fuel ->
  (-271821 <= now <= 275760)%Z ->
  (Z.of_nat (length text) <= 2 ^ 32)%Z ->
  exists ranges,
    found_ranges fuel (extractSection text experienceCalcHeaders)
    = Some ranges
    /\ Forall range_shape ranges
    /\ (forall mt, exec experienceRegex text = Some mt ->
          grp mt 1 <> [] /\ forallb is_digit (grp mt 1) = true
          /\ calculateExperience now fuel text
             = Some (to_double (digits_val (grp mt 1) 0))
          /\ nonneg (to_double (digits_val (grp mt 1) 0)))
    /\ (exec experienceRegex text = None ->
          calculateExperience now fuel text
          = Some (Num (sum_spans now ranges))
          /\ (Forall (fun w => (range_start w <= range_end now w)%Z) ranges ->
              (0 <= sum_spans now ranges)%Z)).
Proof.
  intros Hf Hnow Hlen.
  destruct (@found_ranges_total fuel text Hf) as (ranges & R).
  exists ranges. split; [exact R|].
  destruct (@while_exec_collected range_shape yearRegex
              (extractSection text experienceCalcHeaders)
              ltac:(vm_compute; lia)
              (@yearRegex_shape _) fuel 0 [] ranges (Forall_nil _) R)
    as (HF & HL).
  split; [exact HF|]. split.
  - intros mt E. destruct (experience_phrase_number _ E) as (Hne & Hd).
    split; [exact Hne|]. split; [exact Hd|].
    destruct (@parseInt_digits (grp mt 1) Hne) as (Ep & Hz).
    { apply Forall_forall. intros c Hc. eapply forallb_in; eauto. }
    split; [|apply nonneg_to_double; exact Hz].
    unfold calculateExperience. rewrite E, Ep. reflexivity.
  - intros E. split; [|apply sum_spans_nonneg].
    unfold calculateExperience. rewrite E.
    fold experienceCalcHeaders.
    change (Num 0) with
      (fold_left (fun a x => num_add a (range_years now x)) [] (Num 0)).
    rewrite (while_exec_collect yearRegex
               (extractSection text experienceCalcHeaders)
               (fun a x => num_add a (range_years now x)) (Num 0)).
    unfold found_ranges in R. rewrite R. cbn [option_map].
    rewrite fold_ranges_exact; [reflexivity|exact Hnow|exact HF|].
    pose proof (extractSection_length text experienceCalcHeaders) as Hs.
    cbn [length] in HL. change (Z.abs 0) with 0%Z. lia.
Qed.

Lemma calculateExperience_value_witness :
  exists ranges,
    found_ranges 200 (extractSection two_jobs_text experienceCalcHeaders)
    = Some ranges
    /\ calculateExperience 2026 200 two_jobs_text
       = Some (Num (sum_spans 2026 ranges)).
Proof.
  destruct (@calculateExperience_value 2026 200 two_jobs_text)
    as (ranges & R & _ & _ & H).
  - vm_compute. lia.
  - lia.
  - vm_compute. discriminate.
  - exists ranges. split; [exact R|]. apply H. vm_compute. reflexivity.
Defined.

(** ** Technical skills without a section (C3) *)

(** C3, as stated, fails: no section is located in this text, the scan
    of the whole text would find two words, and the result is empty. *)
Lemma no_section_no_keyword_scan :
  extractSection (str "I know python and java") technicalHeaders = []
  /\ keyword_scan 10 (str "I know python and java") = Some (str "python
java")
  /\ extractTechnicalSkills 10 (str "I know python and java") = Some [].
Proof.
  repeat split; vm_compute; reflexivity.
Qed.

(** C3, amended.  When no technical-skills section is located, the result
    is the empty string.  The scan of the whole text for the technology
    words is what is returned when a section is located and the three
    strategies run on it find nothing. *)
Theorem extractTechnicalSkills_fallback (fuel : nat) (text : jstring) :
  (extractSection text technicalHeaders = [] ->
   extractTechnicalSkills fuel text = Some [])
  /\ (extractSection text technicalHeaders <> [] ->
      technical_in_section fuel (extractSection text technicalHeaders)
      = Some [] ->
      extractTechnicalSkills fuel text = keyword_scan fuel text).
Proof.
  unfold extractTechnicalSkills, keyword_scan. split.
  - intros ->. reflexivity.
  - intros Hne Hin.
    destruct (extractSection text technicalHeaders) as [|c s] eqn:E;
      [contradiction|].
    cbn [truthy negb]. rewrite Hin. cbn [length Nat.eqb app].
    destruct (common_tech fuel text); reflexivity.
Qed.

Lemma extractTechnicalSkills_fallback_witness :
  extractTechnicalSkills 10 (str "I know python and java") = Some []
  /\ extractTechnicalSkills 10 category_only_text = Some (str "python
java").
Proof.
  split.
  - apply (extractTechnicalSkills_fallback 10 (str "I know python and java")).
    vm_compute. reflexivity.
  - rewrite (proj2 (extractTechnicalSkills_fallback 10 category_only_text)).
    + vm_compute. reflexivity.
    + vm_compute. discriminate.
    + vm_compute. reflexivity.
Defined.

(** ** The placeholder project (C4) *)

(** C4, as stated, fails: the placeholder's description is not empty. *)
Lemma placeholder_description_not_empty :
  extractProjects 1 (str "") = Some [placeholderProject]
  /\ p_description placeholderProject
     = str "Please add your project description here"
  /\ p_description placeholderProject <> [].
Proof.
  repeat split; try (vm_compute; reflexivity). discriminate.
Qed.

(** C4, amended.  When no projects section is located, or the four
    strategies end and find nothing in it, [extractProjects] returns exactly
    one record: name ["Project"], description ["Please add your project
    description here"], every other field empty. *)
Theorem extractProjects_placeholder (fuel : nat) (text : jstring) :
  extractSection text projectsHeaders = []
  \/ projects_in_section fuel (extractSection text projectsHeaders) = Some [] ->
  extractProjects fuel text = Some [placeholderProject]
  /\ placeholderProject
     = {| p_name := str "Project";
          p_description := str "Please add your project description here";
          p_technologies := []; p_githubLink := []; p_liveLink := [];
          p_startDate := []; p_endDate := []; p_role := [] |}.
Proof.
  intros H. split; [|reflexivity].
  unfold extractProjects.
  destruct (truthy (extractSection text projectsHeaders)) eqn:T.
  - destruct H as [H|H].
    + rewrite H in T. discriminate.
    + rewrite H. reflexivity.
  - reflexivity.
Qed.

Lemma extractProjects_placeholder_witness :
  extractProjects 5 (str "Jane Quinn Public
jane@example.com") = Some [placeholderProject]
  /\ extractProjects 5 (str "Projects:
nothing to show yet") = Some [placeholderProject].
Proof.
  split.
  - apply extractProjects_placeholder. left. vm_compute. reflexivity.
  - apply extractProjects_placeholder. right. vm_compute. reflexivity.
Defined.

(** ** Portfolio URLs (C5) *)

(** C5 does not hold of the code.  The labeled pattern, tried first, has
    no exclusion: a GitHub URL that follows a label is returned as it is.
    The lookahead of the bare pattern only keeps a match from starting at
    ["linkedin.com"] or ["github.com"]: the scan moves on by one code unit
    and the rest of the LinkedIn or GitHub URL is returned as the portfolio.
    A host that only ends in one of the two names is returned whole. *)
Theorem extractPortfolioUrl_returns_excluded :
  extractPortfolioUrl (str "portfolio: github.com/jane")
  = Some (str "https://github.com/jane")
  /\ includes (str "https://github.com/jane") (str "github.com") = true
  /\ extractPortfolioUrl (str "linkedin.com/in/janeq")
     = Some (str "https://inkedin.com/in/janeq")
  /\ extractPortfolioUrl (str "https://www.linkedin.com/in/janeq")
     = Some (str "https://inkedin.com/in/janeq")
  /\ extractPortfolioUrl (str "see github.com/jane/repo")
     = Some (str "https://ithub.com/jane/repo")
  /\ extractPortfolioUrl (str "my-linkedin.com/in/janeq")
     = Some (str "https://my-linkedin.com/in/janeq")
  /\ includes (str "https://my-linkedin.com/in/janeq") (str "linkedin.com")
     = true.
Proof. repeat split; vm_compute; reflexivity. Qed.

(** In a whole parse the LinkedIn URL of the text comes back twice: as
    the LinkedIn URL, and, less its first letter, as the portfolio URL. *)
Example linkedin_url_cross_matched :
  option_map (fun d => (d_linkedinUrl d, d_portfolioUrl d))
    (extractInformation 2026 100 (str "Jane Public
linkedin.com/in/janeq
"))
  = Some (str "https://linkedin.com/in/janeq",
          str "https://inkedin.com/in/janeq").
Proof. vm_compute. reflexivity. Qed.

(** ** URL normalisation (C6) *)

Lemma ensure_prefix_http url :
  startsWith (ensure_prefix url) (str "http") = true.
Proof.
  unfold ensure_prefix.
  destruct (startsWith url (str "http")) eqn:E; simpl; [exact E | reflexivity].
Qed.

Lemma url_loop_http regexes label text u :
  url_loop regexes label text = Some u -> startsWith u (str "http") = true.
Proof.
  induction regexes as [|regex regexes IH]; simpl; [discriminate|].
  destruct (exec regex text) as [mt|]; [|exact IH].
  intros H. inversion H. apply ensure_prefix_http.
Qed.

(** C6, as stated, fails: an [http://] URL is returned as it is. *)
Lemma linkedin_http_url_kept :
  extractLinkedIn (str "linkedin: http://linkedin.com/in/janeq")
  = Some (str "http://linkedin.com/in/janeq")
  /\ startsWith (str "http://linkedin.com/in/janeq") (str "https://") = false.
Proof.
  split; vm_compute; reflexivity.
Qed.

(** C6, amended.  Every LinkedIn or GitHub URL that is extracted starts
    with ["http"]: ["https://"] is put in front of the matched URL unless
    that already starts with ["http"].  In particular the text
    ["linkedin: linkedin.com/in/janeq"] gives
    ["https://linkedin.com/in/janeq"]. *)
Theorem linkedin_github_url_prefix :
  (forall text u,
     extractLinkedIn text = Some u \/ extractGithubUrl text = Some u ->
     startsWith u (str "http") = true)
  /\ (forall url, startsWith url (str "http") = false ->
        ensure_prefix url = str "https://" ++ url)
  /\ (forall url, startsWith url (str "http") = true -> ensure_prefix url = url)
  /\ extractLinkedIn (str "linkedin: linkedin.com/in/janeq")
     = Some (str "https://linkedin.com/in/janeq").
Proof.
  split; [|split; [|split]].
  - intros text u [H|H]; eapply url_loop_http; exact H.
  - intros url H. unfold ensure_prefix. rewrite H. reflexivity.
  - intros url H. unfold ensure_prefix. rewrite H. reflexivity.
  - vm_compute. reflexivity.
Qed.

Lemma linkedin_github_url_prefix_witness :
  startsWith (str "https://github.com/janeq") (str "http") = true
  /\ ensure_prefix (str "github.com/janeq") = str "https://github.com/janeq"
  /\ ensure_prefix (str "http://linkedin.com/in/janeq")
     = str "http://linkedin.com/in/janeq".
Proof.
  destruct linkedin_github_url_prefix as (H1 & H2 & H3 & _).
  split; [|split].
  - apply (H1 (str "see github.com/janeq")). right. vm_compute. reflexivity.
  - apply (H2 (str "github.com/janeq")). vm_compute. reflexivity.
  - apply (H3 (str "http://linkedin.com/in/janeq")). vm_compute. reflexivity.
Defined.

(** ** Names (C7) *)

(** *** Splitting a name at its white space *)

Lemma ws_ast : ast whiteSpaceRegex = Rep 1 None true (Class false [CSpace]).
Proof. reflexivity. Qed.

Lemma ws_class x : class_match false false [CSpace] x = is_space x.
Proof. unfold class_match. simpl. rewrite orb_false_r. reflexivity. Qed.

(** One more white space, or none. *)
Lemma ws_one_hit k p x tl :
  is_space x = true ->
  m false false (Class false [CSpace]) k
    (clear_caps (groups (Class false [CSpace]))
       {| prev := p; rest := x :: tl; caps := [] |})
  = k {| prev := Some x; rest := tl; caps := [] |}.
Proof.
  intros Hx. rewrite m_class_eq. unfold one, clear_caps. cbn [rest caps filter].
  rewrite ws_class, Hx. reflexivity.
Qed.

Lemma ws_one_miss k p tl :
  match tl with [] => true | c :: _ => negb (is_space c) end = true ->
  m false false (Class false [CSpace]) k
    (clear_caps (groups (Class false [CSpace]))
       {| prev := p; rest := tl; caps := [] |})
  = None.
Proof.
  intros Htl. rewrite m_class_eq. unfold one, clear_caps. cbn [rest caps filter].
  destruct tl as [|c tl]; [reflexivity|].
  rewrite ws_class. apply negb_true_iff in Htl. rewrite Htl. reflexivity.
Qed.

(** The greedy star of [\s] runs to the end of the white space. *)
Lemma ws_star : forall gap fuel p tl,
  forallb is_space gap = true ->
  match tl with [] => true | c :: _ => negb (is_space c) end = true ->
  length gap < fuel ->
  repeat (m false false (Class false [CSpace]))
    (groups (Class false [CSpace])) true Some fuel 0 None
    {| prev := p; rest := gap ++ tl; caps := [] |}
  = Some {| prev := last (map Some gap) p; rest := tl; caps := [] |}.
Proof.
  induction gap as [|x gap IH]; intros fuel p tl Hg Htl Hf.
  - destruct fuel as [|fuel]; [simpl in Hf; lia|].
    rewrite repeat_eq. cbn [is_zero Nat.eqb negb app].
    rewrite ws_one_miss by exact Htl. reflexivity.
  - destruct fuel as [|fuel]; [simpl in Hf; lia|].
    simpl in Hg. apply andb_true_iff in Hg. destruct Hg as (Hx & Hg).
    rewrite repeat_eq. cbn [is_zero Nat.eqb negb app].
    rewrite ws_one_hit by exact Hx.
    unfold same_pos. cbn [rest length andb].
    replace (length (gap ++ tl) =? S (length (gap ++ tl))) with false
      by (symmetry; apply Nat.eqb_neq; lia).
    cbn [Nat.pred option_map].
    rewrite IH; [|assumption|assumption|simpl in Hf; lia].
    rewrite map_cons, last_cons. reflexivity.
Qed.

Lemma ws_match_gap x gap p tl :
  forallb is_space (x :: gap) = true ->
  match tl with [] => true | c :: _ => negb (is_space c) end = true ->
  match_here whiteSpaceRegex p (x :: gap ++ tl)
  = Some {| prev := last (map Some (x :: gap)) p; rest := tl; caps := [] |}.
Proof.
  intros Hg Htl. unfold match_here. rewrite ws_ast.
  change (flag_i whiteSpaceRegex) with false.
  change (flag_m whiteSpaceRegex) with false.
  rewrite m_rep_eq, Nat.add_1_r, repeat_eq. cbn [is_zero Nat.eqb negb].
  simpl in Hg. apply andb_true_iff in Hg. destruct Hg as (Hx & Hg).
  rewrite ws_one_hit by exact Hx. cbn [andb Nat.pred option_map].
  rewrite ws_star; [|assumption|assumption|cbn [rest length Nat.add];
                                           rewrite length_app; lia].
  rewrite map_cons, last_cons. reflexivity.
Qed.

Lemma ws_match_token c tl p :
  is_space c = false -> match_here whiteSpaceRegex p (c :: tl) = None.
Proof.
  intros Hc. unfold match_here. rewrite ws_ast.
  change (flag_i whiteSpaceRegex) with false.
  change (flag_m whiteSpaceRegex) with false.
  rewrite m_rep_eq, Nat.add_1_r, repeat_eq. cbn [is_zero Nat.eqb negb].
  apply ws_one_miss. rewrite Hc. reflexivity.
Qed.

Lemma split_go_token : forall w fuel p s' cur,
  forallb (fun c => negb (is_space c)) w = true ->
  ReStr.split_go (length w + fuel) whiteSpaceRegex p (w ++ s') cur
  = ReStr.split_go fuel whiteSpaceRegex (last (map Some w) p) s' (rev w ++ cur).
Proof.
  induction w as [|c w IH]; intros fuel p s' cur Hw; [reflexivity|].
  simpl in Hw. apply andb_true_iff in Hw. destruct Hw as (Hc & Hw).
  apply negb_true_iff in Hc.
  cbn [length Nat.add app ReStr.split_go].
  rewrite (@ws_match_token c _ _ Hc), IH by exact Hw.
  rewrite map_cons, last_cons. cbn [rev]. rewrite <- app_assoc. reflexivity.
Qed.

Lemma token_head w : token w -> exists c u, w = c :: u /\ is_space c = false.
Proof.
  intros (Hne & Hw). destruct w as [|c u]; [congruence|].
  simpl in Hw. apply andb_true_iff in Hw. destruct Hw as (Hc & _).
  exists c, u. split; [reflexivity|apply negb_true_iff; exact Hc].
Qed.

Lemma spaced_head w more :
  token w -> exists c u, spaced w more = c :: u /\ is_space c = false.
Proof.
  intros Hw. destruct (@token_head w Hw) as (c & u & -> & Hc).
  destruct more as [|[gap w'] more]; simpl; eauto.
Qed.

Lemma split_go_spaced : forall more w fuel p cur,
  token w -> Forall gap_token more ->
  length (spaced w more) <= fuel ->
  ReStr.split_go fuel whiteSpaceRegex p (spaced w more) cur
  = (rev cur ++ w) :: map snd more.
Proof.
  induction more as [|[gap w'] more IH]; intros w fuel p cur Hw Hm Hf.
  - cbn [spaced map] in *.
    assert (E := @split_go_token w (fuel - length w) p [] cur (proj2 Hw)).
    rewrite app_nil_r in E.
    replace (length w + (fuel - length w)) with fuel in E by lia.
    rewrite E.
    destruct (fuel - length w); cbn [ReStr.split_go];
      rewrite ?app_nil_r, rev_app_distr, rev_involutive; reflexivity.
  - inversion Hm as [|? ? (Hg & Hb & Hw') Hm']; subst. cbn [fst snd] in *.
    cbn [spaced map] in *. rewrite !length_app in Hf.
    destruct gap as [|x gap]; [congruence|].
    destruct (@spaced_head w' more Hw') as (c & u & Es & Hc).
    assert (E := @split_go_token w (S (fuel - length w - 1)) p
                   ((x :: gap) ++ spaced w' more) cur (proj2 Hw)).
    replace (length w + S (fuel - length w - 1)) with fuel in E
      by (cbn [length] in Hf; lia).
    rewrite E. cbn [ReStr.split_go app].
    rewrite ws_match_gap;
      [|exact Hb|rewrite Es; apply negb_true_iff; exact Hc].
    cbn [rest prev length].
    replace (length (spaced w' more) =? S (length (gap ++ spaced w' more)))
      with false
      by (symmetry; apply Nat.eqb_neq; rewrite length_app; lia).
    cbn [andb]. rewrite rev_app_distr, rev_involutive.
    rewrite IH with (cur := []); [reflexivity|exact Hw'|exact Hm'|cbn [length] in Hf; lia].
Qed.

Lemma split_spaced w more :
  token w -> Forall gap_token more ->
  ReStr.split whiteSpaceRegex (spaced w more) = w :: map snd more.
Proof.
  intros Hw Hm. unfold ReStr.split.
  destruct (@spaced_head w more Hw) as (c & u & Es & _).
  rewrite split_go_spaced by (try assumption; lia).
  rewrite Es. reflexivity.
Qed.

Lemma trimStart_blank a s : blank a -> trimStart (a ++ s) = trimStart s.
Proof.
  unfold blank. induction a as [|c a IH]; intros H; [reflexivity|].
  simpl in H. apply andb_true_iff in H. destruct H as (Hc & H).
  simpl. rewrite Hc. apply IH. exact H.
Qed.

Lemma blank_rev a : blank a -> blank (rev a).
Proof.
  unfold blank. intros H. apply forallb_forall. intros x Hx.
  apply in_rev in Hx. rewrite forallb_forall in H. apply H. exact Hx.
Qed.

Lemma spaced_last : forall more w,
  token w -> Forall gap_token more ->
  exists u c, spaced w more = u ++ [c] /\ is_space c = false.
Proof.
  induction more as [|[gap w'] more IH]; intros w Hw Hm.
  - destruct Hw as (Hne & Hw). cbn [spaced].
    destruct (exists_last Hne) as (u & c & ->).
    exists u, c. split; [reflexivity|].
    rewrite forallb_app in Hw. apply andb_true_iff in Hw.
    destruct Hw as (_ & Hc). simpl in Hc. rewrite andb_true_r in Hc.
    apply negb_true_iff. exact Hc.
  - inversion Hm as [|? ? (Hg & Hb & Hw') Hm']; subst. cbn [fst snd] in *.
    destruct (IH w' Hw' Hm') as (u & c & E & Hc).
    exists (w ++ gap ++ u), c. cbn [spaced]. rewrite E, <- !app_assoc.
    split; [reflexivity|exact Hc].
Qed.

Lemma trim_spaced a b w more :
  blank a -> blank b -> token w -> Forall gap_token more ->
  trim (a ++ spaced w more ++ b) = spaced w more.
Proof.
  intros Ha Hb Hw Hm. unfold trim. rewrite trimStart_blank by exact Ha.
  destruct (@spaced_head w more Hw) as (c & u & Es & Hc).
  destruct (@spaced_last more w Hw Hm) as (v & d & El & Hd).
  rewrite Es. cbn [app trimStart]. rewrite Hc, app_comm_cons, <- Es.
  unfold trimEnd. rewrite rev_app_distr, trimStart_blank by (apply blank_rev; exact Hb).
  rewrite El, rev_app_distr. cbn [rev app trimStart]. rewrite Hd.
  rewrite <- (rev_involutive v) at 2. reflexivity.
Qed.

(** [parseFullName]: the first word, the words between joined by single
    spaces, the last word. *)
Lemma parseFullName_tokens :
  (forall a, blank a ->
     parseFullName a
     = {| firstName := []; middleName := []; lastName := [] |})
  /\ (forall a b w more,
        blank a -> blank b -> token w -> Forall gap_token more ->
        parseFullName (a ++ spaced w more ++ b)
        = {| firstName := w;
             middleName := join (str " ") (removelast (map snd more));
             lastName := last (map snd more) [] |}).
Proof.
  split.
  - intros a Ha. unfold parseFullName.
    assert (E : trim a = []).
    { unfold trim. rewrite <- (app_nil_r a), trimStart_blank by exact Ha.
      reflexivity. }
    rewrite E. reflexivity.
  - intros a b w more Ha Hb Hw Hm. unfold parseFullName.
    rewrite trim_spaced by assumption.
    change (literal false false false "\s+" eq_refl) with whiteSpaceRegex.
    rewrite split_spaced by assumption.
    destruct more as [|[g1 w1] [|[g2 w2] more]]; reflexivity.
Qed.

(** *** A name on the first line *)























(** The rule that splits a name does map ["Jane Q. Public"] to Jane, Q.
    and Public; the patterns that look for the name never hand it that
    line. *)
Example initial_split_when_given :
  parseFullName (str "Jane Q. Public")
  = {| firstName := str "Jane"; middleName := str "Q.";
       lastName := str "Public" |}.
Proof. vm_compute. reflexivity. Qed.

(** The first line is not looked at when a labeled name is found further
    on; and a name of fewer than four words goes on over the end of the
    line when the next line starts with capitalised words. *)
Example top_line_not_returned :
  extractName (str "Jane Quinn Public
My name is Bob")
  = {| firstName := str "is"; middleName := []; lastName := str "Bob" |}
  /\ extractName (str "Jane Public
Software Engineer")
     = {| firstName := str "Jane"; middleName := str "Public Software";
          lastName := str "Engineer" |}.
Proof. split; vm_compute; reflexivity. Qed.



(** ** A parse that does not end (C8) *)

Lemma dated_project_located :
  extractSection dated_project_text projectsHeaders = dated_project_section.
Proof. vm_compute. reflexivity. Qed.

Lemma dated_project_first_three :
  exec_from projectPattern1 dated_project_section 0 = None
  /\ exec_from projectTitleRegex dated_project_section 0 = None
  /\ projects_pattern3 dated_project_section = [].
Proof. repeat split; vm_compute; reflexivity. Qed.

Lemma dated_project_exec :
  exec_from dateProjectRegex dated_project_section 0 = Some dated_project_match.
Proof. vm_compute. reflexivity. Qed.

(** One turn of the loop: a project is pushed, and [lastIndex] is back
    at 0, because the second [exec] of the body found no next project. *)
Lemma dated_project_body acc :
  projects_pattern4_body dated_project_section dated_project_match acc
  = (acc ++ [dated_project_record], Some 0).
Proof. vm_compute. reflexivity. Qed.

Lemma dated_project_loop fuel : forall acc,
  while_exec fuel dateProjectRegex dated_project_section
    (projects_pattern4_body dated_project_section) 0 acc = None.
Proof.
  induction fuel as [|fuel IH]; intros acc; [reflexivity|].
  rewrite while_exec_S, dated_project_exec, dated_project_body.
  cbn [fst snd]. apply IH.
Qed.

Lemma dated_project_never_returns fuel :
  extractProjects fuel dated_project_text = None.
Proof.
  unfold extractProjects. rewrite dated_project_located.
  change (truthy dated_project_section) with true. cbv iota.
  unfold projects_in_section, projects_pattern1, projects_pattern2,
    projects_pattern4.
  destruct dated_project_first_three as (E1 & E2 & E3).
  destruct fuel as [|fuel]; [reflexivity|].
  rewrite !while_exec_S, E1. cbn [length Nat.eqb].
  rewrite E2. cbn [length Nat.eqb]. rewrite E3. cbn [length Nat.eqb].
  rewrite dated_project_exec, dated_project_body. cbn [fst snd].
  rewrite dated_project_loop. reflexivity.
Qed.

(** C8.  The parse is not a total function.  On a text whose projects
    section is found by the fourth strategy alone, the loop of that strategy
    never ends: whatever the fuel, [extractProjects], and with it
    [extractInformation], is still running. *)
Theorem extractInformation_not_total (now : Z) (fuel : nat) :
  extractProjects fuel dated_project_text = None
  /\ extractInformation now fuel dated_project_text = None.
Proof.
  split; [apply dated_project_never_returns|].
  unfold extractInformation. rewrite dated_project_never_returns.
  destruct (extractTechnicalSkills fuel dated_project_text);
    destruct (extractLanguages fuel dated_project_text); reflexivity.
Qed.

(** ** The section locator's guard against short spans (C9) *)

Lemma matched_spans_cons text header headers :
  matched_spans text (header :: headers)
  = match first_match (headerPatterns header) text with
    | Some mt => section_span text header mt :: matched_spans text headers
    | None => matched_spans text headers
    end.
Proof.
  unfold matched_spans. cbn [flat_map].
  destruct (first_match (headerPatterns header) text); reflexivity.
Qed.

(** With more than one synonym in the list, a short span is kept only as
    long as no later synonym is found. *)
Lemma extractSection_loop_guarded text n :
  1 < n ->
  forall headers acc,
    extractSection_loop text n headers acc
    = match find (fun s => 10 <=? length s) (matched_spans text headers) with
      | Some s => s
      | None => last (matched_spans text headers) acc
      end.
Proof.
  intros Hn. apply Nat.ltb_lt in Hn.
  induction headers as [|h hs IH]; intros acc; [reflexivity|].
  rewrite extractSection_loop_cons, matched_spans_cons.
  destruct (first_match (headerPatterns h) text) as [mt|]; [|apply IH].
  rewrite Hn, andb_true_r. cbn [find]. rewrite last_cons.
  rewrite Nat.leb_antisym.
  destruct (length (section_span text h mt) <? 10); [apply IH|reflexivity].
Qed.

(** With one synonym the guard is off. *)
Lemma extractSection_loop_single text n :
  n <= 1 ->
  forall headers acc,
    extractSection_loop text n headers acc
    = hd acc (matched_spans text headers).
Proof.
  intros Hn. assert (E : (1 <? n) = false) by (apply Nat.ltb_ge; exact Hn).
  induction headers as [|h hs IH]; intros acc; [reflexivity|].
  rewrite extractSection_loop_cons, matched_spans_cons.
  destruct (first_match (headerPatterns h) text) as [mt|]; [|apply IH].
  rewrite E, andb_false_r. reflexivity.
Qed.

(** C9, as stated, fails: the span ["Go"] of the first synonym is
    shorter than 10 code units and two synonyms are still untried, yet it
    is what the locator returns. *)
Lemma short_span_accepted_in_the_end :
  first_match (headerPatterns (str "skills")) short_span_text
  = Some short_span_match
  /\ section_span short_span_text (str "skills") short_span_match = str "Go"
  /\ length (str "Go") < 10
  /\ 1 < length short_span_rest
  /\ extractSection short_span_text (str "skills" :: short_span_rest)
     = str "Go".
Proof.
  split; [vm_compute; reflexivity|].
  split; [vm_compute; reflexivity|].
  split; [vm_compute; lia|].
  split; [vm_compute; lia|].
  vm_compute. reflexivity.
Qed.

(** C9, amended.  When the list holds more than one synonym, a span
    shorter than 10 code units does not end the search: [extractSection]
    returns the span of the first synonym, in the order of the list, whose
    header is found with a span of 10 code units or more; when there is
    none, the span of the last synonym whose header is found, short as it
    is; and the empty text when no header is found.  The test is on the
    length of the whole list, not on the synonyms still untried.  With one
    synonym the span of its header is returned whatever its length. *)
Theorem extractSection_short_span_guard
    (text : jstring) (headers : list jstring) :
  (1 < length headers ->
   extractSection text headers
   = match find (fun s => 10 <=? length s) (matched_spans text headers) with
     | Some s => s
     | None => last (matched_spans text headers) []
     end)
  /\ (length headers <= 1 ->
      extractSection text headers = hd [] (matched_spans text headers)).
Proof.
  unfold extractSection. split; intros H.
  - apply extractSection_loop_guarded. exact H.
  - apply extractSection_loop_single. exact H.
Qed.

Lemma extractSection_short_span_guard_witness :
  extractSection two_skill_sections_text (str "skills" :: short_span_rest)
  = str "Rocq, OCaml, Haskell"
  /\ matched_spans two_skill_sections_text (str "skills" :: short_span_rest)
     = [str "Go"; str "Rocq, OCaml, Haskell"]
  /\ extractSection short_span_text (str "skills" :: short_span_rest)
     = last (matched_spans short_span_text (str "skills" :: short_span_rest)) []
  /\ extractSection short_span_text [str "skills"] = str "Go".
Proof.
  split; [|split; [|split]].
  - rewrite (proj1 (extractSection_short_span_guard two_skill_sections_text
                      (str "skills" :: short_span_rest))).
    + vm_compute. reflexivity.
    + vm_compute. lia.
  - vm_compute. reflexivity.
  - rewrite (proj1 (extractSection_short_span_guard short_span_text
                      (str "skills" :: short_span_rest))).
    + vm_compute. reflexivity.
    + vm_compute. lia.
  - rewrite (proj2 (extractSection_short_span_guard short_span_text
                      [str "skills"])).
    + vm_compute. reflexivity.
    + vm_compute. lia.
Defined.

(** ** Date ranges: both ends or none (C10) *)

Lemma is_open_end_or w :
  w <> [] -> (if is_open_end w then str "Present" else w) <> [].
Proof.
  intros Hw. destruct (is_open_end w); [discriminate | exact Hw].
Qed.

Lemma extractDateRange_loop_spec ps text :
  Forall (fun p => exists a b, cap_min 1 (ast p) = Some (S a)
                               /\ cap_min 2 (ast p) = Some (S b)) ps ->
  (date_pattern_found ps text = false
   /\ extractDateRange_loop ps text = {| startDate := []; endDate := [] |})
  \/ (date_pattern_found ps text = true
      /\ startDate (extractDateRange_loop ps text) <> []
      /\ endDate (extractDateRange_loop ps text) <> []).
Proof.
  induction 1 as [|p ps (a & b & H1 & H2) _ IH]; simpl.
  - left. auto.
  - unfold test. destruct (exec p text) as [mt|] eqn:E; simpl.
    + right.
      destruct (exec_cap _ _ _ H1 E) as (w1 & G1 & L1).
      destruct (exec_cap _ _ _ H2 E) as (w2 & G2 & L2).
      unfold grp. rewrite G1, G2.
      split; [reflexivity|]. split.
      * destruct w1; [simpl in L1; lia | discriminate].
      * apply is_open_end_or. destruct w2; [simpl in L2; lia | discriminate].
    + exact IH.
Qed.

(** C10.  For every text, [extractDateRange] returns a record whose
    [startDate] and [endDate] are both empty, when none of the three
    date-range patterns matches, or both non-empty, when one does: one end is
    never filled without the other.  (Both capture groups take part in
    every match of each pattern, so neither is ever [undefined].) *)
Theorem extractDateRange_both_or_neither (text : jstring) :
  (date_pattern_found dateRangePatterns text = false
   /\ startDate (extractDateRange text) = []
   /\ endDate (extractDateRange text) = [])
  \/ (date_pattern_found dateRangePatterns text = true
      /\ startDate (extractDateRange text) <> []
      /\ endDate (extractDateRange text) <> []).
Proof.
  unfold extractDateRange.
  destruct (extractDateRange_loop_spec (ps := dateRangePatterns) text)
    as [(Hf & E) | H].
  - repeat constructor; eexists _, _; split; vm_compute; reflexivity.
  - left. rewrite E. auto.
  - right. exact H.
Qed.

(** ** Loops that end and loops that do not *)

Lemma exec_from_0 re s : exec_from re s 0 = exec re s.
Proof. reflexivity. Qed.

Lemma last_firstn_S (s : jstring) : forall i x tl,
  skipn i s = x :: tl ->
  last (map Some (firstn (S i) s)) None = Some x.
Proof.
  induction s as [|c s IH]; intros i x tl H.
  - destruct i; discriminate.
  - destruct i as [|i].
    + simpl in H. inversion H; subst. reflexivity.
    + simpl in H. specialize (IH _ _ _ H).
      change (firstn (S (S i)) (c :: s)) with (c :: firstn (S i) s).
      cbn [map].
      destruct (map Some (firstn (S i) s)) as [|o l] eqn:E.
      * destruct s; [destruct i; discriminate|discriminate].
      * exact IH.
Qed.

(** The scan from [i] tries [i] and then goes on from [i + 1]. *)
Lemma exec_from_step re s i :
  i <= length s ->
  exec_from re s i
  = match match_here re (last (map Some (firstn i s)) None) (skipn i s) with
    | Some st' =>
        Some {| index := i;
                m0 := firstn (length (skipn i s) - length (rest st')) (skipn i s);
                mcaps := caps st' |}
    | None => if i <? length s then exec_from re s (S i) else None
    end.
Proof.
  intros Hi. unfold exec_from.
  destruct (length s <? i) eqn:E; [apply Nat.ltb_lt in E; lia|].
  destruct (skipn i s) as [|x tl] eqn:Es.
  - simpl. destruct (match_here _ _ _); [reflexivity|].
    assert (length (skipn i s) = 0) by (rewrite Es; reflexivity).
    rewrite length_skipn in H.
    destruct (i <? length s) eqn:E2; [apply Nat.ltb_lt in E2; lia|reflexivity].
  - cbn [scan]. destruct (match_here _ _ _); [reflexivity|].
    assert (length (skipn i s) = S (length tl)) by (rewrite Es; reflexivity).
    rewrite length_skipn in H.
    destruct (i <? length s) eqn:E2; [|apply Nat.ltb_ge in E2; lia].
    destruct (length s <? S i) eqn:E3; [apply Nat.ltb_lt in E3; lia|].
    rewrite (last_firstn_S _ _ Es).
    replace (skipn (S i) s) with tl; [reflexivity|].
    change (S i) with (1 + i). rewrite <- skipn_skipn, Es. reflexivity.
Qed.

(** A match found from a later index is not missed from an earlier one. *)
Lemma exec_from_earlier re s : forall d i,
  exec_from re s (i + d) <> None -> exec_from re s i <> None.
Proof.
  induction d as [|d IH]; intros i H.
  - rewrite Nat.add_0_r in H. exact H.
  - assert (Hi : S i <= length s).
    { unfold exec_from in H. destruct (length s <? i + S d) eqn:E; [congruence|].
      apply Nat.ltb_ge in E. lia. }
    replace (i + S d) with (S i + d) in H by lia.
    apply IH in H. rewrite exec_from_step by lia.
    destruct (match_here _ _ _); [discriminate|].
    destruct (i <? length s) eqn:E; [exact H|apply Nat.ltb_ge in E; lia].
Qed.

Lemma exec_from_le re s i j :
  i <= j -> exec_from re s j <> None -> exec_from re s i <> None.
Proof.
  intros Hij H. replace j with (i + (j - i)) in H by lia.
  eapply exec_from_earlier; eauto.
Qed.

(** A loop whose body puts [lastIndex] back where a match can be found
    never ends. *)
Lemma while_exec_never (A : Type) re s (body : mresult -> A -> A * option nat) :
  (forall r a, exists j, snd (body r a) = Some j /\ exec_from re s j <> None) ->
  forall fuel i acc, exec_from re s i <> None ->
    while_exec fuel re s body i acc = None.
Proof.
  intros Hb. induction fuel as [|fuel IH]; intros i acc H; [reflexivity|].
  rewrite while_exec_S. destruct (exec_from re s i) as [r|] eqn:E; [|congruence].
  destruct (Hb r acc) as (j & Ej & Hj). rewrite Ej. apply IH. exact Hj.
Qed.

(** A loop whose body pushes a record on every turn gives the empty list
    only when it starts from the empty list and finds no match. *)
Lemma while_exec_nil (A : Type) re s
    (body : mresult -> list A -> list A * option nat) :
  (forall r a, fst (body r a) <> []) ->
  forall fuel i acc l,
    while_exec fuel re s body i acc = Some l ->
    (l = [] <-> acc = [] /\ exec_from re s i = None).
Proof.
  intros Hb. induction fuel as [|fuel IH]; intros i acc l H; [discriminate|].
  rewrite while_exec_S in H.
  destruct (exec_from re s i) as [r|] eqn:E.
  - apply IH in H. split.
    + intros Hl. apply H in Hl. destruct Hl as (Hl & _).
      exfalso. exact (Hb _ _ Hl).
    + intros (_ & Hn). discriminate.
  - inversion H; subst l. tauto.
Qed.

Lemma test_exec re s : test re s = true <-> exec re s <> None.
Proof.
  unfold test. destruct (exec re s); split; congruence.
Qed.

Lemma test_exec_false re s : test re s = false <-> exec re s = None.
Proof.
  unfold test. destruct (exec re s); split; congruence.
Qed.

Lemma app_one_not_nil (A : Type) (l : list A) x : l ++ [x] <> [].
Proof. destruct l; discriminate. Qed.

Lemma projects_pattern4_body_index section r a :
  exec dateProjectRegex section <> None ->
  exists j, snd (projects_pattern4_body section r a) = Some j
            /\ exec_from dateProjectRegex section j <> None.
Proof.
  intros H0. unfold projects_pattern4_body. cbn [snd].
  destruct (exec_from dateProjectRegex section (index r + length (m0 r)))
    eqn:E; eexists; (split; [reflexivity|]).
  - rewrite E. discriminate.
  - exact H0.
Qed.

Lemma work_pattern4_body_index section r a :
  exec academicPositionRegex section <> None ->
  exists j, snd (work_pattern4_body section r a) = Some j
            /\ exec_from academicPositionRegex section j <> None.
Proof.
  intros H0. unfold work_pattern4_body. cbn [snd].
  destruct (exec_from academicPositionRegex section (index r + length (m0 r)))
    eqn:E; eexists; (split; [reflexivity|]).
  - rewrite E. discriminate.
  - exact H0.
Qed.

Lemma pattern4_loop (A : Type) re s (body : mresult -> A -> A * option nat) a0 :
  (exec re s <> None ->
   forall r a, exists j, snd (body r a) = Some j /\ exec_from re s j <> None) ->
  forall fuel, 1 <= fuel ->
    while_exec fuel re s body 0 a0 = if test re s then None else Some a0.
Proof.
  intros Hb fuel Hf. destruct (test re s) eqn:E.
  - apply test_exec in E. apply while_exec_never; [apply Hb; exact E|exact E].
  - apply test_exec_false in E. destruct fuel as [|fuel]; [lia|].
    rewrite while_exec_S. change (exec_from re s 0) with (exec re s).
    rewrite E. reflexivity.
Qed.

Lemma projects_pattern4_never_yields_aux fuel section :
  1 <= fuel ->
  projects_pattern4 fuel section
  = if test dateProjectRegex section then None else Some [].
Proof.
  intros Hf. unfold projects_pattern4. apply pattern4_loop; [|exact Hf].
  intros H r a. apply projects_pattern4_body_index. exact H.
Qed.

(** X1.  The fourth strategy of [extractProjects], the loop over the
    projects with a date in parentheses, returns only when the section
    holds no such project, and then it returns no project: where the
    pattern matches, no amount of fuel lets the loop end. *)
Theorem projects_pattern4_never_yields (fuel : nat) (section : jstring) :
  1 <= fuel ->
  projects_pattern4 fuel section
  = if test dateProjectRegex section then None else Some [].
Proof. apply projects_pattern4_never_yields_aux. Qed.

Lemma projects_pattern4_never_yields_witness :
  projects_pattern4 3 dated_project_section = None
  /\ projects_pattern4 3 (str "My Cool App, 2020") = Some [].
Proof.
  split.
  - rewrite (@projects_pattern4_never_yields 3 dated_project_section); [|lia].
    vm_compute. reflexivity.
  - rewrite (@projects_pattern4_never_yields 3 (str "My Cool App, 2020")); [|lia].
    vm_compute. reflexivity.
Defined.

Lemma work_pattern4_never_yields_aux fuel section :
  1 <= fuel ->
  work_pattern4 fuel section
  = if test academicPositionRegex section then None else Some [].
Proof.
  intros Hf. unfold work_pattern4. apply pattern4_loop; [|exact Hf].
  intros H r a. apply work_pattern4_body_index. exact H.
Qed.

(** X2.  The fourth strategy of [extractWorkExperience], the loop over
    the academic positions, returns only when the section holds no such
    position, and then it returns no entry: where the pattern matches, no
    amount of fuel lets the loop end. *)
Theorem work_pattern4_never_yields (fuel : nat) (section : jstring) :
  1 <= fuel ->
  work_pattern4 fuel section
  = if test academicPositionRegex section then None else Some [].
Proof. apply work_pattern4_never_yields_aux. Qed.

Lemma work_pattern4_never_yields_witness :
  work_pattern4 3 (str "Lecturer at MIT") = None
  /\ work_pattern4 3 (str "Engineer, Acme") = Some [].
Proof.
  split.
  - rewrite (@work_pattern4_never_yields 3 (str "Lecturer at MIT")); [|lia].
    vm_compute. reflexivity.
  - rewrite (@work_pattern4_never_yields 3 (str "Engineer, Acme")); [|lia].
    vm_compute. reflexivity.
Defined.

(** A loop that pushes on every turn and leaves [lastIndex] alone ends,
    with the empty list exactly when the pattern does not match. *)
Lemma push_loop (A : Type) re s
    (body : mresult -> list A -> list A * option nat) fuel :
  1 <= min_len (ast re) ->
  (forall r a, snd (body r a) = None) ->
  (forall r a, fst (body r a) <> []) ->
  length s + 2 <= fuel ->
  exists l, while_exec fuel re s body 0 [] = Some l
            /\ (l = [] <-> test re s = false).
Proof.
  intros Hmin Hn Hp Hf.
  destruct (@while_exec_total _ re s body Hmin Hn fuel 0 []) as (l & El);
    [lia|lia|].
  exists l. split; [exact El|].
  rewrite (while_exec_nil _ _ _ Hp _ _ _ El), test_exec_false.
  change (exec_from re s 0) with (exec re s). tauto.
Qed.

Lemma projects_pattern1_ends fuel s :
  length s + 2 <= fuel ->
  exists l, projects_pattern1 fuel s = Some l
            /\ (l = [] <-> test projectPattern1 s = false).
Proof.
  apply push_loop.
  - vm_compute. lia.
  - reflexivity.
  - intros r a. apply app_one_not_nil.
Qed.

Lemma projects_pattern2_ends fuel s :
  length s + 2 <= fuel ->
  exists l, projects_pattern2 fuel s = Some l
            /\ (l = [] <-> test projectTitleRegex s = false).
Proof.
  apply push_loop.
  - vm_compute. lia.
  - intros r a. cbv beta zeta.
    destruct (tech_split techIndicators _). reflexivity.
  - intros r a. cbv beta zeta.
    destruct (tech_split techIndicators _). apply app_one_not_nil.
Qed.

Lemma work_pattern1_ends fuel s :
  length s + 2 <= fuel ->
  exists l, work_pattern1 fuel s = Some l
            /\ (l = [] <-> test companyLabeledRegex s = false).
Proof.
  apply push_loop.
  - vm_compute. lia.
  - reflexivity.
  - intros r a. apply app_one_not_nil.
Qed.

Lemma work_pattern2_ends fuel s :
  length s + 2 <= fuel ->
  exists l, work_pattern2 fuel s = Some l
            /\ (l = [] <-> test companyDateRegex s = false).
Proof.
  apply push_loop.
  - vm_compute. lia.
  - intros r a. unfold work_pattern2_body. cbv zeta.
    destruct (first_bullet_fix _ _). reflexivity.
  - intros r a. unfold work_pattern2_body. cbv zeta.
    destruct (first_bullet_fix _ _). apply app_one_not_nil.
Qed.

Lemma length_eqb_nil (A : Type) (l : list A) :
  (length l =? 0) = match l with [] => true | _ => false end.
Proof. destruct l; reflexivity. Qed.

Lemma projects_in_section_none fuel s :
  length s + 2 <= fuel ->
  (projects_in_section fuel s = None
   <-> test projectPattern1 s = false /\ test projectTitleRegex s = false
       /\ projects_pattern3 s = [] /\ test dateProjectRegex s = true).
Proof.
  intros Hf. unfold projects_in_section.
  destruct (projects_pattern1_ends _ Hf) as (l1 & E1 & H1).
  destruct (projects_pattern2_ends _ Hf) as (l2 & E2 & H2).
  rewrite E1, length_eqb_nil.
  destruct l1 as [|x1 l1].
  - rewrite E2, length_eqb_nil. destruct l2 as [|x2 l2].
    + rewrite length_eqb_nil.
      destruct (projects_pattern3 s) as [|x3 l3] eqn:E3.
      * rewrite projects_pattern4_never_yields_aux by lia.
        destruct (test dateProjectRegex s).
        -- split; [intros _|reflexivity].
           repeat split; [apply H1|apply H2]; reflexivity.
        -- split; [discriminate|]. intros (_ & _ & _ & H). discriminate.
      * split; [discriminate|]. intros (_ & _ & H & _). discriminate.
    + cbn [length Nat.eqb]. split; [discriminate|].
      intros (_ & H & _). apply H2 in H. discriminate.
  - cbn [length Nat.eqb]. split; [discriminate|].
    intros (H & _). apply H1 in H. discriminate.
Qed.

Lemma work_in_section_none fuel s :
  length s + 2 <= fuel ->
  (work_in_section fuel s = None
   <-> test companyLabeledRegex s = false /\ test companyDateRegex s = false
       /\ work_pattern3 s = [] /\ test academicPositionRegex s = true).
Proof.
  intros Hf. unfold work_in_section.
  destruct (work_pattern1_ends _ Hf) as (l1 & E1 & H1).
  destruct (work_pattern2_ends _ Hf) as (l2 & E2 & H2).
  unfold work_pattern1 in E1. unfold work_pattern2 in E2.
  rewrite E1, length_eqb_nil.
  destruct l1 as [|x1 l1].
  - rewrite E2, length_eqb_nil. destruct l2 as [|x2 l2].
    + rewrite length_eqb_nil.
      destruct (work_pattern3 s) as [|x3 l3] eqn:E3.
      * assert (E4 := @work_pattern4_never_yields_aux fuel s).
        unfold work_pattern4 in E4. rewrite E4 by lia.
        destruct (test academicPositionRegex s).
        -- split; [intros _|reflexivity].
           repeat split; [apply H1|apply H2]; reflexivity.
        -- split; [discriminate|]. intros (_ & _ & _ & H). discriminate.
      * split; [discriminate|]. intros (_ & _ & H & _). discriminate.
    + cbn [length Nat.eqb]. split; [discriminate|].
      intros (_ & H & _). apply H2 in H. discriminate.
  - cbn [length Nat.eqb]. split; [discriminate|].
    intros (H & _). apply H1 in H. discriminate.
Qed.

Lemma extractProjects_none fuel text :
  length text + 2 <= fuel ->
  (extractProjects fuel text = None
   <-> test projectPattern1 (extractSection text projectsHeaders) = false
       /\ test projectTitleRegex (extractSection text projectsHeaders) = false
       /\ projects_pattern3 (extractSection text projectsHeaders) = []
       /\ test dateProjectRegex (extractSection text projectsHeaders) = true).
Proof.
  intros Hf. unfold extractProjects.
  assert (Hl := extractSection_length text projectsHeaders).
  destruct (extractSection text projectsHeaders) as [|c s] eqn:Es.
  - cbn [truthy length Nat.eqb]. split; [discriminate|].
    intros (_ & _ & _ & H). vm_compute in H. discriminate.
  - cbn [truthy]. rewrite <- (@projects_in_section_none fuel (c :: s)) by lia.
    destruct (projects_in_section fuel (c :: s)) as [l|].
    + destruct (length l =? 0); split; discriminate.
    + tauto.
Qed.

Lemma extractWorkExperience_none fuel text :
  length text + 2 <= fuel ->
  (extractWorkExperience fuel text = None
   <-> test companyLabeledRegex (extractSection text experienceHeaders) = false
       /\ test companyDateRegex (extractSection text experienceHeaders) = false
       /\ work_pattern3 (extractSection text experienceHeaders) = []
       /\ test academicPositionRegex (extractSection text experienceHeaders) = true).
Proof.
  intros Hf. unfold extractWorkExperience.
  assert (Hl := extractSection_length text experienceHeaders).
  destruct (extractSection text experienceHeaders) as [|c s] eqn:Es.
  - cbn [truthy length Nat.eqb]. split; [discriminate|].
    intros (_ & _ & _ & H). vm_compute in H. discriminate.
  - cbn [truthy]. rewrite <- (@work_in_section_none fuel (c :: s)) by lia.
    destruct (work_in_section fuel (c :: s)) as [l|].
    + destruct (length l =? 0); split; discriminate.
    + tauto.
Qed.

(** X3.  With fuel for the length of the text, [extractProjects] fails
    to return exactly when the first three strategies find no project in
    the projects section and the pattern of the fourth matches in it. *)
Theorem extractProjects_runs_forever_iff (fuel : nat) (text : jstring) :
  length text + 2 <= fuel ->
  (extractProjects fuel text = None
   <-> test projectPattern1 (extractSection text projectsHeaders) = false
       /\ test projectTitleRegex (extractSection text projectsHeaders) = false
       /\ projects_pattern3 (extractSection text projectsHeaders) = []
       /\ test dateProjectRegex (extractSection text projectsHeaders) = true).
Proof. apply extractProjects_none. Qed.

Lemma extractProjects_runs_forever_iff_witness :
  extractProjects 60 dated_project_text = None
  /\ extractProjects 60 (str "Projects:
My Cool App, 2020") <> None.
Proof.
  split.
  - apply (@extractProjects_runs_forever_iff 60 dated_project_text).
    + vm_compute. lia.
    + vm_compute. repeat split; reflexivity.
  - intros H.
    apply (@extractProjects_runs_forever_iff 60 (str "Projects:
My Cool App, 2020")) in H.
    + destruct H as (_ & _ & _ & H). vm_compute in H. discriminate.
    + vm_compute. lia.
Defined.

(** X4.  With fuel for the length of the text, [extractWorkExperience]
    fails to return exactly when the first three strategies find no entry
    in the experience section and the pattern of the fourth matches in
    it. *)
Theorem extractWorkExperience_runs_forever_iff (fuel : nat) (text : jstring) :
  length text + 2 <= fuel ->
  (extractWorkExperience fuel text = None
   <-> test companyLabeledRegex (extractSection text experienceHeaders) = false
       /\ test companyDateRegex (extractSection text experienceHeaders) = false
       /\ work_pattern3 (extractSection text experienceHeaders) = []
       /\ test academicPositionRegex (extractSection text experienceHeaders) = true).
Proof. apply extractWorkExperience_none. Qed.

Lemma extractWorkExperience_runs_forever_iff_witness :
  extractWorkExperience 50 (str "Experience:
Research Assistant at MIT") = None
  /\ extractWorkExperience 200 two_jobs_text <> None.
Proof.
  split.
  - apply (@extractWorkExperience_runs_forever_iff 50 (str "Experience:
Research Assistant at MIT")).
    + vm_compute. lia.
    + vm_compute. repeat split; reflexivity.
  - intros H.
    apply (@extractWorkExperience_runs_forever_iff 200 two_jobs_text) in H.
    + destruct H as (_ & _ & _ & H). vm_compute in H. discriminate.
    + vm_compute. lia.
Defined.

(** More turns than a loop needs change nothing. *)
Lemma while_exec_more (A : Type) re s (body : mresult -> A -> A * option nat) :
  forall fuel fuel' i acc a,
    while_exec fuel re s body i acc = Some a -> fuel <= fuel' ->
    while_exec fuel' re s body i acc = Some a.
Proof.
  induction fuel as [|fuel IH]; intros fuel' i acc a H Hf; [discriminate|].
  destruct fuel' as [|fuel']; [lia|].
  rewrite while_exec_S in *.
  destruct (exec_from re s i); [|exact H].
  eapply IH; [exact H|lia].
Qed.

Lemma loop_ends (A : Type) re s (body : mresult -> A -> A * option nat) acc :
  1 <= min_len (ast re) ->
  (forall r a, snd (body r a) = None) ->
  exists a, forall fuel, length s + 2 <= fuel ->
    while_exec fuel re s body 0 acc = Some a.
Proof.
  intros Hmin Hn.
  destruct (@while_exec_total _ re s body Hmin Hn (length s + 2) 0 acc)
    as (a & Ea); [lia|lia|].
  exists a. intros fuel Hf. eapply while_exec_more; [exact Ea|exact Hf].
Qed.

Lemma technical_in_section_ends s :
  exists l, forall fuel, length s + 2 <= fuel ->
    technical_in_section fuel s = Some l.
Proof.
  unfold technical_in_section. apply loop_ends; [vm_compute; lia|reflexivity].
Qed.

Lemma common_tech_ends s :
  exists l, forall fuel, length s + 2 <= fuel -> common_tech fuel s = Some l.
Proof.
  unfold common_tech. apply loop_ends; [vm_compute; lia|reflexivity].
Qed.

Lemma extractTechnicalSkills_ends text :
  exists skills, forall fuel, length text + 2 <= fuel ->
    extractTechnicalSkills fuel text = Some skills.
Proof.
  unfold extractTechnicalSkills.
  assert (Hl := extractSection_length text technicalHeaders).
  destruct (truthy (extractSection text technicalHeaders)); cbn [negb];
    [|exists []; reflexivity].
  destruct (technical_in_section_ends (extractSection text technicalHeaders))
    as (l & El).
  destruct (common_tech_ends text) as (l' & El').
  exists (if length l =? 0 then join nl (l ++ l') else join nl l).
  intros fuel Hf. rewrite El by lia.
  destruct (length l =? 0); [rewrite El' by lia|]; reflexivity.
Qed.

Lemma extractLanguages_ends text :
  exists languages, forall fuel, length text + 2 <= fuel ->
    extractLanguages fuel text = Some languages.
Proof.
  unfold extractLanguages.
  assert (Hl := extractSection_length text languagesHeaders).
  destruct (truthy (extractSection text languagesHeaders)); cbn [negb];
    [|exists []; reflexivity].
  cbv zeta.
  match goal with
  | |- exists l, forall fuel, _ ->
         match while_exec _ ?re ?s ?body 0 ?acc with _ => _ end = _ =>
      destruct (@loop_ends _ re s body acc) as (l1 & E1);
        [vm_compute; lia|reflexivity|]
  end.
  match goal with
  | |- exists l, forall fuel, _ ->
         match _ with
         | Some l0 => match while_exec _ ?re ?s ?body 0 _ with _ => _ end
         | None => _ end = _ =>
      destruct (@loop_ends _ re s body l1) as (l2 & E2);
        [vm_compute; lia|reflexivity|]
  end.
  eexists. intros fuel Hf. rewrite E1 by lia. rewrite E2 by lia. reflexivity.
Qed.

Lemma calculateExperience_ends now text :
  exists v, forall fuel, length text + 2 <= fuel ->
    calculateExperience now fuel text = Some v.
Proof.
  unfold calculateExperience.
  destruct (exec experienceRegex text) as [mt|]; [eexists; reflexivity|].
  assert (Hl := extractSection_length text experienceCalcHeaders).
  match goal with
  | |- exists l, forall fuel, _ ->
         match while_exec _ ?re ?s ?body 0 ?acc with _ => _ end = _ =>
      destruct (@loop_ends _ re s body acc) as (l1 & E1);
        [vm_compute; lia|reflexivity|]
  end.
  eexists. intros fuel Hf. rewrite E1 by lia. reflexivity.
Qed.

(** X5.  With fuel for the length of the text, [extractInformation]
    fails to return exactly when [extractProjects] or
    [extractWorkExperience] does: every other loop of the parser ends. *)
Theorem extractInformation_returns_iff (now : Z) (fuel : nat) (text : jstring) :
  length text + 2 <= fuel ->
  (extractInformation now fuel text = None
   <-> extractProjects fuel text = None
       \/ extractWorkExperience fuel text = None).
Proof.
  intros Hf. unfold extractInformation.
  destruct (extractTechnicalSkills_ends text) as (t & Et).
  destruct (extractLanguages_ends text) as (l & El).
  destruct (calculateExperience_ends now text) as (v & Ev).
  rewrite (Et _ Hf), (El _ Hf), (Ev _ Hf).
  destruct (extractProjects fuel text) as [ps|];
    destruct (extractWorkExperience fuel text) as [ws|];
    split; try discriminate; auto.
  intros [H|H]; discriminate.
Qed.

Lemma extractInformation_returns_iff_witness :
  extractInformation 2026 60 dated_project_text = None
  /\ extractInformation 2026 200 two_jobs_text <> None.
Proof.
  split.
  - apply (@extractInformation_returns_iff 2026 60 dated_project_text).
    + vm_compute. lia.
    + left. vm_compute. reflexivity.
  - intros H.
    apply (@extractInformation_returns_iff 2026 200 two_jobs_text) in H.
    + destruct H as [H|H]; vm_compute in H; discriminate.
    + vm_compute. lia.
Defined.

Lemma while_exec_inv (A : Type) (P : A -> Prop) re s
    (body : mresult -> A -> A * option nat) :
  (forall r a, P a -> P (fst (body r a))) ->
  forall fuel i acc a,
    P acc -> while_exec fuel re s body i acc = Some a -> P a.
Proof.
  intros Hb. induction fuel as [|fuel IH]; intros i acc a Ha H; [discriminate|].
  rewrite while_exec_S in H.
  destruct (exec_from re s i) as [r|].
  - eapply IH; [|exact H]. apply Hb. exact Ha.
  - inversion H; subst. exact Ha.
Qed.

Lemma fold_left_inv (A B : Type) (P : A -> Prop) (f : A -> B -> A) :
  (forall a b, P a -> P (f a b)) ->
  forall l a, P a -> P (fold_left f l a).
Proof.
  intros Hf. induction l as [|b l IH]; intros a Ha; [exact Ha|].
  simpl. apply IH. apply Hf. exact Ha.
Qed.

Lemma or_null_link o :
  (forall u, o = Some u -> startsWith u (str "http") = true) ->
  link_ok (or_null o []).
Proof.
  intros H. destruct o as [u|]; [|left; reflexivity].
  unfold or_null, or_str. destruct (truthy u); [right; auto|left; reflexivity].
Qed.

Lemma mk_project_links name description technologies block roleText dateRange :
  link_ok (p_githubLink (mk_project name description technologies block
                           roleText dateRange))
  /\ link_ok (p_liveLink (mk_project name description technologies block
                            roleText dateRange)).
Proof.
  split; cbn [mk_project p_githubLink p_liveLink]; apply or_null_link;
    intros u H; eapply url_loop_http; exact H.
Qed.

Lemma Forall_push (A : Type) (P : A -> Prop) l x :
  Forall P l -> P x -> Forall P (l ++ [x]).
Proof.
  intros Hl Hx. apply Forall_app. split; [exact Hl|]. constructor; auto.
Qed.

Lemma projects_in_section_links fuel s l :
  projects_in_section fuel s = Some l -> Forall project_links_ok l.
Proof.
  unfold projects_in_section. intros H.
  destruct (projects_pattern1 fuel s) as [l1|] eqn:E1; [|discriminate].
  assert (H1 : Forall project_links_ok l1).
  { unfold projects_pattern1 in E1.
    eapply (@while_exec_inv _ (Forall project_links_ok)); [|constructor|exact E1].
    intros r a Ha. cbn [fst]. apply Forall_push; [exact Ha|].
    apply mk_project_links. }
  destruct (if length l1 =? 0 then projects_pattern2 fuel s else Some l1)
    as [l2|] eqn:E2; [|discriminate].
  assert (H2 : Forall project_links_ok l2).
  { destruct (length l1 =? 0); [|inversion E2; subst; exact H1].
    unfold projects_pattern2 in E2.
    eapply (@while_exec_inv _ (Forall project_links_ok)); [|constructor|exact E2].
    intros r a Ha. cbv beta zeta. destruct (tech_split techIndicators _).
    cbn [fst]. apply Forall_push; [exact Ha|]. apply mk_project_links. }
  assert (H3 : Forall project_links_ok
                 (if length l2 =? 0 then projects_pattern3 s else l2)).
  { destruct (length l2 =? 0); [|exact H2].
    unfold projects_pattern3. apply fold_left_inv; [|constructor].
    intros a b Ha. unfold projects_block.
    destruct (truthy (trim b)); [|exact Ha].
    destruct (2 <=? length (Js.split b nl)); [|exact Ha].
    cbv zeta.
    match goal with |- context [let (_, _) := ?e in _] => destruct e end.
    apply Forall_push; [exact Ha|]. apply mk_project_links. }
  cbv zeta in H.
  destruct (length (if length l2 =? 0 then projects_pattern3 s else l2) =? 0).
  - rewrite projects_pattern4_never_yields_aux in H.
    + destruct (test dateProjectRegex s); inversion H; constructor.
    + destruct fuel; [discriminate|lia].
  - inversion H; subst. exact H3.
Qed.

(** X6.  In every record [extractInformation] returns, the LinkedIn URL
    is not empty and starts with [http]; the GitHub URL, the portfolio URL
    and the two links of every project are empty or start with [http]. *)
Theorem profile_links_have_scheme (now : Z) (fuel : nat) (text : jstring)
    (d : ParsedProfile) :
  extractInformation now fuel text = Some d ->
  d_linkedinUrl d <> [] /\ link_ok (d_linkedinUrl d)
  /\ link_ok (d_githubUrl d) /\ link_ok (d_portfolioUrl d)
  /\ Forall project_links_ok (d_projects d).
Proof.
  unfold extractInformation. intros H.
  destruct (extractTechnicalSkills fuel text); [|discriminate].
  destruct (extractLanguages fuel text); [|discriminate].
  destruct (extractProjects fuel text) as [ps|] eqn:Ep; [|discriminate].
  destruct (extractWorkExperience fuel text); [|discriminate].
  destruct (calculateExperience now fuel text); [|discriminate].
  inversion H; subst d; clear H.
  cbn [d_linkedinUrl d_githubUrl d_portfolioUrl d_projects].
  assert (Hl : startsWith (or_null (extractLinkedIn text)
                             (str "https://linkedin.com/in/")) (str "http")
               = true).
  { destruct (extractLinkedIn text) as [u|] eqn:E; [|reflexivity].
    apply url_loop_http in E. unfold or_null, or_str.
    destruct (truthy u); [exact E|reflexivity]. }
  split; [|split; [|split; [|split]]].
  - intros E. rewrite E in Hl. discriminate.
  - right. exact Hl.
  - apply or_null_link. intros u E. eapply url_loop_http; exact E.
  - apply or_null_link. intros u E. eapply url_loop_http; exact E.
  - unfold extractProjects in Ep.
    destruct (truthy (extractSection text projectsHeaders)).
    + destruct (projects_in_section fuel _) as [l0|] eqn:E; [|discriminate].
      apply projects_in_section_links in E.
      destruct (length l0 =? 0); inversion Ep; subst; [|exact E].
      repeat constructor.
    + cbn in Ep. inversion Ep; subst. repeat constructor.
Qed.

Lemma profile_links_have_scheme_witness :
  exists d,
    extractInformation 2026 100 (str "Jane Public
linkedin.com/in/janeq
github.com/janeq
") = Some d
    /\ d_linkedinUrl d <> [] /\ link_ok (d_linkedinUrl d)
    /\ link_ok (d_githubUrl d) /\ link_ok (d_portfolioUrl d)
    /\ Forall project_links_ok (d_projects d).
Proof.
  eexists. split; [vm_compute; reflexivity|].
  apply (@profile_links_have_scheme 2026 100 (str "Jane Public
linkedin.com/in/janeq
github.com/janeq
")).
  vm_compute. reflexivity.
Defined.

(** ** The located section is a part of the text *)

Lemma part_of_refl s : part_of s s.
Proof. exists [], []. rewrite app_nil_r. reflexivity. Qed.

Lemma part_of_nil s : part_of [] s.
Proof. exists [], s. reflexivity. Qed.

Lemma part_of_trans x y z : part_of x y -> part_of y z -> part_of x z.
Proof.
  intros (a & b & ->) (c & d & ->). exists (c ++ a), (b ++ d).
  rewrite <- !app_assoc. reflexivity.
Qed.

Lemma trimStart_suffix s : exists a, s = a ++ trimStart s.
Proof.
  induction s as [|c s (a & IH)]; [exists []; reflexivity|].
  simpl. destruct (is_space c).
  - exists (c :: a). simpl. f_equal. exact IH.
  - exists []. reflexivity.
Qed.

Lemma trimEnd_prefix s : exists b, s = trimEnd s ++ b.
Proof.
  unfold trimEnd. destruct (trimStart_suffix (rev s)) as (a & E).
  exists (rev a). rewrite <- rev_app_distr, <- E, rev_involutive. reflexivity.
Qed.

Lemma trim_part_of s : part_of (trim s) s.
Proof.
  unfold trim. destruct (trimStart_suffix s) as (a & Ea).
  destruct (trimEnd_prefix (trimStart s)) as (b & Eb).
  exists a, b. rewrite <- Eb. exact Ea.
Qed.

Lemma substring_part_of s a b : part_of (substring s a b) s.
Proof.
  unfold substring. cbv zeta.
  generalize (Nat.max (Nat.min a (length s)) (Nat.min b (length s))
              - Nat.min (Nat.min a (length s)) (Nat.min b (length s))).
  generalize (Nat.min (Nat.min a (length s)) (Nat.min b (length s))).
  intros lo n.
  exists (firstn lo s), (skipn n (skipn lo s)).
  rewrite firstn_skipn, firstn_skipn. reflexivity.
Qed.

Lemma trimStart_idem s : trimStart (trimStart s) = trimStart s.
Proof.
  induction s as [|c s IH]; [reflexivity|].
  simpl. destruct (is_space c) eqn:E; [exact IH|].
  simpl. rewrite E. reflexivity.
Qed.

Lemma trimStart_snoc l c :
  is_space c = false -> trimStart (l ++ [c]) = trimStart l ++ [c].
Proof.
  intros Hc. induction l as [|x l IH]; simpl.
  - rewrite Hc. reflexivity.
  - destruct (is_space x); [exact IH|reflexivity].
Qed.

Lemma trimStart_trimEnd s :
  trimStart s = s -> trimStart (trimEnd s) = trimEnd s.
Proof.
  unfold trimEnd. destruct s as [|c s]; [reflexivity|].
  simpl. destruct (is_space c) eqn:E.
  - intros H. exfalso.
    assert (Hl := trimStart_length s). rewrite H in Hl. simpl in Hl. lia.
  - intros _. rewrite (@trimStart_snoc _ _ E), rev_app_distr. simpl.
    rewrite E. reflexivity.
Qed.

Lemma trim_idem s : trim (trim s) = trim s.
Proof.
  unfold trim.
  rewrite (@trimStart_trimEnd (trimStart s) (trimStart_idem s)).
  unfold trimEnd. rewrite rev_involutive, trimStart_idem. reflexivity.
Qed.

Lemma extractSection_loop_keeps (P : jstring -> Prop) text n headers :
  (forall h mt, P (section_span text h mt)) ->
  forall acc, P acc -> P (extractSection_loop text n headers acc).
Proof.
  intros Hs. induction headers as [|h hs IH]; intros acc Hacc; [exact Hacc|].
  rewrite extractSection_loop_cons.
  destruct (first_match (headerPatterns h) text) as [mt|]; [|apply IH; exact Hacc].
  destruct ((length (section_span text h mt) <? 10) && (1 <? n));
    [apply IH|]; apply Hs.
Qed.

(** X7.  What [extractSection] returns is a part of the text, and it
    has no white space at either end. *)
Theorem extractSection_trimmed_part (text : jstring) (headers : list jstring) :
  part_of (extractSection text headers) text
  /\ trim (extractSection text headers) = extractSection text headers.
Proof.
  unfold extractSection.
  apply (@extractSection_loop_keeps
           (fun s => part_of s text /\ trim s = s)).
  - intros h mt. unfold section_span. split.
    + eapply part_of_trans; [apply trim_part_of|apply substring_part_of].
    + apply trim_idem.
  - split; [apply part_of_nil|reflexivity].
Qed.

Lemma M_must_have_any ci ml cs r : forall st st',
  Forall (fun c => upper1 c = c /\ lower1 c = c) cs ->
  must_have_any cs r = true -> M ci ml r st st' ->
  exists w c, rest st = w ++ rest st' /\ In c w /\ In c cs.
Proof.
  induction r as [ | c' | | neg items | a IHa b IHb | a IHa b IHb
                 | mn mx greedy r IH | i r IH | | | | | r IH | r IH ];
    intros st st' Hcs Hh H; simpl in Hh; try discriminate.
  - apply existsb_exists in Hh. destruct Hh as (c & Hc & Hh).
    apply N.eqb_eq in Hh. subst c'.
    destruct H as (x & tl & E & Hx & ->).
    rewrite Forall_forall in Hcs. destruct (Hcs _ Hc) as (Hu & Hl).
    apply (@chr_eq_caseless _ _ _ Hu Hl) in Hx. subst x.
    exists [c], c. split; [exact E|]. split; [left; reflexivity|exact Hc].
  - destruct H as (s1 & Ha & Hb).
    apply orb_true_iff in Hh. destruct Hh as [Hh|Hh].
    + destruct (IHa _ _ Hcs Hh Ha) as (w & c & Ew & Hin & Hc).
      destruct (M_suffix _ _ _ _ _ Hb) as (w2 & E2).
      exists (w ++ w2), c. rewrite Ew, E2, app_assoc.
      split; [reflexivity|]. split; [apply in_or_app; auto|exact Hc].
    + destruct (IHb _ _ Hcs Hh Hb) as (w & c & Ew & Hin & Hc).
      destruct (M_suffix _ _ _ _ _ Ha) as (w1 & E1).
      exists (w1 ++ w), c. rewrite E1, Ew, app_assoc.
      split; [reflexivity|]. split; [apply in_or_app; auto|exact Hc].
  - apply andb_true_iff in Hh. destruct Hh as (Ha & Hb).
    destruct H as [H|H]; eauto.
  - apply andb_true_iff in Hh. destruct Hh as (Hh & Hr).
    apply andb_true_iff in Hh. destruct Hh as (Hmn & Hmx).
    destruct mn as [|mn']; [discriminate|]. apply negb_true_iff in Hmx.
    simpl in H. inversion H; subst.
    + discriminate.
    + destruct (IH _ _ Hcs Hr H1) as (w & c & Ew & Hin & Hc). simpl in Ew.
      assert (HM2 : M ci ml (Rep (Nat.pred (S mn')) (option_map Nat.pred mx)
                               greedy r) s1 st') by exact H2.
      destruct (M_suffix _ _ _ _ _ HM2) as (w2 & E2).
      exists (w ++ w2), c. rewrite Ew, E2, app_assoc.
      split; [reflexivity|]. split; [apply in_or_app; auto|exact Hc].
  - destruct H as (s1 & Hr & ->). simpl. eauto.
Qed.

Lemma in_skipn (A : Type) (x : A) : forall n l, In x (skipn n l) -> In x l.
Proof.
  induction n as [|n IH]; intros l H; [exact H|].
  destruct l as [|y l]; [exact H|]. right. apply IH. exact H.
Qed.

(** A pattern that must consume one of [cs] finds nothing in a text that
    holds none of them. *)
Lemma exec_must_have_any re cs text :
  Forall (fun c => upper1 c = c /\ lower1 c = c) cs ->
  must_have_any cs (ast re) = true ->
  (forall c, In c text -> ~ In c cs) ->
  exec re text = None.
Proof.
  intros Hcs Hh Hno. destruct (exec re text) as [r|] eqn:E; [|reflexivity].
  exfalso. destruct (exec_sound _ _ E) as (k & p' & st' & _ & _ & HM & _).
  destruct (@M_must_have_any _ _ _ _ _ _ Hcs Hh HM) as (w & c & Ew & Hin & Hc).
  simpl in Ew. apply (Hno c); [|exact Hc].
  apply (@in_skipn _ c k). rewrite Ew. apply in_or_app. left. exact Hin.
Qed.

Lemma first_match_none ps text :
  Forall (fun re => exec re text = None) ps -> first_match ps text = None.
Proof.
  induction 1 as [|re ps H _ IH]; [reflexivity|].
  simpl. rewrite H. exact IH.
Qed.

Lemma header_patterns_need_closer :
  forallb
    (fun h => forallb (fun re => must_have_any header_closers (ast re))
                (headerPatterns h))
    headers_in_use = true.
Proof. vm_compute. reflexivity. Qed.

Lemma header_closers_caseless :
  Forall (fun c => upper1 c = c /\ lower1 c = c) header_closers.
Proof. repeat constructor. Qed.

Lemma header_not_found text h :
  In h headers_in_use ->
  (forall c, In c text -> ~ In c header_closers) ->
  first_match (headerPatterns h) text = None.
Proof.
  intros Hh Hno. apply first_match_none. apply Forall_forall. intros re Hre.
  assert (H := header_patterns_need_closer).
  rewrite forallb_forall in H. specialize (H _ Hh).
  rewrite forallb_forall in H. specialize (H _ Hre).
  eapply exec_must_have_any; [apply header_closers_caseless|exact H|exact Hno].
Qed.

(** X8.  Every header pattern wants the header to be closed: by a line
    feed, or by the parenthesis, the bracket or the brace around it.  For
    the headers the parser looks for, a text that holds none of these
    four code units has no section. *)
Theorem extractSection_needs_closer (text : jstring) (headers : list jstring) :
  incl headers headers_in_use ->
  (forall c, In c text -> ~ In c header_closers) ->
  extractSection text headers = [].
Proof.
  intros Hincl Hno. unfold extractSection.
  generalize (length headers). intros n.
  induction headers as [|h hs IH]; [reflexivity|].
  rewrite extractSection_loop_cons.
  rewrite (@header_not_found text h); [|apply Hincl; left; reflexivity|exact Hno].
  apply IH. intros x Hx. apply Hincl. right. exact Hx.
Qed.

Lemma extractSection_needs_closer_witness :
  extractSection (str "Skills: Java, Go and Rocq") [str "skills"] = [].
Proof.
  apply extractSection_needs_closer.
  - intros h [<-|[]]. vm_compute. tauto.
  - intros c Hc Hk. vm_compute in Hk.
    destruct Hk as [<-|[<-|[<-|[<-|[]]]]]; vm_compute in Hc;
      repeat (destruct Hc as [Hc|Hc]; [discriminate Hc|]); exact Hc.
Defined.

(** ** What a match and its groups are made of *)

(** The value of a group that every match sets is what its body consumed,
    somewhere in what the whole match consumed. *)
Lemma M_cap_body ci ml i r : forall r' st st',
  cap_body i r = Some r' -> M ci ml r st st' ->
  exists s0 s1 a b,
    M ci ml r' s0 s1
    /\ lookup i (caps st') = Some (between s0 s1)
    /\ rest st = a ++ rest s0 /\ rest s1 = b ++ rest st'.
Proof.
  induction r as [ | c | | neg items | a IHa b IHb | a IHa b IHb
                 | mn mx greedy r IH | j r IH | | | | | r IH | r IH ];
    intros r' st st' Hc H; simpl in Hc; try discriminate.
  - destruct H as (s1 & Ha & Hb).
    destruct (cap_body i b) as [x|] eqn:Eb.
    + inversion Hc; subst x.
      destruct (IHb _ _ _ eq_refl Hb) as (t0 & t1 & u & v & HM & Hl & Eu & Ev).
      destruct (M_suffix _ _ _ _ _ Ha) as (w & Ew).
      exists t0, t1, (w ++ u), v. repeat split; auto.
      rewrite Ew, Eu, app_assoc. reflexivity.
    + destruct (existsb (Nat.eqb i) (groups b)) eqn:Eg; [discriminate|].
      destruct (IHa _ _ _ Hc Ha) as (t0 & t1 & u & v & HM & Hl & Eu & Ev).
      destruct (M_suffix _ _ _ _ _ Hb) as (w & Ew).
      exists t0, t1, u, (v ++ w). repeat split; auto.
      * rewrite (@M_frame ci ml i b s1 st' Hb); [exact Hl|].
        intros Hin.
        assert (existsb (Nat.eqb i) (groups b) = true)
          by (apply existsb_exists; exists i; split;
              [exact Hin | apply Nat.eqb_refl]).
        congruence.
      * rewrite Ev, Ew, app_assoc. reflexivity.
  - destruct H as (s1 & Hr & ->). simpl.
    destruct (Nat.eqb i j) eqn:E.
    + inversion Hc; subst r'.
      exists st, s1, [], []. repeat split; auto.
    + destruct (IH _ _ _ Hc Hr) as (t0 & t1 & u & v & HM & Hl & Eu & Ev).
      exists t0, t1, u, v. repeat split; auto.
Qed.

Lemma skipn_part_of (x : jstring) k s b : skipn k s = x ++ b -> part_of x s.
Proof.
  intros E. exists (firstn k s), b. rewrite <- E, firstn_skipn. reflexivity.
Qed.

(** The matched text is a piece of the input. *)
Lemma exec_part_of re s r : exec re s = Some r -> part_of (m0 r) s.
Proof.
  intros H. destruct (exec_sound _ _ H) as (k & p' & st' & _ & _ & HM & H0 & _).
  destruct (M_suffix _ _ _ _ _ HM) as (w & Ew).
  rewrite (@between_suffix _ _ _ Ew) in H0. rewrite H0.
  simpl in Ew. eapply skipn_part_of; exact Ew.
Qed.

(** A group that every match sets: its value is what the group's body
    matched, and a piece of the input. *)
Lemma exec_cap_body re s r i r' :
  cap_body i (ast re) = Some r' -> exec re s = Some r ->
  exists s0 s1 w,
    M (flag_i re) (flag_m re) r' s0 s1 /\ rest s0 = w ++ rest s1
    /\ grp r i = w /\ part_of w s.
Proof.
  intros Hc H.
  destruct (exec_sound _ _ H) as (k & p' & st' & _ & _ & HM & _ & Hcaps).
  destruct (@M_cap_body _ _ _ _ _ _ _ Hc HM) as (s0 & s1 & a & b & HM' & Hl & Ea & Eb).
  destruct (M_suffix _ _ _ _ _ HM') as (w & Ew).
  exists s0, s1, w. split; [exact HM'|]. split; [exact Ew|].
  rewrite (@between_suffix _ _ _ Ew) in Hl.
  split.
  - unfold grp, grp_opt. rewrite Hcaps, Hl. reflexivity.
  - simpl in Ea. exists (firstn k s ++ a), (rest s1).
    rewrite <- app_assoc, <- Ew, <- Ea, firstn_skipn. reflexivity.
Qed.

Lemma reps_min_count (R : mstate -> mstate -> Prop) (p : N -> bool) n :
  (forall s s', R s s' ->
     exists w, rest s = w ++ rest s' /\ n <= length (filter p w)) ->
  forall mn mx s s', reps R mn mx s s' ->
    exists w, rest s = w ++ rest s'
      /\ match mx with Some k => Nat.min mn k * n | None => mn * n end
         <= length (filter p w).
Proof.
  intros HR mn mx s s' H. induction H.
  - exists []. split; [reflexivity|]. destruct mx; simpl; lia.
  - exists []. split; [reflexivity|]. rewrite Nat.min_0_r. simpl. lia.
  - destruct (HR _ _ H0) as (w1 & E1 & L1).
    destruct IHreps as (w2 & E2 & L2).
    exists (w1 ++ w2). split; [rewrite E1, E2, app_assoc; reflexivity|].
    rewrite filter_app, length_app.
    destruct mx as [[|k]|]; simpl in *; try discriminate.
    + destruct mn as [|mn]; simpl in *; [lia|].
      remember (Nat.min mn k * n) as q. lia.
    + destruct mn as [|mn]; simpl in *; [lia|].
      remember (mn * n) as q. lia.
Qed.

Lemma M_min_count ci ml p r : forall st st',
  M ci ml r st st' ->
  exists w, rest st = w ++ rest st'
            /\ min_count ci p r <= length (filter p w).
Proof.
  induction r as [ | c | | neg items | a IHa b IHb | a IHa b IHb
                 | mn mx greedy r IH | i r IH | | | | | r IH | r IH ];
    intros st st' H; simpl in H; cbn [min_count];
    try (destruct H as (-> & _); exists []; split; [reflexivity|simpl; lia]).
  - subst. exists []. split; [reflexivity|simpl; lia].
  - destruct H as (x & tl & E & Hx & ->).
    exists [x]. split; [exact E|].
    destruct (forallb p (cased ci c)) eqn:Hp; [|lia].
    simpl. rewrite (@forallb_in _ _ _ Hp (cased_in _ _ _ Hx)). simpl. lia.
  - destruct H as (x & tl & E & Hx & ->).
    exists [x]. split; [exact E|simpl; lia].
  - destruct H as (x & tl & E & Hx & ->).
    exists [x]. split; [exact E|].
    destruct (negb neg && forallb (item_in ci p) items) eqn:Hp; [|lia].
    apply andb_true_iff in Hp. destruct Hp as (Hn & Hp).
    apply negb_true_iff in Hn. subst neg.
    unfold class_match in Hx. simpl in Hx.
    apply existsb_exists in Hx. destruct Hx as (it & Hit & Hx).
    assert (Hpx : p x = true).
    { eapply item_in_ok; [|exact Hx]. eapply forallb_forall in Hp; eauto. }
    simpl. rewrite Hpx. simpl. lia.
  - destruct H as (s1 & H1 & H2).
    destruct (IHa _ _ H1) as (w1 & E1 & L1).
    destruct (IHb _ _ H2) as (w2 & E2 & L2).
    exists (w1 ++ w2). split; [rewrite E1, E2, app_assoc; reflexivity|].
    rewrite filter_app, length_app. lia.
  - destruct H as [H|H].
    + destruct (IHa _ _ H) as (w & E & L). exists w. split; [exact E|lia].
    + destruct (IHb _ _ H) as (w & E & L). exists w. split; [exact E|lia].
  - apply (@reps_min_count
             (fun s s' => M ci ml r (clear_caps (groups r) s) s') p
             (min_count ci p r)); [|exact H].
    intros s s' HR. apply IH in HR. simpl in HR. exact HR.
  - destruct H as (s1 & Hr & ->). simpl. apply IH in Hr. exact Hr.
  - destruct H as (s1 & _ & ->). exists []. split; [reflexivity|simpl; lia].
Qed.

(** What a match consumed, with the three bounds at once. *)
Lemma M_consumed ci ml r st st' (p q : N -> bool) :
  all_in ci p r = true -> M ci ml r st st' ->
  exists w, rest st = w ++ rest st' /\ forallb p w = true
            /\ min_len r <= length w
            /\ min_count ci q r <= length (filter q w).
Proof.
  intros Hp HM. destruct (@M_all_in ci ml p r st st' Hp HM) as (w & Ew & Pw).
  exists w. split; [exact Ew|]. split; [exact Pw|].
  destruct (@M_min_count ci ml q r st st' HM) as (w' & Ew' & Lw').
  assert (w' = w).
  { rewrite Ew in Ew'. apply app_inv_tail in Ew'. symmetry. exact Ew'. }
  subst w'. split; [|exact Lw'].
  apply M_min_len in HM. rewrite Ew, length_app in HM. lia.
Qed.

(** The three facts about the whole match, and about a group that every
    match sets, read off the pattern. *)
Lemma exec_whole_facts re s r (p q : N -> bool) n :
  all_in (flag_i re) p (ast re)
  && (n <=? min_count (flag_i re) q (ast re)) = true ->
  exec re s = Some r ->
  part_of (m0 r) s /\ forallb p (m0 r) = true
  /\ n <= length (filter q (m0 r)).
Proof.
  intros Hc H. apply andb_true_iff in Hc. destruct Hc as (Hp & Hn).
  apply Nat.leb_le in Hn.
  split; [eapply exec_part_of; exact H|].
  destruct (exec_sound _ _ H) as (k & p' & st' & _ & _ & HM & H0 & _).
  destruct (@M_consumed _ _ _ _ _ p q Hp HM) as (w & Ew & Pw & _ & Lw).
  rewrite (@between_suffix _ _ _ Ew) in H0. rewrite H0.
  split; [exact Pw|lia].
Qed.

Lemma exec_group_facts re s r i (p q : N -> bool) n :
  match cap_body i (ast re) with
  | Some r' =>
      all_in (flag_i re) p r' && (n <=? min_count (flag_i re) q r')
  | None => false
  end = true ->
  exec re s = Some r ->
  part_of (grp r i) s /\ forallb p (grp r i) = true
  /\ n <= length (filter q (grp r i)).
Proof.
  intros Hc H. destruct (cap_body i (ast re)) as [r'|] eqn:Eb; [|discriminate].
  apply andb_true_iff in Hc. destruct Hc as (Hp & Hn).
  apply Nat.leb_le in Hn.
  destruct (@exec_cap_body re s r i r' Eb H) as (s0 & s1 & w & HM & Ew & Eg & Hw).
  destruct (@M_consumed _ _ _ _ _ p q Hp HM) as (w' & Ew' & Pw & _ & Lw).
  assert (w' = w).
  { rewrite Ew in Ew'. apply app_inv_tail in Ew'. symmetry. exact Ew'. }
  subst w'. rewrite Eg. split; [exact Hw|]. split; [exact Pw|lia].
Qed.

(** ** Contact details *)

Lemma M_chr ml c st st' :
  M false ml (Chr c) st st' -> rest st = c :: rest st'.
Proof.
  intros (x & tl & E & Hx & ->). unfold chr_eq, canon in Hx.
  apply N.eqb_eq in Hx. subst x. exact E.
Qed.

(** X9.  An address [extractEmail] returns is a part of the text without
    white space, of the form local part, [@], host, [.], and a last label
    of two or more letters. *)
Theorem extractEmail_shape (text e : jstring) :
  extractEmail text = Some e ->
  part_of e text
  /\ forallb (fun c => negb (is_space c)) e = true
  /\ exists l h t,
       e = l ++ str "@" ++ h ++ str "." ++ t
       /\ l <> [] /\ h <> [] /\ 2 <= length t /\ forallb is_letter t = true.
Proof.
  unfold extractEmail.
  destruct (exec _ text) as [mt|] eqn:E; [|discriminate].
  intros H. inversion H; subst e; clear H.
  split; [eapply exec_part_of; exact E|].
  destruct (exec_sound _ _ E) as (k & p' & st' & _ & _ & HM & H0 & _).
  split.
  - eapply (@M_all_in _ _ (fun c => negb (is_space c))) in HM;
      [|vm_compute; reflexivity].
    destruct HM as (w & Ew & Pw).
    rewrite (@between_suffix _ _ _ Ew) in H0. rewrite H0. exact Pw.
  - match type of HM with M _ _ ?a _ _ => set (r := a) in HM end.
    vm_compute in r. subst r.
    destruct HM as (s1 & H1 & s2 & H2 & s3 & H3 & s4 & H4 & H5).
    apply M_chr in H2. apply M_chr in H4.
    eapply (@M_consumed _ _ _ _ _ (fun _ => true) (fun _ => true)) in H1;
      [|vm_compute; reflexivity].
    eapply (@M_consumed _ _ _ _ _ (fun _ => true) (fun _ => true)) in H3;
      [|vm_compute; reflexivity].
    eapply (@M_consumed _ _ _ _ _ is_letter (fun _ => true)) in H5;
      [|vm_compute; reflexivity].
    destruct H1 as (l & El & _ & Ll & _).
    destruct H3 as (h & Eh & _ & Lh & _).
    destruct H5 as (t & Et & Pt & Lt & _).
    assert (Ew : rest (start_state p' (skipn k text))
                 = (l ++ str "@" ++ h ++ str "." ++ t) ++ rest st').
    { rewrite El, H2, Eh, H4, Et. rewrite <- !app_assoc. reflexivity. }
    rewrite (@between_suffix _ _ _ Ew) in H0.
    exists l, h, t. split; [exact H0|].
    simpl in Ll, Lh, Lt.
    repeat split; try assumption; intros ->; simpl in *; lia.
Qed.

Lemma extractEmail_shape_witness :
  part_of (str "jane@example.com") (str "Mail: jane@example.com ").
Proof.
  apply (@extractEmail_shape (str "Mail: jane@example.com ")
           (str "jane@example.com")).
  vm_compute. reflexivity.
Defined.

(** X10.  A number [extractPhone] returns is a part of the text written
    with digits, white space and [+ - . ( )] only, and holds ten digits or
    more. *)
Theorem extractPhone_shape (text p : jstring) :
  extractPhone text = Some p ->
  part_of p text /\ forallb phone_unit p = true
  /\ 10 <= length (filter is_digit p).
Proof.
  unfold extractPhone, phoneRegexes. cbn [extractPhone_loop].
  destruct (exec _ text) as [mt|] eqn:E1.
  - intros H. inversion H; subst p; clear H.
    change (labeled_or_whole _ _ mt) with (grp mt 1).
    eapply exec_group_facts; [|exact E1]. vm_compute. reflexivity.
  - clear E1. destruct (exec _ text) as [mt|] eqn:E2; [|discriminate].
    intros H. inversion H; subst p; clear H.
    change (labeled_or_whole _ _ mt) with (m0 mt).
    eapply exec_whole_facts; [|exact E2]. vm_compute. reflexivity.
Qed.

Lemma extractPhone_shape_witness :
  part_of (str "(555) 123-4567") (str "Tel: (555) 123-4567")
  /\ forallb phone_unit (str "(555) 123-4567") = true
  /\ 10 <= length (filter is_digit (str "(555) 123-4567")).
Proof.
  apply (@extractPhone_shape (str "Tel: (555) 123-4567")). 
  vm_compute. reflexivity.
Defined.

Lemma filter_length_le (A : Type) (f : A -> bool) l :
  length (filter f l) <= length l.
Proof.
  induction l as [|x l IH]; simpl; [lia|]. destruct (f x); simpl; lia.
Qed.

Lemma url_loop_copied regexes label text u :
  forallb (url_pattern_ok label) regexes = true ->
  url_loop regexes label text = Some u -> copied_url text u.
Proof.
  induction regexes as [|re res IH]; intros Hok H; [discriminate|].
  simpl in Hok. apply andb_true_iff in Hok. destruct Hok as (Hre & Hok).
  simpl in H. destruct (exec re text) as [mt|] eqn:E; [|apply IH; assumption].
  inversion H; subst u; clear H IH.
  exists (labeled_or_whole re label mt). split; [reflexivity|].
  unfold url_pattern_ok in Hre. unfold labeled_or_whole.
  destruct (includes (toString re) (str label)).
  - destruct (@exec_group_facts re text mt 1 _ _ 4 Hre E) as (Hp & Ha & Hn).
    repeat split; try assumption.
    etransitivity; [exact Hn|apply filter_length_le].
  - destruct (@exec_whole_facts re text mt _ _ 4 Hre E) as (Hp & Ha & Hn).
    repeat split; try assumption.
    etransitivity; [exact Hn|apply filter_length_le].
Qed.

(** X11.  A URL returned by one of the five URL extractors is copied
    from the text: a part of the text of four code units or more, free of
    white space, with [https://] put in front unless it starts with
    [http]. *)
Theorem url_extractors_copy (text u : jstring) :
  extractLinkedIn text = Some u \/ extractGithubUrl text = Some u
  \/ extractPortfolioUrl text = Some u
  \/ extractGithubProjectUrl text = Some u
  \/ extractLiveProjectUrl text = Some u ->
  copied_url text u.
Proof.
  intros [H|[H|[H|[H|H]]]];
    (eapply url_loop_copied; [|exact H]); vm_compute; reflexivity.
Qed.

Lemma url_extractors_copy_witness :
  copied_url (str "see github.com/jane/repo") (str "https://github.com/jane/repo").
Proof.
  apply url_extractors_copy. right. left. vm_compute. reflexivity.
Defined.

(** ** The parts of a name *)

(** X12.  [parseFullName] returns three empty parts for a name of white
    space only.  A name of words separated by white space, with or
    without white space around it, it splits into the first word, the
    last word and, when there are more than two, the words between them
    joined by single spaces; a single word is the first name. *)
Theorem parseFullName_splits :
  (forall a, blank a ->
     parseFullName a
     = {| firstName := []; middleName := []; lastName := [] |})
  /\ (forall a b w more,
        blank a -> blank b -> token w -> Forall gap_token more ->
        parseFullName (a ++ spaced w more ++ b)
        = {| firstName := w;
             middleName := join (str " ") (removelast (map snd more));
             lastName := last (map snd more) [] |}).
Proof. exact parseFullName_tokens. Qed.

Lemma parseFullName_splits_witness :
  parseFullName (str "  Jane  Q. van der Berg ")
  = {| firstName := str "Jane"; middleName := str "Q. van der";
       lastName := str "Berg" |}.
Proof.
  apply (proj2 parseFullName_splits (str "  ") (str " ") (str "Jane")
           [(str "  ", str "Q."); (str " ", str "van"); (str " ", str "der");
            (str " ", str "Berg")]).
  - reflexivity.
  - reflexivity.
  - split; [discriminate|reflexivity].
  - repeat constructor; discriminate.
Defined.

(** ** Escaping a text for a pattern *)

Lemma escape_class x :
  class_match false false
    [CChar 46; CChar 42; CChar 43; CChar 63; CChar 94; CChar 36; CChar 123;
     CChar 125; CChar 40; CChar 41; CChar 124; CChar 91; CChar 93; CChar 92] x
  = existsb (N.eqb x) regexp_specials.
Proof.
  unfold class_match, regexp_specials. cbn [xorb existsb item_match].
  unfold chr_eq, canon. change (str ".*+?^${}()|[]\") with
    [46; 42; 43; 63; 94; 36; 123; 125; 40; 41; 124; 91; 93; 92]%N.
  cbn [existsb]. rewrite !(N.eqb_sym x). reflexivity.
Qed.

Lemma escape_match_here p s :
  match_here escapeRegex p s
  = match s with
    | x :: tl =>
        if existsb (N.eqb x) regexp_specials
        then Some {| prev := Some x; rest := tl; caps := [] |}
        else None
    | [] => None
    end.
Proof.
  unfold match_here.
  change (ast escapeRegex) with
    (Class false
       [CChar 46; CChar 42; CChar 43; CChar 63; CChar 94; CChar 36; CChar 123;
        CChar 125; CChar 40; CChar 41; CChar 124; CChar 91; CChar 93; CChar 92]).
  change (flag_i escapeRegex) with false.
  change (flag_m escapeRegex) with false.
  cbn [m]. unfold one. cbn [rest].
  destruct s as [|x tl]; [reflexivity|].
  rewrite escape_class. reflexivity.
Qed.

Lemma skipn_cons_S (s : jstring) : forall i x tl,
  skipn i s = x :: tl -> skipn (S i) s = tl /\ i < length s.
Proof.
  induction s as [|c s IH]; intros i x tl H.
  - destruct i; discriminate.
  - destruct i as [|i].
    + simpl in H. inversion H; subst. split; [reflexivity|simpl; lia].
    + simpl in H. destruct (IH _ _ _ H) as (E & L). split; [exact E|simpl; lia].
Qed.

Lemma escape_go (f : mresult -> jstring) (s : jstring) :
  (forall r, f r = 92%N :: m0 r) ->
  forall t i fuel,
    skipn i s = t -> length t < fuel ->
    replace_go fuel escapeRegex f s i = flat_map escape_unit t.
Proof.
  intros Hf. induction t as [|x tl IH]; intros i fuel Et Hl.
  - destruct fuel as [|fuel]; [exact Et|].
    cbn [replace_go].
    assert (Hi : i <= length s \/ length s < i) by lia.
    destruct Hi as [Hi|Hi].
    + rewrite exec_from_step by exact Hi. rewrite Et, escape_match_here.
      assert (length (skipn i s) = 0) by (rewrite Et; reflexivity).
      rewrite length_skipn in H.
      destruct (i <? length s) eqn:E; [apply Nat.ltb_lt in E; lia|].
      reflexivity.
    + unfold exec_from. apply Nat.ltb_lt in Hi. rewrite Hi. exact Et.
  - destruct (skipn_cons_S _ _ Et) as (Etl & Hi).
    cbn [flat_map]. unfold escape_unit at 1.
    destruct (existsb (N.eqb x) regexp_specials) eqn:Ex.
    + destruct fuel as [|fuel]; [simpl in Hl; lia|].
      cbn [replace_go]. rewrite exec_from_step by lia.
      rewrite Et, escape_match_here, Ex. cbn [index m0 rest length mend].
      replace (S (length tl) - length tl) with 1 by lia.
      rewrite Nat.sub_diag, Hf. cbn [firstn app m0 flag_g].
      change (flag_g escapeRegex) with true. cbv iota.
      f_equal. f_equal. unfold mend. cbn [index m0 length].
      rewrite Nat.add_1_r.
      apply IH; [exact Etl|simpl in Hl; lia].
    + transitivity (x :: replace_go fuel escapeRegex f s (S i)).
      * destruct fuel as [|fuel]; [cbn [replace_go]; rewrite Et, Etl; reflexivity|].
        cbn [replace_go]. rewrite (@exec_from_step _ s i) by lia.
        rewrite Et, escape_match_here, Ex.
        apply Nat.ltb_lt in Hi. rewrite Hi.
        destruct (exec_from escapeRegex s (S i)) as [r|] eqn:E.
        -- destruct (exec_from_bounds _ _ _ E) as (Hr & _ & _).
           replace (index r - i) with (S (index r - S i)) by lia.
           rewrite Etl. reflexivity.
        -- rewrite Etl. reflexivity.
      * cbn [app]. f_equal. apply IH; [exact Etl|simpl in Hl; lia].
Qed.

(** X13.  [escapeRegExp] puts a backslash in front of each of the
    characters [. * + ? ^ $ { } ( ) | [ ] \] and leaves the other code
    units as they are; a text without these characters is returned
    unchanged. *)
Theorem escapeRegExp_each_unit (s : jstring) :
  escapeRegExp s = flat_map escape_unit s
  /\ ((forall c, In c s -> ~ In c regexp_specials) -> escapeRegExp s = s).
Proof.
  assert (E : escapeRegExp s = flat_map escape_unit s).
  { unfold escapeRegExp, replace_with.
    change (literal false false true "[.*+?^${}()|[\]\\]" eq_refl)
      with escapeRegex.
    apply escape_go; [reflexivity|reflexivity|lia]. }
  split; [exact E|].
  intros Hs. rewrite E. clear E.
  induction s as [|c s IH]; [reflexivity|].
  cbn [flat_map]. unfold escape_unit at 1.
  destruct (existsb (N.eqb c) regexp_specials) eqn:Ec.
  - exfalso. apply existsb_exists in Ec. destruct Ec as (y & Hy & Ey).
    apply N.eqb_eq in Ey. subst y. apply (Hs c); [left; reflexivity|exact Hy].
  - cbn [app]. f_equal. apply IH. intros x Hx. apply Hs. right. exact Hx.
Qed.

Lemma escapeRegExp_each_unit_witness :
  escapeRegExp (str "c++ (v2.0)") = str "c\+\+ \(v2\.0\)"
  /\ escapeRegExp (str "work experience") = str "work experience".
Proof.
  split.
  - rewrite (proj1 (escapeRegExp_each_unit (str "c++ (v2.0)"))).
    vm_compute. reflexivity.
  - apply (proj2 (escapeRegExp_each_unit (str "work experience"))).
    intros c Hc Hk. vm_compute in Hk.
    repeat (destruct Hk as [<-|Hk];
            [vm_compute in Hc;
             repeat (destruct Hc as [Hc|Hc]; [discriminate Hc|]); exact Hc|]).
    exact Hk.
Defined.

(** ** The patterns built at run time read

    The header patterns are built from the header words.  For every word
    the extractors pass, and for the common headers, the seven sources
    read as patterns. *)

Lemma header_patterns_read :
  forallb (fun h => forallb source_reads (headerPatterns h)) headers_in_use
  = true.
Proof. vm_compute. reflexivity. Qed.

Lemma word_patterns_read :
  forallb (fun w => source_reads (word_regex w))
    (commonSoftSkills ++ commonLanguages) = true.
Proof. vm_compute. reflexivity. Qed.

(** ** The examples of the specification *)

Example email_example :
  extractEmail (str "Contact: jane@example.com") = Some (str "jane@example.com").
Proof. vm_compute. reflexivity. Qed.

Example date_range_example :
  extractDateRange (str "Jan 2019 - present")
  = {| startDate := str "2019"; endDate := str "Present" |}.
Proof. vm_compute. reflexivity. Qed.

Example summation_example :
  calculateExperience 2026 100 two_jobs_text
  = Some (Num ((2020 - 2018) + (2026 - 2021))).
Proof. vm_compute. reflexivity. Qed.

Example academic_position_loops :
  extractWorkExperience 50 (str "Experience:
Research Assistant at MIT") = None.
Proof. vm_compute. reflexivity. Qed.
